(** * Goalden: the derived-state computations of [src/App.jsx]

    The application keeps a savings goal and a list of signed transactions
    in Firestore and derives from them, on every render, the balance, the
    progress percentage, the remaining amount, a per-day aggregation for
    the calendar, the per-day detail list and the calendar grid.

    This file embeds those computations and proves the properties the
    specification states about them.  It also embeds the month navigation
    of the calendar, the state and the handlers of the dashboard, the
    forms for goals and transactions with the handlers of [App] they call,
    and the percentage of the progress card, and proves further properties
    of the code (the last part of the file).

    - JavaScript numbers are IEEE-754 binary64 values.  They are modelled
      by [spec_float] with precision 53 and maximal exponent 1024, and the
      arithmetic operators by the executable operations of
      [Stdlib.Floats.SpecFloat] ([SFadd], [SFsub], [SFmul], [SFdiv],
      [SFcompare]).
    - A Firestore [Timestamp] carries an integer number of seconds.
    - The object [data] built by [dailyData] is a map from date keys
      (strings such as 2024-05-01) to aggregates: a [gmap string _].
    - [Date] objects are time values (milliseconds since the epoch, an
      integer) together with the host's offset from UTC. *)

From Stdlib Require Import ZArith List Lia ZifyNat Bool Ascii String DecimalString.
From Stdlib Require Import Sorted Permutation.
From Stdlib Require Import Floats.SpecFloat.
From stdpp Require Import gmap strings list.

Local Open Scope Z_scope.

(** ** JavaScript numbers *)

Module JSNumber.

Definition prec : Z := 53.
Definition emax : Z := 1024.

(** A JavaScript [Number].  Every number the engine can hold satisfies
    [valid]; [spec_float] also contains triples that are no binary64
    value, so the lemmas that depend on the representation carry
    [valid] as a hypothesis. *)
Definition number : Type := spec_float.

Definition valid (x : number) : bool := valid_binary prec emax x.

Definition NaN : number := S754_nan.
Definition Infinity : number := S754_infinity false.
Definition NegInfinity : number := S754_infinity true.
(** The literal [0]. *)
Definition zero : number := S754_zero false.
Definition negzero : number := S754_zero true.

(** The number an integer literal denotes ([100], [1000], ...), and the
    result of [parseFloat] on a string of decimal digits: the integer
    rounded to the nearest binary64 value. *)
Definition ofZ (n : Z) : number := binary_normalize prec emax n 0 false.

Definition MAX_SAFE_INTEGER : Z := 2 ^ 53 - 1.

(** [x + y], [x - y], [x * y], [x / y]. *)
Definition add (x y : number) : number := SFadd prec emax x y.
Definition sub (x y : number) : number := SFsub prec emax x y.
Definition mul (x y : number) : number := SFmul prec emax x y.
Definition div (x y : number) : number := SFdiv prec emax x y.

(** [x < y], [x > y], [x <= y]: false as soon as an operand is NaN. *)
Definition lt (x y : number) : bool := SFltb x y.
Definition gt (x y : number) : bool := SFltb y x.
Definition le (x y : number) : bool := SFleb x y.

Definition isNaN (x : number) : bool :=
  match x with S754_nan => true | _ => false end.

Definition isFinite (x : number) : bool :=
  match x with S754_nan | S754_infinity _ => false | _ => true end.

Definition isZero (x : number) : bool :=
  match x with S754_zero _ => true | _ => false end.

(** [ToBoolean] on a number: [+0], [-0] and [NaN] are falsy. *)
Definition ToBoolean (x : number) : bool :=
  match x with
  | S754_zero _ | S754_nan => false
  | _ => true
  end.

(** [ToNumber] on a property that may be [undefined]. *)
Definition ToNumber (v : option number) : number :=
  match v with
  | Some x => x
  | None => NaN
  end.

(** [Math.max(x, y)] as ECMAScript defines it: the running maximum starts
    at -Infinity, a NaN argument makes the result NaN, and +0 is larger
    than -0. *)
Definition max_step (highest n : number) : number :=
  match n, highest with
  | S754_zero false, S754_zero true => n
  | _, _ => if gt n highest then n else highest
  end.

Definition Math_max (x y : number) : number :=
  if isNaN x || isNaN y then NaN
  else max_step (max_step NegInfinity x) y.

(** [Math.min(x, y)]: the running minimum starts at +Infinity, and -0 is
    smaller than +0. *)
Definition min_step (lowest n : number) : number :=
  match n, lowest with
  | S754_zero true, S754_zero false => n
  | _, _ => if lt n lowest then n else lowest
  end.

Definition Math_min (x y : number) : number :=
  if isNaN x || isNaN y then NaN
  else min_step (min_step Infinity x) y.

End JSNumber.

Import JSNumber.

(** ** The data model *)

(** A Firestore [Timestamp]; the code reads [seconds] only. *)
Record Timestamp : Type := { seconds : Z }.

(** A transaction document together with its id.  [date] is [null] while
    the server timestamp of a local write is still pending. *)
Record Transaction : Type := {
  id : string;
  description : string;
  amount : number;
  date : option Timestamp
}.

(** The goal document; [targetAmount] may be missing from the document. *)
Record Goal : Type := {
  name : string;
  targetAmount : option number
}.

(** The value stored under a date key by [dailyData]. *)
Record DailyAggregate : Type := {
  income : number;
  expense : number
}.

(** ** Balance, progress, remaining amount *)

(** [transactions.reduce((acc, t) => acc + t.amount, 0)] *)
Definition currentBalance (transactions : list Transaction) : number :=
  fold_left (fun acc t => add acc (amount t)) transactions zero.

(** [if (!goal || !goal.targetAmount) return 0;
     return Math.max(0, Math.min(100, (currentBalance / goal.targetAmount) * 100));] *)
Definition progress (currentBalance : number) (goal : option Goal) : number :=
  match goal with
  | None => zero
  | Some g =>
      match targetAmount g with
      | None => zero
      | Some target =>
          if negb (ToBoolean target) then zero
          else Math_max zero
                 (Math_min (ofZ 100) (mul (div currentBalance target) (ofZ 100)))
      end
  end.

(** [const remaining = goal.targetAmount - currentBalance;] in
    [ProgressCard], which is rendered only when a goal exists. *)
Definition remaining (goal : Goal) (currentBalance : number) : number :=
  sub (ToNumber (targetAmount goal)) currentBalance.

(** The amount the card shows: [Math.max(0, remaining)]. *)
Definition remainingShown (goal : Goal) (currentBalance : number) : number :=
  Math_max zero (remaining goal currentBalance).

(** ** Dates

    The time-value arithmetic of ECMAScript's [Date]: a time value is a
    number of milliseconds since 1970-01-01T00:00:00Z.  Firestore only
    produces timestamps between the years 1 and 9999, for which a [Date]
    is valid and [toISOString] does not throw. *)

Module JSDate.

Definition msPerDay : Z := 86400000.

Definition Day (t : Z) : Z := t / msPerDay.
Definition TimeWithinDay (t : Z) : Z := t mod msPerDay.

(** Sunday is 0; 1970-01-01 was a Thursday. *)
Definition WeekDay (t : Z) : Z := (Day t + 4) mod 7.

(** Year, month (1..12) and day of the month of a day number, and back:
    the proleptic Gregorian calendar, computed over 400-year eras that
    start on March 1st. *)
Definition civil_from_days (z : Z) : Z * Z * Z :=
  let z := z + 719468 in
  let era := z / 146097 in
  let doe := z mod 146097 in
  let yoe := (doe - doe / 1460 + doe / 36524 - doe / 146096) / 365 in
  let y := yoe + era * 400 in
  let doy := doe - (365 * yoe + yoe / 4 - yoe / 100) in
  let mp := (5 * doy + 2) / 153 in
  let d := doy - (153 * mp + 2) / 5 + 1 in
  let m := if mp <? 10 then mp + 3 else mp - 9 in
  (if m <=? 2 then y + 1 else y, m, d).

Definition days_from_civil (y m d : Z) : Z :=
  let y := if m <=? 2 then y - 1 else y in
  let era := y / 400 in
  let yoe := y mod 400 in
  let doy := (153 * (if 2 <? m then m - 3 else m + 9) + 2) / 5 + d - 1 in
  let doe := yoe * 365 + yoe / 4 - yoe / 100 + doy in
  era * 146097 + doe - 719468.

Definition YearFromTime (t : Z) : Z := fst (fst (civil_from_days (Day t))).
(** Months count from 0, as [getMonth] does. *)
Definition MonthFromTime (t : Z) : Z := snd (fst (civil_from_days (Day t))) - 1.
Definition DateFromTime (t : Z) : Z := snd (civil_from_days (Day t)).

Definition HourFromTime (t : Z) : Z := (TimeWithinDay t / 3600000) mod 24.
Definition MinFromTime (t : Z) : Z := (TimeWithinDay t / 60000) mod 60.
Definition SecFromTime (t : Z) : Z := (TimeWithinDay t / 1000) mod 60.
Definition msFromTime (t : Z) : Z := TimeWithinDay t mod 1000.

(** [MakeDay(year, month, date)]: months outside 0..11 carry into the
    year, and the day of the month is an offset from the first. *)
Definition MakeDay (year month dt : Z) : Z :=
  let ym := year + month / 12 in
  let mn := month mod 12 in
  days_from_civil ym (mn + 1) 1 + dt - 1.

Definition MakeDate (day time : Z) : Z := day * msPerDay + time.

(** The year argument of the [Date] constructor: a year between 0 and 99
    stands for 1900 + year. *)
Definition MakeFullYear (year : Z) : Z :=
  if (0 <=? year) && (year <=? 99) then 1900 + year else year.

Section Local.
(** The host's offset from UTC in milliseconds (local = UTC + offset):
    +32400000 in Japan.  It is one constant here, as on a host without
    daylight saving; where the offset changes during the year, what is
    said of the local fields of one [Date] still holds, and what compares
    the time values of two [Date]s need not. *)
Variable LocalTZA : Z.

Definition LocalTime (t : Z) : Z := t + LocalTZA.
Definition UTC (t : Z) : Z := t - LocalTZA.

(** [new Date(year, month, date)]: local midnight of that day. *)
Definition Date_ymd (year month dt : Z) : Z :=
  UTC (MakeDate (MakeDay (MakeFullYear year) month dt) 0).

Definition getFullYear (t : Z) : Z := YearFromTime (LocalTime t).
Definition getMonth (t : Z) : Z := MonthFromTime (LocalTime t).
Definition getDate (t : Z) : Z := DateFromTime (LocalTime t).
Definition getDay (t : Z) : Z := WeekDay (LocalTime t).
End Local.

(** Decimal digits, most significant first, padded with zeros. *)
Definition digitChar (d : Z) : ascii := ascii_of_nat (48 + Z.to_nat d).

Fixpoint pad (width : nat) (n : Z) : string :=
  match width with
  | O => EmptyString
  | S w => String.append (pad w (n / 10)) (String (digitChar (n mod 10)) EmptyString)
  end.

(** The year of [toISOString]: four digits from 0 to 9999, otherwise a
    sign and six digits. *)
Definition isoYear (y : Z) : string :=
  if (0 <=? y) && (y <=? 9999) then pad 4 y
  else if y <? 0 then String.append "-" (pad 6 (- y))
  else String.append "+" (pad 6 y).

(** [toISOString()]: the UTC fields as YYYY-MM-DDTHH:mm:ss.sssZ. *)
Definition toISOString (t : Z) : string :=
  String.concat EmptyString
    [ isoYear (YearFromTime t); "-"; pad 2 (MonthFromTime t + 1); "-";
      pad 2 (DateFromTime t); "T"; pad 2 (HourFromTime t); ":";
      pad 2 (MinFromTime t); ":"; pad 2 (SecFromTime t); ".";
      pad 3 (msFromTime t); "Z" ].

(** [s.split('T')[0]]: the text before the first T. *)
Fixpoint split_T_0 (s : string) : string :=
  match s with
  | EmptyString => EmptyString
  | String c rest =>
      if Ascii.eqb c "T"%char then EmptyString else String c (split_T_0 rest)
  end.

(** [date.toISOString().split('T')[0]], the key of a day. *)
Definition isoDate (t : Z) : string := split_T_0 (toISOString t).

End JSDate.

Import JSDate.

(** ** The calendar aggregation, the day filter and the grid *)

(** [new Date(t.date.seconds * 1000).toISOString().split('T')[0]] *)
Definition dateKeyOf (ts : Timestamp) : string := isoDate (seconds ts * 1000).

(** The guard [t.date && t.date.seconds] of [dailyData] followed by the
    computation of the key: the bucket a transaction is added to, if any.
    A timestamp whose [seconds] is 0 is falsy and is skipped. *)
Definition bucketKey (t : Transaction) : option string :=
  match date t with
  | Some ts => if seconds ts =? 0 then None else Some (dateKeyOf ts)
  | None => None
  end.

(** The body of the [forEach] in [dailyData]. *)
Definition dailyData_step (data : gmap string DailyAggregate) (t : Transaction)
  : gmap string DailyAggregate :=
  match bucketKey t with
  | Some dateKey =>
      let data :=
        match data !! dateKey with
        | None => <[dateKey := {| income := zero; expense := zero |}]> data
        | Some _ => data
        end in
      match data !! dateKey with
      | Some agg =>
          if gt (amount t) zero
          then <[dateKey := {| income := add (income agg) (amount t);
                               expense := expense agg |}]> data
          else <[dateKey := {| income := income agg;
                               expense := add (expense agg) (amount t) |}]> data
      | None => data
      end
  | None => data
  end.

Definition dailyData (transactions : list Transaction) : gmap string DailyAggregate :=
  fold_left dailyData_step transactions ∅.

(** The predicate of the [filter] in [TransactionDetailModal] (and in
    [handleDateClick]): [t.date && key(t) === dateKey]. *)
Definition onDateKey (dateKey : string) (t : Transaction) : bool :=
  match date t with
  | Some ts => String.eqb (dateKeyOf ts) dateKey
  | None => false
  end.

(** [b.date.seconds - a.date.seconds] reads the seconds of a dated
    transaction; the comparator only ever sees transactions that passed
    the filter. *)
Definition secondsOf (t : Transaction) : Z :=
  match date t with
  | Some ts => seconds ts
  | None => 0
  end.

(** [Array.prototype.sort] with the comparator
    [(a, b) => b.date.seconds - a.date.seconds]: a stable sort, later
    timestamps first.  Insertion from the right keeps equal elements in
    their original order, which is the result any stable sort gives. *)
Fixpoint insert_desc (a : Transaction) (l : list Transaction) : list Transaction :=
  match l with
  | [] => [a]
  | b :: l' =>
      if secondsOf a <? secondsOf b then b :: insert_desc a l' else a :: l
  end.

Definition sort_desc (l : list Transaction) : list Transaction :=
  fold_right insert_desc [] l.

(** The day filter on a key. *)
Definition filterByKey (dateKey : string) (transactions : list Transaction)
  : list Transaction :=
  sort_desc (List.filter (onDateKey dateKey) transactions).

(** [dailyTransactions] of [TransactionDetailModal], for the [Date] object
    [date] (a time value). *)
Definition dailyTransactions (date : Z) (transactions : list Transaction)
  : list Transaction :=
  let dateKey := isoDate date in
  filterByKey dateKey transactions.

(** A cell of the calendar grid: padding before the first day, a day with
    its key and its aggregate if there is one, padding after the last day. *)
Inductive Cell : Type :=
| EmptyStart (i : nat)
| DayCell (day : nat) (dateKey : string) (dataForDay : option DailyAggregate)
| EmptyEnd (i : nat).

Section CalendarView.
Variable LocalTZA : Z.
(** [currentDate.getFullYear()] and [currentDate.getMonth()]. *)
Variables year month : Z.
Variable transactions : list Transaction.

Definition startOfMonth : Z := Date_ymd LocalTZA year month 1.
Definition endOfMonth : Z := Date_ymd LocalTZA year (month + 1) 0.
Definition startDay : nat := Z.to_nat (getDay LocalTZA startOfMonth).
Definition daysInMonth : nat := Z.to_nat (getDate LocalTZA endOfMonth).

Definition dayCell (day : nat) : Cell :=
  let date := Date_ymd LocalTZA year month (Z.of_nat day) in
  let dateKey := isoDate date in
  DayCell day dateKey (dailyData transactions !! dateKey).

(** The three loops that fill [calendarDays]. *)
Definition calendarDays : list Cell :=
  let cells := map EmptyStart (seq 0 startDay) in
  let cells := cells ++ map dayCell (seq 1 daysInMonth) in
  let remainingCells := ((7 - (length cells mod 7)) mod 7)%nat in
  cells ++ map EmptyEnd (seq 0 remainingCells).
End CalendarView.

(** ** Vocabulary of the statements *)

(** The order the sort establishes: [a] stands before [b] when it is not
    older. *)
Definition laterFirst (a b : Transaction) : Prop := secondsOf b <= secondsOf a.


(** The distinct date keys of the dated transactions, in order of first
    appearance. *)
Definition datesPresent (transactions : list Transaction) : list string :=
  nodup String.string_dec
    (flat_map (fun t => match date t with
                        | Some ts => [dateKeyOf ts]
                        | None => []
                        end) transactions).

(** The transactions [dailyData] adds to the bucket [dateKey], in the order
    of the list. *)
Definition inBucket (dateKey : string) (t : Transaction) : bool :=
  match bucketKey t with
  | Some k => String.eqb k dateKey
  | None => false
  end.

(** The sign tests on an amount: [t.amount > 0], its negation (the [else]
    branch of [dailyData]), and [t.amount < 0]. *)
Definition isIncome (t : Transaction) : bool := gt (amount t) zero.
Definition isNotIncome (t : Transaction) : bool := negb (gt (amount t) zero).
Definition isExpense (t : Transaction) : bool := lt (amount t) zero.

(** The sum of a list of integers, and of their absolute values. *)
Definition sumZ (ns : list Z) : Z := fold_right Z.add 0 ns.
Definition sumAbs (ns : list Z) : Z := fold_right (fun n acc => Z.abs n + acc) 0 ns.

(** ** The scenario of the specification

    Three transactions: +50000 and -3000 on 2024-05-01 (09:00 and 11:00
    UTC) and +10000 on 2024-05-03 (10:00 UTC), in the order the
    specification lists them. *)
Definition scenario_T : list Transaction :=
  [ {| id := "t1"; description := "salary"; amount := ofZ 50000;
       date := Some {| seconds := 1714554000 |} |};
    {| id := "t2"; description := "lunch"; amount := ofZ (-3000);
       date := Some {| seconds := 1714561200 |} |};
    {| id := "t3"; description := "gift"; amount := ofZ 10000;
       date := Some {| seconds := 1714730400 |} |} ].

(** Midnight UTC of 2024-05-01, 2024-05-02 and 2024-05-03 as [Date]s. *)
Definition may01 : Z := 1714521600000.
Definition may02 : Z := 1714608000000.
Definition may03 : Z := 1714694400000.


(** The weekday, Sunday being 0, of the day that
    [new Date(year, month, 1)] denotes: for a year between 0 and 99 that
    is a day of the year 1900 + year. *)
Definition weekdayOfFirst (year month : Z) : Z :=
  (MakeDay (MakeFullYear year) month 1 + 4) mod 7.

(** The sum of the amounts of a list of transactions as the code forms it:
    added one by one, left to right, starting from [0]. *)
Definition sumAmounts (l : list Transaction) : number :=
  fold_left (fun acc t => add acc (amount t)) l zero.

(** What [dailyData] holds under a key, read off the list: nothing when no
    transaction goes to that bucket, otherwise the sum of the amounts that
    are [> 0] and the sum of the others. *)
Definition aggregateOf (dateKey : string) (transactions : list Transaction)
  : option DailyAggregate :=
  match List.filter (inBucket dateKey) transactions with
  | [] => None
  | l => Some {| income := sumAmounts (List.filter isIncome l);
                 expense := sumAmounts (List.filter isNotIncome l) |}
  end.

(** The local calendar date of a timestamp, the one [toLocaleDateString]
    shows in the transaction list, written as a date key. *)
Definition localDateKey (LocalTZA : Z) (ts : Timestamp) : string :=
  isoDate (LocalTime LocalTZA (seconds ts * 1000)).

(** Japan Standard Time, UTC+9. *)
Definition JST : Z := 9 * 3600000.

(** A purchase at 08:00 on 2024-05-01 in Japan (23:00 UTC the day before)
    and one at 10:00 the same morning (01:00 UTC). *)
Definition tx_0800_JST : Transaction :=
  {| id := "j1"; description := "breakfast"; amount := ofZ (-800);
     date := Some {| seconds := 1714518000 |} |}.
Definition tx_1000_JST : Transaction :=
  {| id := "j2"; description := "train"; amount := ofZ (-400);
     date := Some {| seconds := 1714525200 |} |}.

(** The mantissa and the exponent of the binary64 value of a positive
    integer below 2^53: the integer shifted left until it has 53 bits. *)
Definition mantissaOf (p : positive) : positive :=
  Z.to_pos (Zpos p * 2 ^ (53 - Zpos (digits2_pos p))).
Definition exponentOf (p : positive) : Z := Zpos (digits2_pos p) - 53.

(** The integer part of a number, towards zero; 0 for NaN and the
    infinities.  It is the number itself when the number is an integer. *)
Definition integerValue (x : number) : Z :=
  match x with
  | S754_finite s m e =>
      cond_Zopp s (if 0 <=? e then Zpos m * 2 ^ e else Zpos m / 2 ^ (- e))
  | _ => 0
  end.

(** An amount in whole yen: an integer of magnitude at most
    [MAX_SAFE_INTEGER], or the [-0] that an expense of 0 is stored as. *)
Definition isSafeInteger (x : number) : Prop :=
  (x = ofZ (integerValue x) \/ x = negzero)
  /\ Z.abs (integerValue x) <= MAX_SAFE_INTEGER.

Definition amountZ (t : Transaction) : Z := integerValue (amount t).

(** The amounts are whole yen and their magnitudes add up to a safe
    integer, so that no sum of some of them, in any order, leaves the
    range in which integers are represented exactly. *)
Definition safeAmounts (transactions : list Transaction) : Prop :=
  Forall (fun t => isSafeInteger (amount t)) transactions
  /\ sumAbs (map amountZ transactions) <= MAX_SAFE_INTEGER.

(** Three deposits on 2024-05-01: 9007199254740992 yen and twice 1 yen,
    listed in two orders. *)
Definition deposit (i : string) (n secs : Z) : Transaction :=
  {| id := i; description := "deposit"; amount := ofZ n;
     date := Some {| seconds := secs |} |}.

Definition drift_T : list Transaction :=
  [ deposit "a" (2 ^ 53) 1714554000; deposit "b" 1 1714557600;
    deposit "c" 1 1714561200 ].
Definition drift_T' : list Transaction :=
  [ deposit "b" 1 1714557600; deposit "c" 1 1714561200;
    deposit "a" (2 ^ 53) 1714554000 ].


(** [clamp(x, 0, 100)] as the code writes it:
    [Math.max(0, Math.min(100, x))]. *)
Definition clamp (x : number) : number :=
  Math_max zero (Math_min (ofZ 100) x).

(** A number that is not NaN and carries the sign [s]. *)
Definition hasSign (s : bool) (x : number) : Prop :=
  match x with
  | S754_zero s' | S754_infinity s' | S754_finite s' _ _ => s' = s
  | S754_nan => False
  end.

Definition isInfinite (x : number) : bool :=
  match x with S754_infinity _ => true | _ => false end.

(** [goal.targetAmount] when there is a goal. *)
Definition targetOf (goal : option Goal) : option number :=
  match goal with
  | Some g => targetAmount g
  | None => None
  end.

(** A goal of 100000 yen. *)
Definition goal_100000 : Goal :=
  {| name := "Okinawa"; targetAmount := Some (ofZ 100000) |}.

(** Three deposits of 0.1, 0.2 and 0.3 (the quotients 1/10, 2/10 and 3/10,
    which are the numbers those decimal literals denote), in two orders. *)
Definition decimal_T : list Transaction :=
  [ {| id := "d1"; description := "a"; amount := div (ofZ 1) (ofZ 10); date := None |};
    {| id := "d2"; description := "b"; amount := div (ofZ 2) (ofZ 10); date := None |};
    {| id := "d3"; description := "c"; amount := div (ofZ 3) (ofZ 10); date := None |} ].

(** The positive and the negative ones among a list of integers. *)
Definition positives (ns : list Z) : list Z := List.filter (fun n => 0 <? n) ns.
Definition negatives (ns : list Z) : list Z := List.filter (fun n => n <? 0) ns.

(** The Gregorian calendar: leap years and the length of a month (months
    count from 0). *)
Definition isLeapYear (y : Z) : bool :=
  ((y mod 4 =? 0) && negb (y mod 100 =? 0)) || (y mod 400 =? 0).

Definition monthLength (y m : Z) : Z :=
  match m with
  | 1 => if isLeapYear y then 29 else 28
  | 3 | 5 | 8 | 10 => 30
  | _ => 31
  end.

(** The day of the month of the day before the first of the next month,
    which is what [endOfMonth.getDate()] reads. *)
Definition lastDayOfMonth (y m : Z) : Z :=
  snd (civil_from_days (MakeDay y (m + 1) 0)).

(** The check of [lastDayOfMonth] against [monthLength] over the 400 years
    of one Gregorian cycle. *)
Definition monthLengthsAgree : bool :=
  forallb (fun y =>
    forallb (fun m => lastDayOfMonth (Z.of_nat y) (Z.of_nat m)
                      =? monthLength (Z.of_nat y) (Z.of_nat m))
            (seq 0 12))
    (seq 0 400).

(** The date part of [toISOString] for a year, a month (1..12) and a day. *)
Definition ymdString (ymd : Z * Z * Z) : string :=
  let '(y, m, d) := ymd in
  String.append (isoYear y)
    (String "-" (String.append (pad 2 m) (String "-" (pad 2 d)))).

(** The time values a [Date] can hold ([TimeClip]); outside this range a
    [Date] is invalid and [toISOString] throws a RangeError. *)
Definition maxTime : Z := 8640000000000000.
Definition validTime (t : Z) : Prop := - maxTime <= t <= maxTime.

(** The check of [civil_from_days] on one day number: it yields a date of
    the calendar (in the cycle that starts in 1970) and
    [days_from_civil] maps that date back to the day number. *)
Definition civilCheck (z : Z) : bool :=
  let '(y, m, d) := civil_from_days z in
  (days_from_civil y m d =? z)
  && (1 <=? m) && (m <=? 12) && (1 <=? d) && (d <=? 31)
  && (1970 <=? y) && (y <=? 2370).

(** The check over the first [n] day numbers from 0: the next day number
    and whether all of them passed.  One Gregorian cycle has 146097 days. *)
Definition civilIter (n : positive) : Z * bool :=
  Pos.iter (fun st => (fst st + 1, snd st && civilCheck (fst st))) (0, true) n.

(** No character of the string is a T. *)
Fixpoint noT (s : string) : bool :=
  match s with
  | EmptyString => true
  | String c rest => negb (Ascii.eqb c "T"%char) && noT rest
  end.

(** The UTC day number of a timestamp, and the timestamps a [Date] can
    represent. *)
Definition utcDay (ts : Timestamp) : Z := Day (seconds ts * 1000).
Definition validTimestamp (ts : Timestamp) : Prop := validTime (seconds ts * 1000).

(** ** Month navigation

    [prevMonth] and [nextMonth] of [CalendarView]:
    [new Date(currentDate.getFullYear(), currentDate.getMonth() -/+ 1, 1)]. *)
Definition prevMonth (LocalTZA currentDate : Z) : Z :=
  Date_ymd LocalTZA (getFullYear LocalTZA currentDate)
    (getMonth LocalTZA currentDate - 1) 1.

Definition nextMonth (LocalTZA currentDate : Z) : Z :=
  Date_ymd LocalTZA (getFullYear LocalTZA currentDate)
    (getMonth LocalTZA currentDate + 1) 1.

(** The check that [civil_from_days] gives back the date
    [days_from_civil] was given: for one date (when it is a date of the
    calendar), for the days of a month, and for the months of a year. *)
Definition roundTripDay (y m d : nat) : bool :=
  negb (Z.of_nat d <=? monthLength (Z.of_nat y) (Z.of_nat m - 1))
  || (let '(y', m', d') :=
        civil_from_days (days_from_civil (Z.of_nat y) (Z.of_nat m) (Z.of_nat d)) in
      (y' =? Z.of_nat y) && (m' =? Z.of_nat m) && (d' =? Z.of_nat d)).

Definition roundTripMonth (y m : nat) : bool :=
  forallb (roundTripDay y m) (seq 1 31).

Definition roundTripYear (y : nat) : bool :=
  forallb (roundTripMonth y) (seq 1 12).

(** 2024-05-15 10:00 in Japan, as a [Date]. *)
Definition mid_may_JST : Z := 1715734800000.

(** ** Reference notions of the specification *)

(** [clamp(x, lo, hi)] in the specification's sense: [x] limited to the
    interval from [lo] to [hi]. *)
Definition clampTo (lo hi x : number) : number :=
  if lt x lo then lo else if gt x hi then hi else x.


(** A transaction dated [d] in the specification's sense: its timestamp
    has the local calendar date [d], written YYYY-MM-DD. *)
Definition onLocalDate (LocalTZA : Z) (d : string) (t : Transaction) : bool :=
  match date t with
  | Some ts => String.eqb (localDateKey LocalTZA ts) d
  | None => false
  end.

(** Two more purchases in Japan: at 20:00 on 2024-05-01 (11:00 UTC) and at
    10:00 on 2024-05-02 (01:00 UTC). *)
Definition tx_2000_JST : Transaction :=
  {| id := "j4"; description := "dinner"; amount := ofZ (-1200);
     date := Some {| seconds := 1714561200 |} |}.
Definition tx_0502_JST : Transaction :=
  {| id := "j3"; description := "books"; amount := ofZ (-2500);
     date := Some {| seconds := 1714611600 |} |}.

(** The check that consecutive months start [monthLength] days apart, over
    the 400 years of one Gregorian cycle. *)
Definition monthStepMonth (y m : nat) : bool :=
  MakeDay (Z.of_nat y) (Z.of_nat m + 1) 1
  =? MakeDay (Z.of_nat y) (Z.of_nat m) 1 + monthLength (Z.of_nat y) (Z.of_nat m).
Definition monthStepYear (y : nat) : bool := forallb (monthStepMonth y) (seq 0 12).

(** The month before a month of the calendar, as (year, month). *)
Definition monthBefore (year month : Z) : Z * Z :=
  if month =? 0 then (year - 1, 11) else (year, month - 1).

(** ** The dashboard

    The state of [Dashboard] (its [useState] cells) and its handlers.  The
    transaction list is a prop: it is whatever the last snapshot
    delivered. *)
Inductive View : Type := ListView | CalendarTab.

Record Dashboard : Type := {
  showTransactionForm : bool;
  view : View;
  selectedDate : option Z;
  isDetailModalOpen : bool;
  isGoalEditorOpen : bool;
  transactionToEdit : option Transaction
}.

Definition Dashboard_initial : Dashboard :=
  {| showTransactionForm := false; view := ListView; selectedDate := None;
     isDetailModalOpen := false; isGoalEditorOpen := false;
     transactionToEdit := None |}.

Definition setShowTransactionForm (b : bool) (st : Dashboard) : Dashboard :=
  {| showTransactionForm := b; view := view st; selectedDate := selectedDate st;
     isDetailModalOpen := isDetailModalOpen st;
     isGoalEditorOpen := isGoalEditorOpen st;
     transactionToEdit := transactionToEdit st |}.

Definition setView (v : View) (st : Dashboard) : Dashboard :=
  {| showTransactionForm := showTransactionForm st; view := v;
     selectedDate := selectedDate st;
     isDetailModalOpen := isDetailModalOpen st;
     isGoalEditorOpen := isGoalEditorOpen st;
     transactionToEdit := transactionToEdit st |}.

Definition setSelectedDate (d : option Z) (st : Dashboard) : Dashboard :=
  {| showTransactionForm := showTransactionForm st; view := view st;
     selectedDate := d;
     isDetailModalOpen := isDetailModalOpen st;
     isGoalEditorOpen := isGoalEditorOpen st;
     transactionToEdit := transactionToEdit st |}.

Definition setIsDetailModalOpen (b : bool) (st : Dashboard) : Dashboard :=
  {| showTransactionForm := showTransactionForm st; view := view st;
     selectedDate := selectedDate st;
     isDetailModalOpen := b;
     isGoalEditorOpen := isGoalEditorOpen st;
     transactionToEdit := transactionToEdit st |}.

Definition setIsGoalEditorOpen (b : bool) (st : Dashboard) : Dashboard :=
  {| showTransactionForm := showTransactionForm st; view := view st;
     selectedDate := selectedDate st;
     isDetailModalOpen := isDetailModalOpen st;
     isGoalEditorOpen := b;
     transactionToEdit := transactionToEdit st |}.

Definition setTransactionToEdit (t : option Transaction) (st : Dashboard) : Dashboard :=
  {| showTransactionForm := showTransactionForm st; view := view st;
     selectedDate := selectedDate st;
     isDetailModalOpen := isDetailModalOpen st;
     isGoalEditorOpen := isGoalEditorOpen st;
     transactionToEdit := t |}.

(** [handleDateClick]: the modal opens only when the filter finds a
    transaction ([transactionsOnDate.length > 0]). *)
Definition handleDateClick (transactions : list Transaction) (date : Z)
    (st : Dashboard) : Dashboard :=
  let dateKey := isoDate date in
  let transactionsOnDate := List.filter (onDateKey dateKey) transactions in
  if (0 <? length transactionsOnDate)%nat
  then setIsDetailModalOpen true (setSelectedDate (Some date) st)
  else st.

(** [openTransactionEditor]. *)
Definition openTransactionEditor (transaction : Transaction) (st : Dashboard)
  : Dashboard :=
  setIsDetailModalOpen false (setTransactionToEdit (Some transaction) st).

(** What the user can do on the dashboard, by the handler that runs: the
    button that shows or hides the form, [handleAddAndClose], the edit
    button of the progress card and [onClose] of the goal editor (also
    called after a goal is saved), the view switcher, a click on a day of
    the calendar, [onClose] of the day's modal, the edit button of a
    transaction, and [onClose] of the transaction editor (also what
    [handleUpdateAndClose] does to the state). *)
Inductive DashboardEvent : Type :=
| ToggleTransactionForm
| AddAndClose
| OpenGoalEditor
| CloseGoalEditor
| SwitchView (v : View)
| ClickDate (date : Z)
| CloseDetail
| EditTransaction (t : Transaction)
| CloseEditor.

Definition Dashboard_step (transactions : list Transaction) (ev : DashboardEvent)
    (st : Dashboard) : Dashboard :=
  match ev with
  | ToggleTransactionForm => setShowTransactionForm (negb (showTransactionForm st)) st
  | AddAndClose => setShowTransactionForm false st
  | OpenGoalEditor => setIsGoalEditorOpen true st
  | CloseGoalEditor => setIsGoalEditorOpen false st
  | SwitchView v => setView v st
  | ClickDate date => handleDateClick transactions date st
  | CloseDetail => setIsDetailModalOpen false st
  | EditTransaction t => openTransactionEditor t st
  | CloseEditor => setTransactionToEdit None st
  end.

(** A session: each event with the transaction list at that moment. *)
Definition Dashboard_run (trace : list (list Transaction * DashboardEvent))
  : Dashboard :=
  fold_left (fun st te => Dashboard_step (fst te) (snd te) st) trace
    Dashboard_initial.

(** The two lines of a day cell: [dataForDay.income > 0] and
    [dataForDay.expense < 0]. *)
Definition showsIncome (dataForDay : DailyAggregate) : bool :=
  gt (income dataForDay) zero.
Definition showsExpense (dataForDay : DailyAggregate) : bool :=
  lt (expense dataForDay) zero.

(** ** Forms and handlers

    The values a form field holds: the string of an input element, the
    number a state was initialised with, or [undefined]. *)
Inductive FieldValue : Type :=
| Str (s : string)
| Num (x : number)
| Undefined.

(** [-x] and [Math.abs(x)]. *)
Definition neg (x : number) : number := SFopp x.
Definition Math_abs (x : number) : number := SFabs x.

(** [ToBoolean] on a string: only the empty string is falsy. *)
Definition nonEmpty (s : string) : bool :=
  match s with
  | EmptyString => false
  | String _ _ => true
  end.

(** The [type] of a transaction: the two buttons set ['income'] or
    ['expense']. *)
Inductive TransactionType : Type := IncomeType | ExpenseType.

(** The documents the handlers of [App] send to Firestore: [setDoc] and
    [updateDoc] on the goal, [addDoc], [updateDoc] and [deleteDoc] on a
    transaction.  The server adds [createdAt] and [date]. *)
Inductive FirestoreWrite : Type :=
| SetGoal (name : string) (targetAmount : number)
| UpdateGoal (name : string) (targetAmount : number)
| AddTransaction (type : TransactionType) (amount : number) (description : string)
| UpdateTransaction (id : string) (description : string) (amount : number)
    (type : TransactionType)
| DeleteTransaction (id : string).

(** [db] and [userId] of [App]; the handlers return at once on
    [!db || !userId]. *)
Record Connection : Type := {
  db : bool;
  userId : option string
}.

Definition connected (c : Connection) : bool :=
  db c && match userId c with Some u => nonEmpty u | None => false end.

(** The host's conversions of a string to a number and back, which the
    forms rely on: [ToNumber] on a string (in [targetAmount > 0] and
    [Number(targetAmount)]), [parseFloat] on a string, and [ToString] on a
    number ([parseFloat] converts its argument to a string first). *)
Record Host : Type := {
  StringToNumber : string -> number;
  parseFloat : string -> number;
  NumberToString : number -> string
}.

Section Handlers.
Context (host : Host) (c : Connection).

(** [ToBoolean], [ToNumber] and [parseFloat] on a field. *)
Definition truthy (v : FieldValue) : bool :=
  match v with
  | Str s => nonEmpty s
  | Num x => ToBoolean x
  | Undefined => false
  end.

Definition toNumber (v : FieldValue) : number :=
  match v with
  | Str s => StringToNumber host s
  | Num x => x
  | Undefined => NaN
  end.

Definition parseFloatOf (v : FieldValue) : number :=
  match v with
  | Str s => parseFloat host s
  | Num x => parseFloat host (NumberToString host x)
  | Undefined => NaN
  end.

(** The handlers of [App]; [None] when nothing is sent. *)
Definition handleSetGoal (name : string) (targetAmount : FieldValue)
  : option FirestoreWrite :=
  if negb (connected c) then None
  else Some (SetGoal name (toNumber targetAmount)).

Definition handleUpdateGoal (name : string) (targetAmount : FieldValue)
  : option FirestoreWrite :=
  if negb (connected c) then None
  else Some (UpdateGoal name (toNumber targetAmount)).

Definition handleAddTransaction (type : TransactionType) (amount : number)
    (description : string) : option FirestoreWrite :=
  if negb (connected c) then None
  else Some (AddTransaction type amount description).

Definition handleUpdateTransaction (id description : string) (amount : number)
    (type : TransactionType) : option FirestoreWrite :=
  if negb (connected c) then None
  else Some (UpdateTransaction id description amount type).

Definition handleDeleteTransaction (id : string) : option FirestoreWrite :=
  if negb (connected c) then None
  else Some (DeleteTransaction id).

(** [const finalAmount = type === 'income' ? parseFloat(amount) : -parseFloat(amount);] *)
Definition finalAmount (type : TransactionType) (amount : FieldValue) : number :=
  match type with
  | IncomeType => parseFloatOf amount
  | ExpenseType => neg (parseFloatOf amount)
  end.
End Handlers.

(** [GoalSetter]: its state and [handleSubmit], with [handleSetGoal] as
    [onSetGoal]. *)
Module GoalSetter.
Record State : Type := {
  name : string;
  targetAmount : string;
  isSubmitting : bool
}.

Definition initial : State :=
  {| name := EmptyString; targetAmount := EmptyString; isSubmitting := false |}.

Definition handleSubmit (host : Host) (c : Connection) (st : State)
  : State * option FirestoreWrite :=
  if nonEmpty (name st) && gt (StringToNumber host (targetAmount st)) zero
     && negb (isSubmitting st)
  then ({| name := name st; targetAmount := targetAmount st; isSubmitting := true |},
        handleSetGoal host c (name st) (Str (targetAmount st)))
  else (st, None).
End GoalSetter.

(** [GoalEditorModal]: the state starts from the goal; [handleSubmit] calls
    [handleUpdateGoal] and then [onClose].  The result is the write, if
    any, and whether the modal was closed. *)
Module GoalEditorModal.
Record State : Type := {
  name : string;
  targetAmount : FieldValue
}.

Definition initial (goal : Goal) : State :=
  let 'Build_Goal goalName goalTarget := goal in
  {| name := goalName;
     targetAmount := match goalTarget with
                     | Some x => Num x
                     | None => Undefined
                     end |}.

Definition handleSubmit (host : Host) (c : Connection) (st : State)
  : option FirestoreWrite * bool :=
  if nonEmpty (name st) && gt (toNumber host (targetAmount st)) zero
  then (handleUpdateGoal host c (name st) (targetAmount st), true)
  else (None, false).
End GoalEditorModal.

(** [TransactionForm]: [handleSubmit] hands the new transaction to
    [onAddTransaction] and clears the amount and the description. *)
Module TransactionForm.
Record State : Type := {
  type : TransactionType;
  amount : string;
  description : string
}.

Definition initial : State :=
  {| type := IncomeType; amount := EmptyString; description := EmptyString |}.

(** The object passed to [onAddTransaction]. *)
Record NewTransaction : Type := {
  newType : TransactionType;
  newAmount : number;
  newDescription : string
}.

Definition handleSubmit (host : Host) (st : State)
  : State * option NewTransaction :=
  if negb (nonEmpty (amount st)) || negb (nonEmpty (description st))
  then (st, None)
  else
    ({| type := type st; amount := EmptyString; description := EmptyString |},
     Some {| newType := type st;
             newAmount := finalAmount host (type st) (Str (amount st));
             newDescription := description st |}).
End TransactionForm.

(** [TransactionEditorModal]: the state starts from the transaction;
    [handleSubmit] hands the id and the new fields to
    [onUpdateTransaction] and calls [onClose]. *)
Module TransactionEditorModal.
Record State : Type := {
  type : TransactionType;
  amount : FieldValue;
  description : string
}.

Definition initial (transaction : Transaction) : State :=
  let 'Build_Transaction _ txDescription txAmount _ := transaction in
  {| type := if gt txAmount zero then IncomeType else ExpenseType;
     amount := Num (Math_abs txAmount);
     description := txDescription |}.

(** The arguments of [onUpdateTransaction]. *)
Record Update : Type := {
  updId : string;
  updDescription : string;
  updAmount : number;
  updType : TransactionType
}.

Definition handleSubmit (host : Host) (transaction : Transaction) (st : State)
  : option Update :=
  let 'Build_Transaction txId _ _ _ := transaction in
  if negb (truthy (amount st)) || negb (nonEmpty (description st)) then None
  else Some {| updId := txId;
               updDescription := description st;
               updAmount := finalAmount host (type st) (amount st);
               updType := type st |}.
End TransactionEditorModal.

(** [handleAddAndClose] and [handleUpdateAndClose] of [Dashboard]: the
    handler of [App] runs and the form or the editor is closed. *)
Definition handleAddAndClose (c : Connection)
    (transaction : TransactionForm.NewTransaction) (st : Dashboard)
  : Dashboard * option FirestoreWrite :=
  (setShowTransactionForm false st,
   handleAddTransaction c (TransactionForm.newType transaction)
     (TransactionForm.newAmount transaction)
     (TransactionForm.newDescription transaction)).

Definition handleUpdateAndClose (c : Connection)
    (upd : TransactionEditorModal.Update) (st : Dashboard)
  : Dashboard * option FirestoreWrite :=
  (setTransactionToEdit None st,
   handleUpdateTransaction c (TransactionEditorModal.updId upd)
     (TransactionEditorModal.updDescription upd)
     (TransactionEditorModal.updAmount upd)
     (TransactionEditorModal.updType upd)).

(** A sample host for whole numbers only: the value of a plain decimal
    numeral such as [800], which is what [Number] and [parseFloat] give on
    such a string, and the numeral of a whole number, which is what
    [ToString] gives on it.  On other strings (a fraction, an exponent) and
    on numbers that are not whole the real conversions differ; the sample
    is used at whole numbers alone, and no statement depends on it. *)
Definition numeralValue (s : string) : number :=
  match DecimalString.NilZero.int_of_string s with
  | Some n => ofZ (Z.of_int n)
  | None => NaN
  end.

Definition numeralOf (x : number) : string :=
  DecimalString.NilZero.string_of_int (Z.to_int (integerValue x)).

Definition numeralHost : Host :=
  {| StringToNumber := numeralValue; parseFloat := numeralValue;
     NumberToString := numeralOf |}.

(** The goal the listener delivers once a write to the goal document has
    been applied: [name] and [targetAmount] as written. *)
Definition goalWritten (w : FirestoreWrite) : option Goal :=
  match w with
  | SetGoal n x | UpdateGoal n x => Some {| name := n; targetAmount := Some x |}
  | _ => None
  end.

(** The transaction the listener delivers for a document written by
    [AddTransaction], given the id and the date the store gave it. *)
Definition transactionAdded (w : FirestoreWrite) (i : string)
    (d : option Timestamp) : option Transaction :=
  match w with
  | AddTransaction _ a s => Some {| id := i; description := s; amount := a; date := d |}
  | _ => None
  end.

(** ** Local time against the keys *)

(** [isToday] of a day cell: the key of the present moment against the key
    of the cell. *)
Definition isToday (now : Z) (dateKey : string) : bool :=
  String.eqb (isoDate now) dateKey.

(** The time of day, in local time, at which the UTC date changes: before
    it a local day lies in one UTC day and from it on in the next. *)
Definition utcDateChange (LocalTZA : Z) : Z :=
  if 0 <? LocalTZA then LocalTZA else msPerDay + LocalTZA.

(** 15:00 on 15 May 2024 in Japan. *)
Definition afternoon_JST : Z := 1715752800000.

(** ** The calendar against the balance *)

(** The net amount of a day as the calendar holds it, the sum of these
    over all days of [dailyData], and the test whether [dailyData] counts
    a transaction at all. *)
Definition dayTotal (a : DailyAggregate) : Z :=
  integerValue (income a) + integerValue (expense a).

Definition calendarTotal (data : gmap string DailyAggregate) : Z :=
  sumZ (map (fun ka => dayTotal (snd ka)) (map_to_list data)).

Definition bucketed (t : Transaction) : bool :=
  match bucketKey t with
  | Some _ => true
  | None => false
  end.

(** ** The percentage shown

    [Math.round(x)]: the integer nearest to [x], the larger one of two
    that are equally near; an integer, an infinity and NaN are returned as
    they are, and a value that rounds to zero keeps its sign. *)
Definition Math_round (x : number) : number :=
  match x with
  | S754_finite s m e =>
      if 0 <=? e then x
      else
        let n := (cond_Zopp s (Zpos m) + 2 ^ (- e - 1)) / 2 ^ (- e) in
        if n =? 0 then S754_zero s else ofZ n
  | _ => x
  end.

(** [{Math.round(progress)}%] of [ProgressCard]. *)
Definition percentShown (currentBalance : number) (goal : option Goal) : number :=
  Math_round (progress currentBalance goal).
(** * Properties *)

(** ** Checks of the embedding on known values *)

Example isoDate_2024_05_01 : isoDate (1714564800 * 1000) = "2024-05-01".
Proof. vm_compute. reflexivity. Qed.

Example toISOString_sample :
  toISOString 1714518000123 = "2024-04-30T23:00:00.123Z".
Proof. vm_compute. reflexivity. Qed.

Example toISOString_before_epoch :
  toISOString (-1) = "1969-12-31T23:59:59.999Z".
Proof. vm_compute. reflexivity. Qed.

Example weekday_2024_05_01 : WeekDay (MakeDate (MakeDay 2024 4 1) 0) = 3.
Proof. vm_compute. reflexivity. Qed.

Example leap_february_2024 : daysInMonth 0 2024 1 = 29%nat.
Proof. vm_compute. reflexivity. Qed.

Example december_rolls_over : daysInMonth 32400000 2023 11 = 31%nat.
Proof. vm_compute. reflexivity. Qed.

Example scenario_keys :
  map bucketKey scenario_T
  = [Some "2024-05-01"; Some "2024-05-01"; Some "2024-05-03"]
  /\ map isoDate [may01; may02; may03] = ["2024-05-01"; "2024-05-02"; "2024-05-03"].
Proof. vm_compute. split; reflexivity. Qed.

Example remainingShown_sample : remainingShown goal_100000 (ofZ 57000) = ofZ 43000.
Proof. vm_compute. reflexivity. Qed.

(** The same with decimal amounts: 0.1 + 0.2 + 0.3 is 0.6000000000000001
    and 0.3 + 0.2 + 0.1 is 0.6. *)
Example currentBalance_decimal_drift :
  currentBalance decimal_T = S754_finite false 5404319552844596 (-53)
  /\ currentBalance (rev decimal_T) = S754_finite false 5404319552844595 (-53)
  /\ div (ofZ 6) (ofZ 10) = S754_finite false 5404319552844595 (-53).
Proof. vm_compute. repeat split; reflexivity. Qed.

(** ** Lists *)

Lemma filter_nil_iff {A} (f : A -> bool) (l : list A) :
  List.filter f l = [] <-> forall x, In x l -> f x = false.
Proof.
  induction l as [|a l IH]; simpl.
  - split; [intros _ x [] | reflexivity].
  - destruct (f a) eqn:E.
    + split; [discriminate|]. intros H. specialize (H a (or_introl eq_refl)).
      congruence.
    + rewrite IH. split.
      * intros H x [<-|Hx]; [done | by apply H].
      * intros H x Hx. apply H. by right.
Qed.

Lemma filter_nonempty_iff {A} (f : A -> bool) (l : list A) :
  List.filter f l <> [] <-> exists x, In x l /\ f x = true.
Proof.
  split.
  - intros H. destruct (List.filter f l) as [|x l'] eqn:E; [done|].
    exists x. apply filter_In. rewrite E. by left.
  - intros (x & Hx & Hf) E. assert (In x (List.filter f l)) as Hin by by apply filter_In.
    by rewrite E in Hin.
Qed.

Lemma filter_perm {A} (f : A -> bool) l l' :
  Permutation l l' -> Permutation (List.filter f l) (List.filter f l').
Proof.
  induction 1 as [|x l l' _ IH|x y l|l l' l'' _ IH1 _ IH2]; simpl.
  - reflexivity.
  - destruct (f x); [by constructor | done].
  - destruct (f x), (f y); try reflexivity. apply perm_swap.
  - by rewrite IH1.
Qed.





Lemma lookup_map_seq {A} (f : nat -> A) (start len i : nat) :
  (i < len)%nat -> map f (seq start len) !! i = Some (f (start + i)%nat).
Proof.
  intros Hi. change (map f (seq start len)) with (f <$> seq start len).
  by rewrite list_lookup_fmap, lookup_seq_lt.
Qed.

(** ** The stable sort by descending timestamp *)

Lemma insert_desc_perm a l : Permutation (insert_desc a l) (a :: l).
Proof.
  induction l as [|b l IH]; simpl; [reflexivity|].
  destruct (secondsOf a <? secondsOf b); [|reflexivity].
  rewrite IH. apply perm_swap.
Qed.

Lemma sort_desc_perm l : Permutation (sort_desc l) l.
Proof.
  induction l as [|a l IH]; simpl; [reflexivity|].
  rewrite insert_desc_perm. by constructor.
Qed.

Lemma insert_desc_sorted a l :
  StronglySorted laterFirst l -> StronglySorted laterFirst (insert_desc a l).
Proof.
  induction l as [|b l IH]; simpl; intros Hs.
  - repeat constructor.
  - apply StronglySorted_inv in Hs as [Hl Hb].
    destruct (Z.ltb_spec (secondsOf a) (secondsOf b)) as [Hlt|Hge].
    + constructor; [by apply IH|].
      rewrite insert_desc_perm. constructor; [unfold laterFirst; lia | done].
    + constructor; [by constructor|].
      constructor; [done|].
      eapply Forall_impl; [exact Hb|].
      unfold laterFirst. intros c Hc. lia.
Qed.

Lemma sort_desc_sorted l : StronglySorted laterFirst (sort_desc l).
Proof.
  induction l as [|a l IH]; simpl; [constructor|]. by apply insert_desc_sorted.
Qed.

(** Transactions with the same timestamp keep the order they had. *)
Lemma insert_desc_stable k a l :
  List.filter (fun t => secondsOf t =? k) (insert_desc a l)
  = List.filter (fun t => secondsOf t =? k) (a :: l).
Proof.
  induction l as [|b l IH]; [reflexivity|].
  cbn [insert_desc].
  destruct (Z.ltb_spec (secondsOf a) (secondsOf b)) as [Hlt|Hge]; [|reflexivity].
  cbn [List.filter] in *. rewrite IH.
  destruct (Z.eqb_spec (secondsOf a) k), (Z.eqb_spec (secondsOf b) k);
    try reflexivity; lia.
Qed.

Lemma sort_desc_stable k l :
  List.filter (fun t => secondsOf t =? k) (sort_desc l)
  = List.filter (fun t => secondsOf t =? k) l.
Proof.
  induction l as [|a l IH]; [reflexivity|].
  cbn [sort_desc fold_right]. fold (sort_desc l).
  rewrite insert_desc_stable. cbn [List.filter]. by rewrite IH.
Qed.


(** ** The calendar

    The day numbers of the proleptic Gregorian calendar repeat every 400
    years (146097 days), so a property of [civil_from_days] that is checked
    on one cycle holds for every day. *)

Lemma Day_MakeDate (day : Z) : Day (MakeDate day 0) = day.
Proof. unfold Day, MakeDate, msPerDay. rewrite Z.add_0_r. by apply Z.div_mul. Qed.

Lemma LocalTime_UTC tz t : LocalTime tz (UTC tz t) = t.
Proof. unfold LocalTime, UTC. lia. Qed.

Lemma MakeFullYear_id y : ~ (0 <= y <= 99) -> MakeFullYear y = y.
Proof.
  intros H. unfold MakeFullYear.
  destruct (Z.leb_spec 0 y), (Z.leb_spec y 99); simpl; lia.
Qed.

Lemma getDay_Date_ymd tz year month dt :
  getDay tz (Date_ymd tz year month dt)
  = (MakeDay (MakeFullYear year) month dt + 4) mod 7.
Proof.
  unfold getDay, Date_ymd, WeekDay. by rewrite LocalTime_UTC, Day_MakeDate.
Qed.

Lemma getDate_Date_ymd tz year month dt :
  getDate tz (Date_ymd tz year month dt)
  = snd (civil_from_days (MakeDay (MakeFullYear year) month dt)).
Proof.
  unfold getDate, Date_ymd, DateFromTime. by rewrite LocalTime_UTC, Day_MakeDate.
Qed.

Lemma DateFromTime_bounds t : 1 <= DateFromTime t <= 31.
Proof.
  unfold DateFromTime, civil_from_days. cbn [snd]. cbv zeta.
  Z.to_euclidean_division_equations. lia.
Qed.

Lemma days_from_civil_cycle y m d k :
  days_from_civil (y + 400 * k) m d = days_from_civil y m d + 146097 * k.
Proof.
  unfold days_from_civil. cbv zeta.
  destruct (m <=? 2), (2 <? m);
    Z.to_euclidean_division_equations; lia.
Qed.

Lemma civil_from_days_cycle z k :
  civil_from_days (z + 146097 * k)
  = (fst (fst (civil_from_days z)) + 400 * k,
     snd (fst (civil_from_days z)), snd (civil_from_days z)).
Proof.
  unfold civil_from_days. cbv zeta. cbn [fst snd].
  replace ((z + 146097 * k + 719468) / 146097)
    with ((z + 719468) / 146097 + k)
    by (Z.to_euclidean_division_equations; lia).
  replace ((z + 146097 * k + 719468) mod 146097)
    with ((z + 719468) mod 146097)
    by (Z.to_euclidean_division_equations; lia).
  set (doe := (z + 719468) mod 146097).
  set (yoe := (doe - doe / 1460 + doe / 36524 - doe / 146096) / 365).
  set (mp := (5 * (doe - (365 * yoe + yoe / 4 - yoe / 100)) + 2) / 153).
  destruct (_ <=? 2); f_equal; f_equal; lia.
Qed.

Lemma civilIter_cycle : snd (civilIter 146097) = true.
Proof. vm_compute. reflexivity. Qed.

Lemma civilIter_spec n :
  fst (civilIter n) = Zpos n
  /\ (snd (civilIter n) = true -> forall z, 0 <= z < Zpos n -> civilCheck z = true).
Proof.
  unfold civilIter. induction n as [|n IH] using Pos.peano_ind.
  - simpl. split; [done|]. intros H z Hz. by replace z with 0 by lia.
  - rewrite Pos.iter_succ. destruct IH as [IH1 IH2].
    cbn [fst snd]. rewrite IH1. split; [lia|].
    intros [H1 H2]%andb_true_iff z Hz.
    destruct (Z.eq_dec z (Zpos n)) as [->|Hne]; [done|].
    apply IH2; [done | lia].
Qed.

Lemma civilCheck_cycle z : 0 <= z < 146097 -> civilCheck z = true.
Proof.
  intros Hz. pose proof (civilIter_spec 146097) as H.
  apply proj2 in H. apply (H civilIter_cycle). exact Hz.
Qed.

(** Every day number is the day number of the date [civil_from_days]
    gives it, and that date has a month from 1 to 12 and a day from 1 to
    31. *)
Lemma civil_from_days_spec z y m d :
  civil_from_days z = (y, m, d) ->
  days_from_civil y m d = z /\ 1 <= m <= 12 /\ 1 <= d <= 31
  /\ 1970 + 400 * (z / 146097) <= y <= 2370 + 400 * (z / 146097).
Proof.
  intros E.
  pose proof (Z.mod_pos_bound z 146097 ltac:(lia)) as Hr.
  pose proof (civilCheck_cycle _ Hr) as Hc. unfold civilCheck in Hc.
  assert (Hz : z = z mod 146097 + 146097 * (z / 146097))
    by (pose proof (Z.div_mod z 146097); lia).
  rewrite Hz, civil_from_days_cycle in E.
  destruct (civil_from_days (z mod 146097)) as [[y0 m0] d0]. cbn [fst snd] in E.
  injection E as <- <- <-.
  rewrite !andb_true_iff in Hc.
  destruct Hc as [[[[[[H1%Z.eqb_eq H2%Z.leb_le] H3%Z.leb_le] H4%Z.leb_le]
                     H5%Z.leb_le] H6%Z.leb_le] H7%Z.leb_le].
  rewrite days_from_civil_cycle, H1.
  repeat split; lia.
Qed.

Lemma civil_from_days_inj z z' :
  civil_from_days z = civil_from_days z' -> z = z'.
Proof.
  intros E.
  destruct (civil_from_days z) as [[y m] d] eqn:E1.
  symmetry in E.
  destruct (civil_from_days_spec z y m d E1) as [H _].
  destruct (civil_from_days_spec z' y m d E) as [H' _]. congruence.
Qed.

Lemma lastDayOfMonth_cycle y m k :
  lastDayOfMonth (y + 400 * k) m = lastDayOfMonth y m.
Proof.
  unfold lastDayOfMonth, MakeDay. cbv zeta.
  replace (y + 400 * k + (m + 1) / 12) with (y + (m + 1) / 12 + 400 * k) by lia.
  rewrite days_from_civil_cycle.
  replace (days_from_civil (y + (m + 1) / 12) ((m + 1) mod 12 + 1) 1
           + 146097 * k + 0 - 1)
    with (days_from_civil (y + (m + 1) / 12) ((m + 1) mod 12 + 1) 1 + 0 - 1
          + 146097 * k) by lia.
  by rewrite civil_from_days_cycle.
Qed.

Lemma monthLength_cycle y m k : monthLength (y + 400 * k) m = monthLength y m.
Proof.
  unfold monthLength, isLeapYear.
  replace ((y + 400 * k) mod 4) with (y mod 4)
    by (Z.to_euclidean_division_equations; lia).
  replace ((y + 400 * k) mod 100) with (y mod 100)
    by (Z.to_euclidean_division_equations; lia).
  replace ((y + 400 * k) mod 400) with (y mod 400)
    by (Z.to_euclidean_division_equations; lia).
  reflexivity.
Qed.

Lemma monthLength_bounds y m : 28 <= monthLength y m <= 31.
Proof.
  unfold monthLength.
  repeat match goal with
         | |- context [match ?x with _ => _ end] => destruct x
         end; lia.
Qed.

Lemma monthLengthsAgree_true : monthLengthsAgree = true.
Proof. vm_compute. reflexivity. Qed.

Lemma lastDayOfMonth_monthLength y m :
  0 <= m <= 11 -> lastDayOfMonth y m = monthLength y m.
Proof.
  intros Hm.
  rewrite (Z.div_mod y 400) by lia.
  rewrite (Z.mul_comm 400), Z.add_comm, (Z.mul_comm _ 400).
  rewrite lastDayOfMonth_cycle, monthLength_cycle.
  pose proof (Z.mod_pos_bound y 400 ltac:(lia)) as Hy.
  pose proof monthLengthsAgree_true as H. unfold monthLengthsAgree in H.
  rewrite forallb_forall in H.
  specialize (H (Z.to_nat (y mod 400))). rewrite forallb_forall in H.
  specialize (H ltac:(apply in_seq; lia) (Z.to_nat m) ltac:(apply in_seq; lia)).
  rewrite !Z2Nat.id in H by lia. by apply Z.eqb_eq.
Qed.

(** ** A date key names a UTC day *)

Lemma append_cons c a b :
  String.append (String c a) b = String c (String.append a b).
Proof. reflexivity. Qed.

Lemma append_empty b : String.append EmptyString b = b.
Proof. reflexivity. Qed.

Lemma string_cons_inj c c' s s' : String c s = String c' s' -> c = c' /\ s = s'.
Proof. by intros [= -> ->]. Qed.

Lemma append_nil_r s : String.append s EmptyString = s.
Proof. induction s as [|c s IH]; rewrite ?append_cons, ?append_empty; by rewrite ?IH. Qed.

Lemma append_length a b :
  String.length (String.append a b) = (String.length a + String.length b)%nat.
Proof. induction a as [|c a IH]; rewrite ?append_cons, ?append_empty; simpl; by rewrite ?IH. Qed.

Lemma append_inj a a' b b' :
  String.length a = String.length a' ->
  String.append a b = String.append a' b' -> a = a' /\ b = b'.
Proof.
  revert a'. induction a as [|c a IH]; intros [|c' a'] Hl E; try discriminate.
  - done.
  - rewrite !append_cons in E. injection E as -> E. injection Hl as Hl.
    destruct (IH a' Hl E) as [-> ->]. done.
Qed.

Lemma pad_length w n : String.length (pad w n) = w.
Proof.
  revert n. induction w as [|w IH]; intros n; simpl; [done|].
  rewrite append_length, IH. simpl. lia.
Qed.

Lemma digit_cases d :
  0 <= d <= 9 ->
  d = 0 \/ d = 1 \/ d = 2 \/ d = 3 \/ d = 4 \/ d = 5 \/ d = 6 \/ d = 7
  \/ d = 8 \/ d = 9.
Proof. lia. Qed.

Lemma digitChar_inj d d' :
  0 <= d <= 9 -> 0 <= d' <= 9 -> digitChar d = digitChar d' -> d = d'.
Proof.
  intros H H'. apply digit_cases in H, H'.
  destruct H as [->|[->|[->|[->|[->|[->|[->|[->|[->| ->]]]]]]]]],
           H' as [->|[->|[->|[->|[->|[->|[->|[->|[->| ->]]]]]]]]];
    try reflexivity; vm_compute; discriminate.
Qed.

Lemma digitChar_plain d :
  0 <= d <= 9 ->
  Ascii.eqb (digitChar d) "T" = false
  /\ digitChar d <> "-"%char /\ digitChar d <> "+"%char.
Proof.
  intros H. apply digit_cases in H.
  destruct H as [->|[->|[->|[->|[->|[->|[->|[->|[->| ->]]]]]]]]];
    vm_compute; repeat split; discriminate.
Qed.

Lemma pad_inj w n n' :
  0 <= n < 10 ^ Z.of_nat w -> 0 <= n' < 10 ^ Z.of_nat w ->
  pad w n = pad w n' -> n = n'.
Proof.
  revert n n'. induction w as [|w IH]; intros n n' Hn Hn' E.
  - simpl in *. lia.
  - rewrite Nat2Z.inj_succ, Z.pow_succ_r in Hn, Hn' by lia.
    simpl in E. apply append_inj in E as [E1 E2]; [|by rewrite !pad_length].
    injection E2 as E2.
    pose proof (Z.mod_pos_bound n 10 ltac:(lia)).
    pose proof (Z.mod_pos_bound n' 10 ltac:(lia)).
    apply digitChar_inj in E2; [|lia..].
    apply IH in E1; [|Z.to_euclidean_division_equations; lia..].
    Z.to_euclidean_division_equations. lia.
Qed.

Lemma noT_append a b : noT (String.append a b) = noT a && noT b.
Proof.
  induction a as [|c a IH]; rewrite ?append_cons, ?append_empty; simpl; [done|].
  by rewrite IH, andb_assoc.
Qed.

Lemma noT_pad w n : noT (pad w n) = true.
Proof.
  revert n. induction w as [|w IH]; intros n; simpl; [done|].
  rewrite noT_append, IH. cbn [noT andb].
  pose proof (Z.mod_pos_bound n 10 ltac:(lia)).
  destruct (digitChar_plain (n mod 10)) as [-> _]; [lia | done].
Qed.

Lemma noT_isoYear y : noT (isoYear y) = true.
Proof.
  unfold isoYear. destruct (_ && _); [apply noT_pad|].
  destruct (y <? 0); rewrite ?append_cons, ?append_empty; cbn [noT];
    (match goal with |- negb ?b && _ = _ => change b with false end);
    apply noT_pad.
Qed.

Lemma split_T_0_append a b :
  noT a = true -> split_T_0 (String.append a b) = String.append a (split_T_0 b).
Proof.
  induction a as [|c a IH]; rewrite ?append_cons, ?append_empty;
    cbn [noT split_T_0]; [done|].
  intros [Hc Ha]%andb_true_iff. apply negb_true_iff in Hc. rewrite Hc.
  by rewrite IH.
Qed.

(** The key of a time value is the date of its UTC day. *)
Lemma isoDate_ymd t : isoDate t = ymdString (civil_from_days (Day t)).
Proof.
  unfold isoDate, toISOString, YearFromTime, MonthFromTime, DateFromTime.
  destruct (civil_from_days (Day t)) as [[y m] d]. cbn [fst snd ymdString].
  replace (m - 1 + 1) with m by lia.
  cbn [String.concat]. rewrite ?append_cons, ?append_empty.
  rewrite split_T_0_append by apply noT_isoYear. cbn [split_T_0]. rewrite ?append_cons, ?append_empty.
  change (Ascii.eqb "-" "T") with false. cbv iota.
  rewrite split_T_0_append by apply noT_pad. cbn [split_T_0]. rewrite ?append_cons, ?append_empty.
  change (Ascii.eqb "-" "T") with false. cbv iota.
  rewrite split_T_0_append by apply noT_pad. cbn [split_T_0].
  change (Ascii.eqb "T" "T") with true. cbv iota.
  by rewrite append_nil_r.
Qed.

Lemma isoYear_length y :
  String.length (isoYear y) = if (0 <=? y) && (y <=? 9999) then 4%nat else 7%nat.
Proof.
  unfold isoYear. destruct (_ && _); [apply pad_length|].
  destruct (y <? 0); rewrite ?append_cons, ?append_empty; cbn [String.length];
    by rewrite pad_length.
Qed.

Lemma isoYear_inj y y' :
  -999999 <= y <= 999999 -> -999999 <= y' <= 999999 ->
  isoYear y = isoYear y' -> y = y'.
Proof.
  intros Hy Hy' E. pose proof (f_equal String.length E) as Hl.
  rewrite !isoYear_length in Hl. unfold isoYear in E.
  destruct ((0 <=? y) && (y <=? 9999)) eqn:F,
           ((0 <=? y') && (y' <=? 9999)) eqn:F'; try discriminate.
  - apply andb_true_iff in F as [?%Z.leb_le ?%Z.leb_le].
    apply andb_true_iff in F' as [?%Z.leb_le ?%Z.leb_le].
    apply pad_inj in E; [done|change (10 ^ Z.of_nat 4) with 10000; lia..].
  - destruct (Z.ltb_spec y 0), (Z.ltb_spec y' 0);
      rewrite !append_cons, !append_empty in E;
      apply string_cons_inj in E as [Ec E]; try discriminate;
      apply pad_inj in E; change (10 ^ Z.of_nat 6) with 1000000; lia.
Qed.

Lemma ymdString_inj y m d y' m' d' :
  -999999 <= y <= 999999 -> -999999 <= y' <= 999999 ->
  0 <= m < 100 -> 0 <= m' < 100 -> 0 <= d < 100 -> 0 <= d' < 100 ->
  ymdString (y, m, d) = ymdString (y', m', d') -> (y, m, d) = (y', m', d').
Proof.
  intros Hy Hy' Hm Hm' Hd Hd' E. unfold ymdString in E.
  pose proof (f_equal String.length E) as Hl.
  rewrite !append_length in Hl. cbn [String.length] in Hl.
  rewrite !append_length in Hl. cbn [String.length] in Hl.
  rewrite !pad_length in Hl.
  apply append_inj in E as [Ey E]; [|lia].
  apply string_cons_inj in E as [_ E].
  apply append_inj in E as [Em E]; [|by rewrite !pad_length].
  apply string_cons_inj in E as [_ Ed].
  apply isoYear_inj in Ey; [|done..].
  apply pad_inj in Em; [|change (10 ^ Z.of_nat 2) with 100; lia..].
  apply pad_inj in Ed; [|change (10 ^ Z.of_nat 2) with 100; lia..].
  congruence.
Qed.

(** Two time values a [Date] can hold have the same key exactly when they
    fall on the same UTC day. *)
Lemma isoDate_same_day t t' :
  validTime t -> validTime t' -> (isoDate t = isoDate t' <-> Day t = Day t').
Proof.
  intros Ht Ht'. rewrite !isoDate_ymd. split; [|by intros ->].
  intros E. apply civil_from_days_inj.
  destruct (civil_from_days (Day t)) as [[y m] d] eqn:E1.
  destruct (civil_from_days (Day t')) as [[y' m'] d'] eqn:E2.
  apply civil_from_days_spec in E1 as (_ & Hm & Hd & Hy).
  apply civil_from_days_spec in E2 as (_ & Hm' & Hd' & Hy').
  unfold validTime, maxTime, Day, msPerDay in *.
  apply ymdString_inj; [| |lia..|done];
    Z.to_euclidean_division_equations; lia.
Qed.

Lemma dateKeyOf_same_day ts ts' :
  validTimestamp ts -> validTimestamp ts' ->
  (dateKeyOf ts = dateKeyOf ts' <-> utcDay ts = utcDay ts').
Proof. apply isoDate_same_day. Qed.

Lemma utcDay_seconds ts : utcDay ts = seconds ts / 86400.
Proof.
  unfold utcDay, Day, msPerDay. change 86400000 with (86400 * 1000).
  by rewrite Z.div_mul_cancel_r.
Qed.

(** Where local time is UTC the local date is the key. *)
Lemma localDateKey_utc ts : localDateKey 0 ts = dateKeyOf ts.
Proof. unfold localDateKey, dateKeyOf, LocalTime. by rewrite Z.add_0_r. Qed.

(** ** Binary64: rounding

    Rounding a value that is representable returns it; rounding never
    yields NaN and keeps the sign. *)

Lemma digits2_size m : digits2_pos m = Pos.size m.
Proof. induction m; simpl; congruence. Qed.

Lemma digits2_bounds m :
  2 ^ (Zpos (digits2_pos m) - 1) <= Zpos m < 2 ^ Zpos (digits2_pos m).
Proof.
  rewrite digits2_size. split.
  - pose proof (Pos.size_le m) as H.
    apply Pos2Z.pos_le_pos in H. rewrite Pos2Z.inj_pow in H.
    replace (Zpos (Pos.size m)) with (Z.succ (Zpos (Pos.size m) - 1)) in H by lia.
    rewrite Z.pow_succ_r in H by lia. lia.
  - pose proof (Pos.size_gt m) as H.
    apply Pos2Z.pos_lt_pos in H. by rewrite Pos2Z.inj_pow in H.
Qed.

Lemma iter_pos_iter {A} (f : A -> A) n x : SpecFloat.iter_pos f n x = Pos.iter f x n.
Proof.
  revert x. induction n as [n IH|n IH|]; intros x; simpl; [|by rewrite !IH|done].
  by rewrite !IH, !Pos.iter_swap.
Qed.

Lemma shift_pos_Z m d : Zpos (Pos.iter xO m d) = Zpos m * 2 ^ Zpos d.
Proof.
  induction d as [|d IH] using Pos.peano_ind; [simpl; lia|].
  rewrite Pos.iter_succ, Pos2Z.inj_succ, Z.pow_succ_r by lia.
  rewrite Pos2Z.inj_xO, IH. lia.
Qed.

Lemma shift_pos_digits m d :
  digits2_pos (Pos.iter xO m d) = (digits2_pos m + d)%positive.
Proof.
  induction d as [|d IH] using Pos.peano_ind; [simpl; lia|].
  rewrite Pos.iter_succ. simpl. rewrite IH. lia.
Qed.

(** Shifting right what was shifted left loses nothing. *)
Lemma shr_shift_pos m d :
  SpecFloat.iter_pos shr_1 d
    {| shr_m := Zpos (Pos.iter xO m d); shr_r := false; shr_s := false |}
  = {| shr_m := Zpos m; shr_r := false; shr_s := false |}.
Proof.
  rewrite iter_pos_iter.
  induction d as [|d IH] using Pos.peano_ind; [reflexivity|].
  rewrite Pos.iter_succ_r, Pos.iter_succ. simpl. exact IH.
Qed.

Lemma binary_round_aux_canonical s m e :
  canonical_mantissa prec emax m e = true -> e <= emax - prec ->
  binary_round_aux prec emax s (Zpos m) e loc_Exact = S754_finite s m e.
Proof.
  unfold canonical_mantissa. intros Hc%Z.eqb_eq He.
  unfold binary_round_aux, shr_fexp. cbn [Zdigits2 shr_record_of_loc].
  rewrite Hc, Z.sub_diag. cbn [shr shr_m loc_of_shr_record round_nearest_even Zdigits2].
  rewrite Hc, Z.sub_diag. cbn [shr shr_m].
  by apply Z.leb_le in He as ->.
Qed.

(** Rounding a value that has a canonical representation returns that
    representation. *)
Lemma binary_round_exact s m e m' e' :
  canonical_mantissa prec emax m' e' = true -> e' <= emax - prec ->
  (e' <= e /\ Zpos m' = Zpos m * 2 ^ (e - e')) \/
  (e < e' /\ Zpos m = Zpos m' * 2 ^ (e' - e)) ->
  binary_round prec emax s m e = S754_finite s m' e'.
Proof.
  intros Hc He Hrel.
  assert (Hc' := Hc). unfold canonical_mantissa in Hc'. apply Z.eqb_eq in Hc'.
  unfold binary_round.
  destruct Hrel as [[Hle Hm]|[Hlt Hm]].
  - destruct (Z.eq_dec e e') as [->|Hne].
    + rewrite Z.sub_diag, Z.mul_1_r in Hm. injection Hm as ->.
      rewrite Hc'. unfold shl_align. rewrite Z.sub_diag.
      by apply binary_round_aux_canonical.
    + destruct (e - e') as [|d|d] eqn:Ed; try lia.
      rewrite <- shift_pos_Z in Hm. injection Hm as ->.
      rewrite shift_pos_digits in Hc'.
      replace (Zpos (digits2_pos m) + e) with (Zpos (digits2_pos m + d) + e') by lia.
      rewrite Hc'. unfold shl_align.
      replace (e' - e) with (Zneg d) by lia.
      by apply binary_round_aux_canonical.
  - destruct (e' - e) as [|d|d] eqn:Ed; try lia.
    rewrite <- shift_pos_Z in Hm. injection Hm as ->.
    rewrite shift_pos_digits.
    replace (Zpos (digits2_pos m' + d) + e) with (Zpos (digits2_pos m') + e') by lia.
    rewrite Hc'. unfold shl_align. rewrite Ed.
    unfold binary_round_aux, shr_fexp. cbn [Zdigits2 shr_record_of_loc].
    rewrite shift_pos_digits.
    replace (Zpos (digits2_pos m' + d) + e) with (Zpos (digits2_pos m') + e') by lia.
    rewrite Hc', Ed. cbn [shr]. rewrite shr_shift_pos.
    cbn [shr_m loc_of_shr_record round_nearest_even Zdigits2].
    replace (e + Zpos d) with e' by lia.
    rewrite Hc', Z.sub_diag. cbn [shr shr_m].
    by apply Z.leb_le in He as ->.
Qed.

Lemma shr_1_nonneg mrs : 0 <= shr_m mrs -> 0 <= shr_m (shr_1 mrs).
Proof. destruct mrs as [[|[p|p|]|[p|p|]] r s]; simpl; lia. Qed.

Lemma shr_nonneg mrs e n : 0 <= shr_m mrs -> 0 <= shr_m (fst (shr mrs e n)).
Proof.
  intros H. destruct n as [|p|p]; simpl; try done.
  rewrite iter_pos_iter. apply Pos.iter_invariant; [apply shr_1_nonneg | done].
Qed.

Lemma shr_fexp_nonneg m e l : 0 <= m -> 0 <= shr_m (fst (shr_fexp prec emax m e l)).
Proof.
  intros H. unfold shr_fexp. apply shr_nonneg.
  by destruct l as [|[]].
Qed.

Lemma round_nearest_even_nonneg m l : 0 <= m -> 0 <= round_nearest_even m l.
Proof. intros H. destruct l as [|[]]; simpl; try lia. destruct (Z.even m); lia. Qed.

Lemma shr_1_half mrs : 0 <= shr_m mrs -> shr_m (shr_1 mrs) = shr_m mrs / 2.
Proof.
  destruct mrs as [[|[p|p|]|[p|p|]] r s]; cbn [shr_1 shr_m]; intros H;
    try lia; try reflexivity;
    rewrite ?Pos2Z.inj_xI, ?Pos2Z.inj_xO; Z.to_euclidean_division_equations; lia.
Qed.

Lemma shr_iter_div mrs p :
  0 <= shr_m mrs ->
  shr_m (SpecFloat.iter_pos shr_1 p mrs) = shr_m mrs / 2 ^ Zpos p.
Proof.
  intros H. rewrite iter_pos_iter.
  induction p as [|p IH] using Pos.peano_ind.
  - simpl Pos.iter. by rewrite shr_1_half.
  - rewrite Pos.iter_succ, shr_1_half, IH.
    + rewrite Z.div_div by lia.
      by rewrite Pos2Z.inj_succ, Z.pow_succ_r, Z.mul_comm by lia.
    + rewrite IH. apply Z.div_pos; lia.
Qed.

Lemma Zdigits2_bound m : 0 <= m -> m < 2 ^ Zdigits2 m.
Proof.
  destruct m as [|p|p]; [done| |lia]. intros _. apply digits2_bounds.
Qed.

Lemma binary_round_aux_sign s m e l :
  0 <= m -> hasSign s (binary_round_aux prec emax s m e l).
Proof.
  intros Hm. unfold binary_round_aux.
  pose proof (shr_fexp_nonneg m e l Hm) as H1.
  destruct (shr_fexp prec emax m e l) as [mrs' e'] eqn:E1. cbn [fst] in H1.
  pose proof (shr_fexp_nonneg
                (round_nearest_even (shr_m mrs') (loc_of_shr_record mrs')) e'
                loc_Exact (round_nearest_even_nonneg _ _ H1)) as H2.
  destruct (shr_fexp prec emax _ e' loc_Exact) as [mrs'' e''] eqn:E2.
  cbn [fst] in H2.
  destruct (shr_m mrs'') as [|p|p]; simpl; [done| |lia].
  by destruct (e'' <=? emax - prec).
Qed.

Lemma binary_round_sign s m e : hasSign s (binary_round prec emax s m e).
Proof.
  unfold binary_round.
  destruct (shl_align m e _) as [mz ez]. by apply binary_round_aux_sign.
Qed.

Lemma binary_normalize_sign m e :
  match m with
  | Z0 => binary_normalize prec emax m e false = zero
  | Zpos _ => hasSign false (binary_normalize prec emax m e false)
  | Zneg _ => hasSign true (binary_normalize prec emax m e false)
  end.
Proof. destruct m; simpl; [done|apply binary_round_sign..]. Qed.

Lemma hasSign_not_NaN s x : hasSign s x -> isNaN x = false.
Proof. by destruct x. Qed.

(** ** Binary64: safe integers

    An integer of magnitude at most [MAX_SAFE_INTEGER] is a binary64 value,
    and so is the sum of two of them when it stays in that range: the
    addition does not round. *)

Lemma safe_digits p : Zpos p <= MAX_SAFE_INTEGER <-> Zpos (digits2_pos p) <= 53.
Proof.
  unfold MAX_SAFE_INTEGER. pose proof (digits2_bounds p) as [Hlo Hhi]. split.
  - intros Hp. destruct (Z_le_gt_dec (Zpos (digits2_pos p)) 53) as [|Hd]; [done|].
    assert (2 ^ 53 <= 2 ^ (Zpos (digits2_pos p) - 1)) by (apply Z.pow_le_mono_r; lia).
    lia.
  - intros Hd.
    assert (2 ^ Zpos (digits2_pos p) <= 2 ^ 53) by (apply Z.pow_le_mono_r; lia).
    lia.
Qed.

Lemma mantissaOf_Z p :
  Zpos (digits2_pos p) <= 53 ->
  Zpos (mantissaOf p) = Zpos p * 2 ^ (53 - Zpos (digits2_pos p)).
Proof.
  intros Hd. unfold mantissaOf. apply Z2Pos.id.
  apply Z.mul_pos_pos; [lia|]. apply Z.pow_pos_nonneg; lia.
Qed.

Lemma mantissaOf_canonical p :
  Zpos (digits2_pos p) <= 53 ->
  canonical_mantissa prec emax (mantissaOf p) (exponentOf p) = true.
Proof.
  intros Hd. unfold canonical_mantissa, exponentOf. apply Z.eqb_eq.
  assert (Hdig : Zpos (digits2_pos (mantissaOf p)) = 53).
  { destruct (53 - Zpos (digits2_pos p)) as [|d|d] eqn:E; try lia.
    - assert (mantissaOf p = p) as ->; [|lia].
      apply Pos2Z.inj. rewrite mantissaOf_Z, E by done. lia.
    - assert (mantissaOf p = Pos.iter xO p d) as ->.
      { apply Pos2Z.inj. by rewrite mantissaOf_Z, E, shift_pos_Z. }
      rewrite shift_pos_digits. lia. }
  rewrite Hdig. unfold fexp, SpecFloat.emin, prec, emax. lia.
Qed.

(** An integer below 2^53 in magnitude, scaled by a power of two that the
    exponent takes back, rounds to the integer's own representation. *)
Lemma binary_round_int s p k :
  Zpos (digits2_pos p) <= 53 -> 0 <= k ->
  binary_round prec emax s (Z.to_pos (Zpos p * 2 ^ k)) (- k)
  = S754_finite s (mantissaOf p) (exponentOf p).
Proof.
  intros Hd Hk.
  assert (Hpos : 0 < Zpos p * 2 ^ k)
    by (apply Z.mul_pos_pos; [lia | by apply Z.pow_pos_nonneg]).
  apply binary_round_exact.
  - by apply mantissaOf_canonical.
  - unfold exponentOf, emax, prec. lia.
  - rewrite Z2Pos.id, mantissaOf_Z by done. unfold exponentOf.
    destruct (Z_le_gt_dec (Zpos (digits2_pos p) - 53) (- k)) as [Hle|Hgt].
    + left. split; [done|]. rewrite <- Z.mul_assoc, <- Z.pow_add_r by lia.
      do 2 f_equal. lia.
    + right. split; [lia|]. rewrite <- Z.mul_assoc, <- Z.pow_add_r by lia.
      do 2 f_equal. lia.
Qed.

Lemma ofZ_pos p :
  Zpos p <= MAX_SAFE_INTEGER ->
  ofZ (Zpos p) = S754_finite false (mantissaOf p) (exponentOf p).
Proof.
  intros Hp%safe_digits. unfold ofZ, binary_normalize.
  rewrite <- (binary_round_int false p 0) by (done || lia).
  simpl (2 ^ 0). by rewrite Z.mul_1_r.
Qed.

Lemma ofZ_neg p :
  Zpos p <= MAX_SAFE_INTEGER ->
  ofZ (Zneg p) = S754_finite true (mantissaOf p) (exponentOf p).
Proof.
  intros Hp%safe_digits. unfold ofZ, binary_normalize.
  rewrite <- (binary_round_int true p 0) by (done || lia).
  simpl (2 ^ 0). by rewrite Z.mul_1_r.
Qed.

Lemma binary_normalize_int n k :
  Z.abs n <= MAX_SAFE_INTEGER -> 0 <= k ->
  binary_normalize prec emax (n * 2 ^ k) (- k) false = ofZ n.
Proof.
  intros Hn Hk.
  assert (H2 : 0 < 2 ^ k) by (by apply Z.pow_pos_nonneg).
  destruct n as [|p|p].
  - reflexivity.
  - rewrite ofZ_pos by lia.
    rewrite <- (binary_round_int false p k) by (first [apply safe_digits; lia | lia]).
    assert (Zpos p * 2 ^ k = Zpos (Z.to_pos (Zpos p * 2 ^ k))) as ->;
      [rewrite Z2Pos.id; lia | reflexivity].
  - rewrite ofZ_neg by lia.
    rewrite <- (binary_round_int true p k) by (first [apply safe_digits; lia | lia]).
    assert (Zneg p * 2 ^ k = Zneg (Z.to_pos (Zpos p * 2 ^ k))) as ->;
      [|reflexivity].
    transitivity (- Zpos (Z.to_pos (Zpos p * 2 ^ k))); [|reflexivity].
    rewrite Z2Pos.id; lia.
Qed.

Lemma shl_align_fst m e e' :
  e' <= e -> Zpos (fst (shl_align m e e')) = Zpos m * 2 ^ (e - e').
Proof.
  intros Hle. unfold shl_align.
  destruct (e' - e) as [|d|d] eqn:E; try lia; cbn [fst].
  - replace (e - e') with 0 by lia. lia.
  - rewrite shift_pos_Z. do 2 f_equal. lia.
Qed.

Lemma aligned_int s p ez :
  Zpos (digits2_pos p) <= 53 -> ez <= exponentOf p ->
  cond_Zopp s (Zpos (fst (shl_align (mantissaOf p) (exponentOf p) ez)))
  = cond_Zopp s (Zpos p) * 2 ^ (- ez).
Proof.
  intros Hd Hez. rewrite shl_align_fst, mantissaOf_Z by done.
  unfold exponentOf in *.
  rewrite <- Z.mul_assoc, <- Z.pow_add_r by lia.
  replace (53 - Zpos (digits2_pos p) + (Zpos (digits2_pos p) - 53 - ez))
    with (- ez) by lia.
  destruct s; simpl; lia.
Qed.

Lemma add_finite_ints sa pa sb pb :
  Zpos pa <= MAX_SAFE_INTEGER -> Zpos pb <= MAX_SAFE_INTEGER ->
  Z.abs (cond_Zopp sa (Zpos pa) + cond_Zopp sb (Zpos pb)) <= MAX_SAFE_INTEGER ->
  add (S754_finite sa (mantissaOf pa) (exponentOf pa))
      (S754_finite sb (mantissaOf pb) (exponentOf pb))
  = ofZ (cond_Zopp sa (Zpos pa) + cond_Zopp sb (Zpos pb)).
Proof.
  intros Ha%safe_digits Hb%safe_digits Hab.
  unfold add, SFadd.
  set (ez := Z.min (exponentOf pa) (exponentOf pb)).
  rewrite !aligned_int by (done || (unfold ez; lia)).
  rewrite <- Z.mul_add_distr_r.
  replace ez with (- (- ez)) at 2 by lia.
  apply binary_normalize_int; [done|].
  unfold ez, exponentOf. lia.
Qed.

(** Adding two safe integers whose sum is safe gives that sum. *)
Lemma add_ofZ a b :
  Z.abs a <= MAX_SAFE_INTEGER -> Z.abs b <= MAX_SAFE_INTEGER ->
  Z.abs (a + b) <= MAX_SAFE_INTEGER ->
  add (ofZ a) (ofZ b) = ofZ (a + b).
Proof.
  intros Ha Hb Hab.
  destruct a as [|pa|pa].
  - rewrite Z.add_0_l. destruct b; rewrite ?ofZ_pos, ?ofZ_neg by lia; reflexivity.
  - destruct b as [|pb|pb].
    + rewrite Z.add_0_r, ofZ_pos by lia. reflexivity.
    + rewrite (ofZ_pos pa), (ofZ_pos pb) by lia.
      by rewrite (add_finite_ints false pa false pb) by (simpl; lia).
    + rewrite (ofZ_pos pa), (ofZ_neg pb) by lia.
      by rewrite (add_finite_ints false pa true pb) by (simpl; lia).
  - destruct b as [|pb|pb].
    + rewrite Z.add_0_r, ofZ_neg by lia. reflexivity.
    + rewrite (ofZ_neg pa), (ofZ_pos pb) by lia.
      by rewrite (add_finite_ints true pa false pb) by (simpl; lia).
    + rewrite (ofZ_neg pa), (ofZ_neg pb) by lia.
      by rewrite (add_finite_ints true pa true pb) by (simpl; lia).
Qed.

Lemma integerValue_ofZ n : Z.abs n <= MAX_SAFE_INTEGER -> integerValue (ofZ n) = n.
Proof.
  intros Hn. destruct n as [|p|p]; [reflexivity| |].
  - rewrite ofZ_pos by lia. assert (Hd : Zpos (digits2_pos p) <= 53) by (apply safe_digits; lia).
    unfold integerValue. rewrite mantissaOf_Z by done. unfold exponentOf, cond_Zopp.
    destruct (Z.leb_spec 0 (Zpos (digits2_pos p) - 53)).
    + replace (Zpos (digits2_pos p) - 53) with 0 by lia.
      replace (53 - Zpos (digits2_pos p)) with 0 by lia. lia.
    + replace (- (Zpos (digits2_pos p) - 53)) with (53 - Zpos (digits2_pos p)) by lia.
      apply Z.div_mul. apply Z.pow_nonzero; lia.
  - rewrite ofZ_neg by lia. assert (Hd : Zpos (digits2_pos p) <= 53) by (apply safe_digits; lia).
    unfold integerValue. rewrite mantissaOf_Z by done. unfold exponentOf, cond_Zopp.
    destruct (Z.leb_spec 0 (Zpos (digits2_pos p) - 53)).
    + replace (Zpos (digits2_pos p) - 53) with 0 by lia.
      replace (53 - Zpos (digits2_pos p)) with 0 by lia. lia.
    + replace (- (Zpos (digits2_pos p) - 53)) with (53 - Zpos (digits2_pos p)) by lia.
      rewrite Z.div_mul; [lia|]. apply Z.pow_nonzero; lia.
Qed.

(** Distinct safe integers are distinct numbers. *)
Lemma ofZ_inj a b :
  Z.abs a <= MAX_SAFE_INTEGER -> Z.abs b <= MAX_SAFE_INTEGER ->
  ofZ a = ofZ b -> a = b.
Proof.
  intros Ha Hb E. apply (f_equal integerValue) in E.
  by rewrite !integerValue_ofZ in E.
Qed.

Lemma add_safe acc x :
  Z.abs acc <= MAX_SAFE_INTEGER -> isSafeInteger x ->
  Z.abs (acc + integerValue x) <= MAX_SAFE_INTEGER ->
  add (ofZ acc) x = ofZ (acc + integerValue x).
Proof.
  intros Hacc [[Hx| ->] Hb] Hsum.
  - rewrite Hx at 1. by apply add_ofZ.
  - simpl integerValue. rewrite Z.add_0_r.
    destruct acc as [|p|p]; [reflexivity| |].
    + by rewrite ofZ_pos by lia.
    + by rewrite ofZ_neg by lia.
Qed.

Lemma gt_zero_safe x : isSafeInteger x -> gt x zero = (0 <? integerValue x).
Proof.
  intros [[Hx| ->] Hb]; [|reflexivity].
  destruct (integerValue x) as [|p|p] eqn:E.
  - by rewrite Hx.
  - rewrite Hx, ofZ_pos by lia. reflexivity.
  - rewrite Hx, ofZ_neg by lia. reflexivity.
Qed.

Lemma gt_ofZ_zero n : Z.abs n <= MAX_SAFE_INTEGER -> gt (ofZ n) zero = (0 <? n).
Proof.
  intros Hn. destruct n as [|p|p]; [reflexivity| |].
  - by rewrite ofZ_pos by lia.
  - by rewrite ofZ_neg by lia.
Qed.

Lemma lt_ofZ_zero n : Z.abs n <= MAX_SAFE_INTEGER -> lt (ofZ n) zero = (n <? 0).
Proof.
  intros Hn. destruct n as [|p|p]; [reflexivity| |].
  - by rewrite ofZ_pos by lia.
  - by rewrite ofZ_neg by lia.
Qed.

Lemma lt_zero_safe x : isSafeInteger x -> lt x zero = (integerValue x <? 0).
Proof.
  intros [[Hx| ->] Hb]; [|reflexivity].
  rewrite Hx at 1. by apply lt_ofZ_zero.
Qed.

(** ** Binary64: NaN, order and clamping *)

Lemma add_not_NaN x y :
  isNaN x = false -> isFinite y = true -> isNaN (add x y) = false.
Proof.
  destruct x as [sx|sx| |sx mx ex], y as [sy|sy| |sy my ey];
    try done; try (by destruct sx, sy).
  intros _ _. unfold add, SFadd.
  match goal with |- isNaN (binary_normalize _ _ ?m ?e _) = _ =>
    pose proof (binary_normalize_sign m e) as H; destruct m end.
  - by rewrite H.
  - by apply hasSign_not_NaN in H.
  - by apply hasSign_not_NaN in H.
Qed.

Lemma mul_not_NaN x y :
  isNaN x = false -> isFinite y = true -> isZero y = false ->
  isNaN (mul x y) = false.
Proof.
  destruct x as [sx|sx| |sx mx ex], y as [sy|sy| |sy my ey]; try done.
  intros _ _ _. unfold mul, SFmul.
  eapply hasSign_not_NaN, binary_round_aux_sign. lia.
Qed.

Lemma div_not_NaN x y :
  isNaN x = false -> isNaN y = false -> isZero y = false ->
  isInfinite x && isInfinite y = false ->
  isNaN (div x y) = false.
Proof.
  destruct x as [sx|sx| |sx mx ex], y as [sy|sy| |sy my ey]; try done.
  intros _ _ _ _. unfold div, SFdiv.
  destruct (SFdiv_core_binary prec emax (Zpos mx) ex (Zpos my) ey)
    as [[mz ez] lz] eqn:E.
  eapply hasSign_not_NaN, binary_round_aux_sign.
  unfold SFdiv_core_binary in E.
  destruct (Z.div_eucl _ (Zpos my)) as [q r] eqn:Ed.
  injection E as <- _ _.
  match type of Ed with Z.div_eucl ?a _ = _ =>
    assert (Hq : q = a / Zpos my) by (unfold Z.div; by rewrite Ed);
    assert (Ha : 0 <= a)
  end.
  { destruct (_ - _ - _) as [|p|p]; [lia| |lia]. by apply Z.shiftl_nonneg. }
  rewrite Hq. apply Z.div_pos; lia.
Qed.

Lemma sub_not_NaN x y :
  isNaN x = false -> isNaN y = false ->
  isInfinite x && isInfinite y = false ->
  isNaN (sub x y) = false.
Proof.
  destruct x as [sx|sx| |sx mx ex], y as [sy|sy| |sy my ey];
    try done; try (by destruct sx, sy).
  intros _ _ _. unfold sub, SFsub.
  match goal with |- isNaN (binary_normalize _ _ ?m ?e _) = _ =>
    pose proof (binary_normalize_sign m e) as H; destruct m end.
  - by rewrite H.
  - by apply hasSign_not_NaN in H.
  - by apply hasSign_not_NaN in H.
Qed.

Lemma lt_le x y : lt x y = true -> le x y = true.
Proof. unfold lt, le, SFltb, SFleb. by destruct (SFcompare x y) as [[]|]. Qed.

Lemma not_income_is_expense (x : number) :
  isNaN x = false -> isZero x = false -> negb (gt x zero) = lt x zero.
Proof. by destruct x as [s|s| |s m e]; try destruct s. Qed.

Lemma Math_max_zero r :
  isNaN r = false -> Math_max zero r = if gt r zero then r else zero.
Proof. by destruct r as [[]|[]| |[] m e]. Qed.

Lemma ofZ_100 : ofZ 100 = S754_finite false 7036874417766400 (-46).
Proof. vm_compute. reflexivity. Qed.

Lemma Math_min_100 x :
  isNaN x = false ->
  Math_min (ofZ 100) x = if lt x (ofZ 100) then x else ofZ 100.
Proof. rewrite ofZ_100. by destruct x as [[]|[]| |[] m e]. Qed.

Lemma clamp_bounds x :
  isNaN x = false ->
  le zero (clamp x) = true /\ le (clamp x) (ofZ 100) = true
  /\ isFinite (clamp x) = true.
Proof.
  intros Hx. unfold clamp. rewrite Math_min_100 by done.
  destruct (lt x (ofZ 100)) eqn:Elt.
  - rewrite Math_max_zero by done.
    destruct (gt x zero) eqn:Egt.
    + split; [by apply lt_le|]. split; [by apply lt_le|].
      rewrite ofZ_100 in Elt. by destruct x as [[]|[]| |[] m e].
    + rewrite ofZ_100. done.
  - rewrite ofZ_100. done.
Qed.

Lemma bounded_digits m e :
  bounded prec emax m e = true ->
  Zpos (digits2_pos m) <= 53 /\ -1074 <= e
  /\ (-1074 < e -> Zpos (digits2_pos m) = 53).
Proof.
  unfold bounded, canonical_mantissa, fexp, SpecFloat.emin, prec, emax.
  intros [Hc%Z.eqb_eq _]%andb_true_iff. lia.
Qed.

(** Of two binary64 values with the same sign, the one with the larger
    exponent has the larger magnitude. *)
Lemma bounded_lt_by_exponent m1 e1 m2 e2 :
  bounded prec emax m1 e1 = true -> bounded prec emax m2 e2 = true ->
  e1 < e2 -> Zpos m1 < Zpos m2 * 2 ^ (e2 - e1).
Proof.
  intros (Hd1 & He1 & _)%bounded_digits (_ & _ & Hd2)%bounded_digits Hlt.
  specialize (Hd2 ltac:(lia)).
  pose proof (digits2_bounds m1) as [_ Hhi].
  pose proof (digits2_bounds m2) as [Hlo _]. rewrite Hd2 in Hlo.
  assert (2 ^ Zpos (digits2_pos m1) <= 2 ^ 53) by (apply Z.pow_le_mono_r; lia).
  assert (2 ^ 1 <= 2 ^ (e2 - e1)) by (apply Z.pow_le_mono_r; lia).
  change (2 ^ (53 - 1)) with 4503599627370496 in Hlo.
  change (2 ^ 53) with 9007199254740992 in *. change (2 ^ 1) with 2 in *.
  nia.
Qed.

Lemma le_finite_aligned sx mx ex sy my ey :
  bounded prec emax mx ex = true -> bounded prec emax my ey = true ->
  le (S754_finite sx mx ex) (S754_finite sy my ey) = true ->
  cond_Zopp sx (Zpos (fst (shl_align mx ex (Z.min ex ey))))
  - cond_Zopp sy (Zpos (fst (shl_align my ey (Z.min ex ey)))) <= 0.
Proof.
  intros Hbx Hby Hle.
  rewrite !shl_align_fst by lia.
  unfold le, SFleb, SFcompare in Hle.
  destruct sx, sy; simpl; try done; try lia.
  - destruct (Z.compare_spec ex ey) as [->|Hlt|Hgt]; try done.
    + rewrite Z.min_id, Z.sub_diag, !Z.mul_1_r.
      change (Pos.compare_cont Eq mx my) with (Pos.compare mx my) in Hle.
      destruct (Pos.compare_spec mx my); try done; lia.
    + pose proof (bounded_lt_by_exponent my ey mx ex Hby Hbx Hgt).
      replace (Z.min ex ey) with ey by lia.
      rewrite Z.sub_diag, Z.mul_1_r. lia.
  - destruct (Z.compare_spec ex ey) as [->|Hlt|Hgt]; try done.
    + rewrite Z.min_id, Z.sub_diag, !Z.mul_1_r.
      change (Pos.compare_cont Eq mx my) with (Pos.compare mx my) in Hle.
      destruct (Pos.compare_spec mx my); try done; lia.
    + pose proof (bounded_lt_by_exponent mx ex my ey Hbx Hby Hlt).
      replace (Z.min ex ey) with ex by lia.
      rewrite Z.sub_diag, Z.mul_1_r. lia.
Qed.

(** When the balance has reached the target the difference is not
    positive. *)
Lemma sub_not_positive target balance :
  valid target = true -> valid balance = true ->
  le target balance = true ->
  gt (sub target balance) zero = false.
Proof.
  intros Hvt Hvb Hle.
  destruct target as [st|st| |st mt et], balance as [sb|sb| |sb mb eb];
    try done; try (by destruct st, sb); try (by destruct st); try (by destruct sb).
  unfold sub, SFsub.
  pose proof (le_finite_aligned st mt et sb mb eb Hvt Hvb Hle) as Hd.
  match goal with |- gt (binary_normalize _ _ ?m ?e _) _ = _ =>
    pose proof (binary_normalize_sign m e) as H; destruct m as [|p|p] end.
  - by rewrite H.
  - lia.
  - by destruct (binary_normalize _ _ _ _ _) as [[]|[]| |[] m e].
Qed.

(** ** Binary64: differences *)

Lemma round_nearest_even_ge m l : m <= round_nearest_even m l.
Proof. destruct l as [|[]]; simpl; try lia. destruct (Z.even m); lia. Qed.

(** A mantissa that is not zero, at an exponent not below the least one,
    is not shifted away. *)
Lemma shr_fexp_pos m e l :
  0 < m -> -1074 <= e ->
  0 < shr_m (fst (shr_fexp prec emax m e l))
  /\ -1074 <= snd (shr_fexp prec emax m e l).
Proof.
  intros Hm He.
  assert (Hrec : shr_m (shr_record_of_loc m l) = m) by (by destruct l as [|[]]).
  destruct m as [|p|p]; [lia| |lia].
  pose proof (digits2_bounds p) as [Hlo _].
  unfold shr_fexp, fexp, SpecFloat.emin, prec, emax. cbn [Zdigits2].
  destruct (Z.max (Zpos (digits2_pos p) + e - 53) (3 - 1024 - 53) - e)
    as [|n|n] eqn:En; cbn [shr fst snd].
  - by rewrite Hrec.
  - rewrite shr_iter_div, Hrec by (rewrite Hrec; lia). split; [|lia].
    apply Z.div_str_pos. split; [apply Z.pow_pos_nonneg; lia|].
    eapply Z.le_trans; [|exact Hlo]. apply Z.pow_le_mono_r; lia.
  - by rewrite Hrec.
Qed.

Lemma binary_round_aux_nonzero s m e l :
  0 < m -> -1074 <= e -> isZero (binary_round_aux prec emax s m e l) = false.
Proof.
  intros Hm He. unfold binary_round_aux.
  pose proof (shr_fexp_pos m e l Hm He) as [H1 H1'].
  destruct (shr_fexp prec emax m e l) as [mrs1 e1]. cbn [fst snd] in H1, H1'.
  pose proof (round_nearest_even_ge (shr_m mrs1) (loc_of_shr_record mrs1)) as Hr.
  pose proof (shr_fexp_pos
                (round_nearest_even (shr_m mrs1) (loc_of_shr_record mrs1)) e1
                loc_Exact ltac:(lia) H1') as [H2 _].
  destruct (shr_fexp prec emax _ e1 loc_Exact) as [mrs2 e2]. cbn [fst] in H2.
  destruct (shr_m mrs2) as [|p|p]; [lia| |done].
  by destruct (e2 <=? emax - prec).
Qed.

Lemma binary_round_nonzero s m e :
  -1074 <= e -> isZero (binary_round prec emax s m e) = false.
Proof.
  intros He. unfold binary_round, shl_align.
  destruct (fexp prec emax (Zpos (digits2_pos m) + e) - e) as [|d|d] eqn:Ed.
  - by apply binary_round_aux_nonzero.
  - by apply binary_round_aux_nonzero.
  - apply binary_round_aux_nonzero; [lia|].
    unfold fexp, SpecFloat.emin, prec, emax. lia.
Qed.

(** A positive integer multiple of a power of two not below the least one
    rounds to a number above zero. *)
Lemma binary_normalize_positive p e :
  -1074 <= e -> gt (binary_normalize prec emax (Zpos p) e false) zero = true.
Proof.
  intros He. pose proof (binary_normalize_sign (Zpos p) e) as Hs.
  cbn beta iota in Hs.
  pose proof (binary_round_nonzero false p e He) as Hz.
  cbn [binary_normalize] in *.
  by destruct (binary_round prec emax false p e) as [[]|[]| |[] m' e'].
Qed.

Lemma lt_finite_aligned sx mx ex sy my ey :
  bounded prec emax mx ex = true -> bounded prec emax my ey = true ->
  lt (S754_finite sx mx ex) (S754_finite sy my ey) = true ->
  cond_Zopp sx (Zpos (fst (shl_align mx ex (Z.min ex ey))))
  - cond_Zopp sy (Zpos (fst (shl_align my ey (Z.min ex ey)))) < 0.
Proof.
  intros Hbx Hby Hlt.
  rewrite !shl_align_fst by lia.
  unfold lt, SFltb, SFcompare in Hlt.
  destruct sx, sy; simpl; try done; try lia.
  - destruct (Z.compare_spec ex ey) as [->|Hl|Hg]; try done.
    + rewrite Z.min_id, Z.sub_diag, !Z.mul_1_r.
      fold (Pos.compare mx my) in Hlt.
      destruct (Pos.compare_spec mx my); try done; lia.
    + pose proof (bounded_lt_by_exponent my ey mx ex Hby Hbx Hg).
      replace (Z.min ex ey) with ey by lia.
      rewrite Z.sub_diag, Z.mul_1_r. lia.
  - destruct (Z.compare_spec ex ey) as [->|Hl|Hg]; try done.
    + rewrite Z.min_id, Z.sub_diag, !Z.mul_1_r.
      fold (Pos.compare mx my) in Hlt.
      destruct (Pos.compare_spec mx my); try done; lia.
    + pose proof (bounded_lt_by_exponent mx ex my ey Hbx Hby Hl).
      replace (Z.min ex ey) with ex by lia.
      rewrite Z.sub_diag, Z.mul_1_r. lia.
Qed.

(** Below the target the difference is above zero: binary64 has no
    underflow to zero in a subtraction. *)
Lemma sub_positive target balance :
  valid target = true -> valid balance = true ->
  lt balance target = true ->
  gt (sub target balance) zero = true.
Proof.
  intros Hvt Hvb Hlt.
  destruct target as [st|st| |st mt et], balance as [sb|sb| |sb mb eb];
    try done; try (by destruct st, sb); try (by destruct st); try (by destruct sb).
  unfold sub, SFsub.
  pose proof (lt_finite_aligned sb mb eb st mt et Hvb Hvt Hlt) as Hd.
  rewrite (Z.min_comm eb et) in Hd.
  destruct (bounded_digits _ _ Hvt) as (_ & Het & _).
  destruct (bounded_digits _ _ Hvb) as (_ & Heb & _).
  cbv zeta.
  match goal with |- gt (binary_normalize _ _ ?m ?e _) _ = _ =>
    destruct m as [|p|p] eqn:Em end; [lia| |lia].
  apply binary_normalize_positive. lia.
Qed.

Lemma sub_add_neg x y : sub x y = add x (neg y).
Proof.
  destruct x as [sx|sx| |sx mx ex], y as [sy|sy| |sy my ey];
    try done; try (by destruct sx, sy); by destruct sy.
Qed.

Lemma neg_ofZ n : Z.abs n <= MAX_SAFE_INTEGER -> neg (ofZ n) = ofZ (- n) \/ n = 0.
Proof.
  intros Hn. destruct n as [|p|p]; [by right|left..].
  - change (- Z.pos p) with (Z.neg p). by rewrite ofZ_pos, ofZ_neg by lia.
  - change (- Z.neg p) with (Z.pos p). by rewrite ofZ_pos, ofZ_neg by lia.
Qed.

(** The difference of two safe integers is exact. *)
Lemma sub_ofZ a b :
  Z.abs a <= MAX_SAFE_INTEGER -> Z.abs b <= MAX_SAFE_INTEGER ->
  Z.abs (a - b) <= MAX_SAFE_INTEGER ->
  sub (ofZ a) (ofZ b) = ofZ (a - b).
Proof.
  intros Ha Hb Hab. rewrite sub_add_neg.
  destruct (neg_ofZ b Hb) as [-> | ->].
  - by rewrite add_ofZ by lia.
  - rewrite Z.sub_0_r. change (neg (ofZ 0)) with negzero.
    destruct a as [|p|p]; [reflexivity| |].
    + by rewrite ofZ_pos by lia.
    + by rewrite ofZ_neg by lia.
Qed.

(** Two numbers are comparable: one is below the other, or the other at
    most the one. *)
Lemma lt_or_le x y :
  isNaN x = false -> isNaN y = false -> lt y x = true \/ le x y = true.
Proof.
  intros Hx Hy. unfold lt, le, SFltb, SFleb.
  destruct x as [sx|sx| |sx mx ex], y as [sy|sy| |sy my ey];
    try done; try (destruct sx, sy; by auto); try (destruct sx; by auto);
    try (destruct sy; by auto).
  unfold SFcompare.
  rewrite (Z.compare_antisym ex ey).
  fold (Pos.compare my mx). fold (Pos.compare mx my).
  rewrite (Pos.compare_antisym mx my).
  destruct sx, sy; try (by auto);
    destruct (ex ?= ey); cbn [CompOpp]; try (by auto);
    destruct (mx ?= my)%positive; cbn [CompOpp]; by auto.
Qed.

(** ** Sums of amounts *)

Lemma sumAmounts_snoc l t : sumAmounts (l ++ [t]) = add (sumAmounts l) (amount t).
Proof. unfold sumAmounts. by rewrite fold_left_app. Qed.

Lemma currentBalance_sumAmounts T : currentBalance T = sumAmounts T.
Proof. reflexivity. Qed.

Lemma sumAbs_nonneg ns : 0 <= sumAbs ns.
Proof. induction ns; simpl; lia. Qed.

Lemma sumZ_le_sumAbs ns : Z.abs (sumZ ns) <= sumAbs ns.
Proof. induction ns; simpl; lia. Qed.

Lemma sumAbs_filter f ns : sumAbs (List.filter f ns) <= sumAbs ns.
Proof. induction ns as [|n ns IH]; simpl; [lia|]. destruct (f n); simpl; lia. Qed.

Lemma fold_add_safe l acc :
  Forall (fun t => isSafeInteger (amount t)) l ->
  Z.abs acc + sumAbs (map amountZ l) <= MAX_SAFE_INTEGER ->
  fold_left (fun a t => add a (amount t)) l (ofZ acc)
  = ofZ (acc + sumZ (map amountZ l)).
Proof.
  intros Hall. revert acc.
  induction Hall as [|t l Ht _ IH]; intros acc Hb; simpl in *.
  - by rewrite Z.add_0_r.
  - pose proof (sumAbs_nonneg (map amountZ l)).
    unfold amountZ at 1 in Hb.
    rewrite add_safe by (done || lia).
    rewrite IH by (fold (amountZ t); unfold amountZ at 1; lia).
    f_equal. unfold amountZ at 2. lia.
Qed.

(** On whole-yen amounts the left-to-right sum is the exact sum. *)
Lemma sumAmounts_safe l :
  safeAmounts l -> sumAmounts l = ofZ (sumZ (map amountZ l)).
Proof.
  intros [Hall Hb]. unfold sumAmounts.
  change zero with (ofZ 0). by rewrite fold_add_safe.
Qed.

Lemma sumZ_perm ns ns' : Permutation ns ns' -> sumZ ns = sumZ ns'.
Proof. induction 1; simpl; lia. Qed.

Lemma sumAbs_perm ns ns' : Permutation ns ns' -> sumAbs ns = sumAbs ns'.
Proof. induction 1; simpl; lia. Qed.

Lemma safeAmounts_perm l l' : Permutation l l' -> safeAmounts l -> safeAmounts l'.
Proof.
  intros Hp [Hall Hb]. split.
  - by rewrite <- Hp.
  - by rewrite <- (sumAbs_perm _ _ (Permutation_map amountZ Hp)).
Qed.

Lemma safeAmounts_filter f l : safeAmounts l -> safeAmounts (List.filter f l).
Proof.
  intros [Hall Hb]. split.
  - apply Forall_forall. intros t Ht%list_elem_of_In%filter_In.
    rewrite Forall_forall in Hall. apply Hall, list_elem_of_In, Ht.
  - eapply Z.le_trans; [|exact Hb]. clear.
    induction l as [|t l IH]; simpl; [lia|].
    destruct (f t); simpl; lia.
Qed.

Lemma sumAmounts_perm l l' :
  safeAmounts l -> Permutation l l' -> sumAmounts l = sumAmounts l'.
Proof.
  intros Hs Hp.
  rewrite (sumAmounts_safe l), (sumAmounts_safe l') by eauto using safeAmounts_perm.
  f_equal. by apply sumZ_perm, Permutation_map.
Qed.

Lemma map_amountZ_incomes l :
  Forall (fun t => isSafeInteger (amount t)) l ->
  map amountZ (List.filter isIncome l) = positives (map amountZ l).
Proof.
  induction 1 as [|t l Ht _ IH]; [reflexivity|].
  unfold positives in *. simpl. unfold isIncome at 1, amountZ at 2.
  rewrite (gt_zero_safe _ Ht).
  destruct (0 <? integerValue (amount t)); simpl; by rewrite IH.
Qed.

Lemma sumZ_others l :
  Forall (fun t => isSafeInteger (amount t)) l ->
  sumZ (map amountZ (List.filter isNotIncome l)) = sumZ (negatives (map amountZ l)).
Proof.
  induction 1 as [|t l Ht _ IH]; [reflexivity|].
  unfold negatives in *. simpl. unfold isNotIncome at 1, amountZ at 2.
  rewrite (gt_zero_safe _ Ht). fold (amountZ t).
  destruct (Z.ltb_spec 0 (amountZ t)), (Z.ltb_spec (amountZ t) 0);
    simpl; rewrite IH; lia.
Qed.

Lemma currentBalance_not_NaN T :
  Forall (fun t => isFinite (amount t) = true) T ->
  isNaN (currentBalance T) = false.
Proof.
  intros Hall. unfold currentBalance.
  assert (Hacc : isNaN zero = false) by reflexivity.
  revert Hacc. generalize zero.
  induction Hall as [|t T Ht _ IH]; intros acc Hacc; simpl; [done|].
  apply IH. by apply add_not_NaN.
Qed.

(** ** What [dailyData] holds under each key *)

Lemma dailyData_snoc T t : dailyData (T ++ [t]) = dailyData_step (dailyData T) t.
Proof. unfold dailyData. by rewrite fold_left_app. Qed.

Lemma inBucket_spec k t : inBucket k t = true <-> bucketKey t = Some k.
Proof.
  unfold inBucket. destruct (bucketKey t) as [k'|].
  - rewrite String.eqb_eq. split; congruence.
  - split; discriminate.
Qed.

(** A transaction changes the bucket of its own key and no other. *)
Lemma dailyData_step_other data t k :
  bucketKey t <> Some k -> dailyData_step data t !! k = data !! k.
Proof.
  intros Hk. unfold dailyData_step.
  destruct (bucketKey t) as [kt|]; [|reflexivity].
  assert (kt <> k) by congruence.
  destruct (data !! kt) as [agg|] eqn:E; cbn zeta.
  - rewrite E. destruct (gt (amount t) zero); by rewrite lookup_insert_ne.
  - rewrite lookup_insert_eq.
    destruct (gt (amount t) zero); by rewrite !lookup_insert_ne.
Qed.

Lemma dailyData_step_same data t k :
  bucketKey t = Some k ->
  dailyData_step data t !! k =
    let agg := default {| income := zero; expense := zero |} (data !! k) in
    Some (if gt (amount t) zero
          then {| income := add (income agg) (amount t); expense := expense agg |}
          else {| income := income agg; expense := add (expense agg) (amount t) |}).
Proof.
  intros Hk. unfold dailyData_step. rewrite Hk.
  destruct (data !! k) as [agg|] eqn:E; cbn zeta.
  - rewrite E. simpl. destruct (gt (amount t) zero); by rewrite lookup_insert_eq.
  - rewrite lookup_insert_eq. simpl.
    destruct (gt (amount t) zero); by rewrite lookup_insert_eq.
Qed.

Lemma aggregateOf_snoc_other k T t :
  bucketKey t <> Some k -> aggregateOf k (T ++ [t]) = aggregateOf k T.
Proof.
  intros Hk. unfold aggregateOf. rewrite List.filter_app. simpl.
  destruct (inBucket k t) eqn:E; [by apply inBucket_spec in E|].
  by rewrite app_nil_r.
Qed.

Lemma aggregateOf_default k T :
  default {| income := zero; expense := zero |} (aggregateOf k T)
  = {| income := sumAmounts (List.filter isIncome (List.filter (inBucket k) T));
       expense := sumAmounts (List.filter isNotIncome (List.filter (inBucket k) T)) |}.
Proof. unfold aggregateOf. by destruct (List.filter (inBucket k) T). Qed.

Lemma aggregateOf_nonempty k T :
  List.filter (inBucket k) T <> [] ->
  aggregateOf k T
  = Some {| income := sumAmounts (List.filter isIncome (List.filter (inBucket k) T));
            expense := sumAmounts (List.filter isNotIncome (List.filter (inBucket k) T)) |}.
Proof. unfold aggregateOf. by destruct (List.filter (inBucket k) T). Qed.

Lemma aggregateOf_Some k T agg :
  aggregateOf k T = Some agg ->
  agg = {| income := sumAmounts (List.filter isIncome (List.filter (inBucket k) T));
           expense := sumAmounts (List.filter isNotIncome (List.filter (inBucket k) T)) |}.
Proof.
  unfold aggregateOf. destruct (List.filter (inBucket k) T); [discriminate|].
  by intros [= <-].
Qed.

Lemma aggregateOf_empty k T :
  List.filter (inBucket k) T = [] -> aggregateOf k T = None.
Proof. unfold aggregateOf. by intros ->. Qed.

Lemma aggregateOf_snoc_same k T t :
  bucketKey t = Some k ->
  aggregateOf k (T ++ [t]) =
    let agg := default {| income := zero; expense := zero |} (aggregateOf k T) in
    Some (if gt (amount t) zero
          then {| income := add (income agg) (amount t); expense := expense agg |}
          else {| income := income agg; expense := add (expense agg) (amount t) |}).
Proof.
  intros Hk. apply inBucket_spec in Hk.
  assert (Hf : List.filter (inBucket k) (T ++ [t]) = List.filter (inBucket k) T ++ [t]).
  { rewrite List.filter_app. simpl. by rewrite Hk. }
  rewrite aggregateOf_nonempty by (rewrite Hf; by destruct (List.filter (inBucket k) T)).
  cbn zeta. rewrite aggregateOf_default, Hf, !List.filter_app. simpl.
  unfold isIncome, isNotIncome.
  destruct (gt (amount t) zero); simpl;
    by rewrite ?sumAmounts_snoc, ?app_nil_r.
Qed.

Lemma dailyData_lookup k T : dailyData T !! k = aggregateOf k T.
Proof.
  induction T as [|t T IH] using rev_ind; [reflexivity|].
  rewrite dailyData_snoc.
  destruct (decide (bucketKey t = Some k)) as [Hk|Hk].
  - by rewrite dailyData_step_same, aggregateOf_snoc_same, IH.
  - by rewrite dailyData_step_other, aggregateOf_snoc_other.
Qed.

Lemma aggregateOf_perm k T T' :
  safeAmounts T -> Permutation T T' -> aggregateOf k T' = aggregateOf k T.
Proof.
  intros Hs Hp.
  assert (Hl := filter_perm (inBucket k) _ _ Hp).
  assert (Hsl := safeAmounts_filter (inBucket k) _ Hs).
  destruct (List.filter (inBucket k) T) as [|t l] eqn:E.
  - apply Permutation_nil in Hl.
    by rewrite !aggregateOf_empty.
  - rewrite !aggregateOf_nonempty.
    + rewrite E. f_equal. f_equal; symmetry;
        (apply sumAmounts_perm; [by apply safeAmounts_filter | by apply filter_perm]).
    + by rewrite E.
    + intros E'. rewrite E' in Hl. by apply Permutation_nil_r in Hl.
Qed.

(** Every transaction that passes the guard goes to one bucket, the one of
    the UTC date of its timestamp; a transaction without a date (or whose
    seconds are 0) changes nothing. *)
Lemma dailyData_one_bucket T t k :
  dailyData (T ++ [t]) !! k
  = if decide (bucketKey t = Some k)
    then dailyData_step (dailyData T) t !! k
    else dailyData T !! k.
Proof.
  rewrite dailyData_snoc. case_decide; [done|]. by apply dailyData_step_other.
Qed.

Lemma dailyData_skips_undated T t :
  date t = None -> dailyData (T ++ [t]) = dailyData T.
Proof.
  intros Hd. rewrite dailyData_snoc. unfold dailyData_step, bucketKey. by rewrite Hd.
Qed.

(** Two transactions that pass the guard are added under the same key
    exactly when their timestamps fall on the same UTC day. *)
Lemma bucketKey_same_day t t' ts ts' :
  date t = Some ts -> date t' = Some ts' ->
  seconds ts <> 0 -> seconds ts' <> 0 ->
  validTimestamp ts -> validTimestamp ts' ->
  (bucketKey t = bucketKey t' <-> utcDay ts = utcDay ts').
Proof.
  intros E E' Hs Hs' Hv Hv'. unfold bucketKey. rewrite E, E'.
  destruct (Z.eqb_spec (seconds ts) 0), (Z.eqb_spec (seconds ts') 0); try done.
  rewrite <- (dateKeyOf_same_day ts ts') by done.
  split; congruence.
Qed.

(** ** The day filter *)

Lemma onDateKey_spec k t :
  onDateKey k t = true <-> exists ts, date t = Some ts /\ dateKeyOf ts = k.
Proof.
  unfold onDateKey. destruct (date t) as [ts|].
  - rewrite String.eqb_eq. split; [eauto | by intros (? & [= <-] & ?)].
  - split; [discriminate | by intros (? & ? & ?)].
Qed.


Lemma onDateKey_inBucket d t :
  (forall ts, date t = Some ts -> seconds ts <> 0) ->
  onDateKey d t = inBucket d t.
Proof.
  intros H. unfold onDateKey, inBucket, bucketKey.
  destruct (date t) as [ts|]; [|done].
  specialize (H ts eq_refl). by destruct (Z.eqb_spec (seconds ts) 0).
Qed.

Lemma dailyTransactions_In (d : Z) (T : list Transaction) t :
  In t (dailyTransactions d T) <->
  In t T /\ exists ts, date t = Some ts /\ dateKeyOf ts = isoDate d.
Proof.
  unfold dailyTransactions, filterByKey.
  rewrite <- onDateKey_spec, <- filter_In.
  split; apply Permutation_in; [apply sort_desc_perm | symmetry; apply sort_desc_perm].
Qed.



Lemma datesPresent_NoDup T : NoDup (datesPresent T).
Proof. apply NoDup_ListNoDup, List.NoDup_nodup. Qed.

(** ** The grid *)

Lemma startDay_weekday tz year month :
  Z.of_nat (startDay tz year month) = weekdayOfFirst year month.
Proof.
  unfold startDay, startOfMonth, weekdayOfFirst. rewrite getDay_Date_ymd.
  apply Z2Nat.id. by apply Z.mod_pos_bound.
Qed.

Lemma startDay_lt_7 tz year month : (startDay tz year month < 7)%nat.
Proof.
  pose proof (startDay_weekday tz year month) as H.
  unfold weekdayOfFirst in H.
  pose proof (Z.mod_pos_bound (MakeDay (MakeFullYear year) month 1 + 4) 7).
  lia.
Qed.

Lemma daysInMonth_bounds tz year month :
  (1 <= daysInMonth tz year month <= 31)%nat.
Proof.
  unfold daysInMonth, getDate.
  pose proof (DateFromTime_bounds (LocalTime tz (endOfMonth tz year month))).
  lia.
Qed.

(** [daysInMonth] is the length of the month in the Gregorian calendar,
    whatever the host's time zone. *)
Lemma daysInMonth_monthLength tz year month :
  0 <= month <= 11 ->
  Z.of_nat (daysInMonth tz year month) = monthLength (MakeFullYear year) month.
Proof.
  intros Hm. unfold daysInMonth, endOfMonth. rewrite getDate_Date_ymd.
  fold (lastDayOfMonth (MakeFullYear year) month).
  rewrite lastDayOfMonth_monthLength by done.
  pose proof (monthLength_bounds (MakeFullYear year) month). lia.
Qed.

Lemma calendarDays_length tz year month T :
  length (calendarDays tz year month T)
  = (startDay tz year month + daysInMonth tz year month
     + (7 - (startDay tz year month + daysInMonth tz year month) mod 7) mod 7)%nat.
Proof.
  unfold calendarDays. cbv zeta.
  by rewrite !length_app, !length_map, !length_seq.
Qed.

Lemma lookup_calendarDays_day tz year month T day :
  (1 <= day <= daysInMonth tz year month)%nat ->
  calendarDays tz year month T !! (startDay tz year month + day - 1)%nat
  = Some (dayCell tz year month T day).
Proof.
  intros Hday. unfold calendarDays. cbv zeta.
  rewrite <- app_assoc, lookup_app_r by (rewrite length_map, length_seq; lia).
  rewrite length_map, length_seq.
  rewrite lookup_app_l by (rewrite length_map, length_seq; lia).
  rewrite lookup_map_seq by lia. do 2 f_equal. lia.
Qed.

(** ** The balance *)

(** C1, amended.  When every amount is a whole number of yen and the
    magnitudes of the amounts add up to at most [MAX_SAFE_INTEGER], the
    balance is the exact sum of the amounts, and listing the transactions
    in another order gives the same balance. *)
Theorem currentBalance_exact_on_safe_amounts (T : list Transaction)
  (Hsafe : safeAmounts T) :
  currentBalance T = ofZ (sumZ (map amountZ T))
  /\ integerValue (currentBalance T) = sumZ (map amountZ T)
  /\ (forall T', Permutation T T' -> currentBalance T' = currentBalance T).
Proof.
  assert (E := sumAmounts_safe T Hsafe). split; [exact E|]. split.
  - rewrite currentBalance_sumAmounts, E. apply integerValue_ofZ.
    destruct Hsafe as [_ Hb]. pose proof (sumZ_le_sumAbs (map amountZ T)). lia.
  - intros T' Hp. symmetry. by apply sumAmounts_perm.
Qed.

(** C1, witness: the scenario of the specification. *)
Lemma currentBalance_exact_on_safe_amounts_witness :
  currentBalance scenario_T = ofZ 57000
  /\ integerValue (currentBalance scenario_T) = 57000.
Proof.
  assert (Hs : safeAmounts scenario_T).
  { split; [|vm_compute; discriminate].
    repeat constructor; vm_compute; congruence. }
  destruct (currentBalance_exact_on_safe_amounts scenario_T Hs) as (H1 & H2 & _).
  split; [exact H1 | exact H2].
Defined.

(** C1, as stated, fails: binary64 addition rounds.  Adding 1 yen twice to
    9007199254740992 yen leaves the balance unchanged, while the same
    three deposits listed smallest first give 9007199254740994, the exact
    sum.  Likewise 0.1 + 0.2 + 0.3 and 0.3 + 0.2 + 0.1 differ. *)
Lemma currentBalance_depends_on_order :
  Permutation drift_T drift_T'
  /\ map amount drift_T = map ofZ [2 ^ 53; 1; 1]
  /\ currentBalance drift_T = ofZ (2 ^ 53)
  /\ currentBalance drift_T' = ofZ (2 ^ 53 + 2)
  /\ integerValue (currentBalance drift_T) <> 2 ^ 53 + 1 + 1
  /\ currentBalance drift_T <> currentBalance drift_T'
  /\ currentBalance decimal_T <> currentBalance (rev decimal_T).
Proof.
  split; [|vm_compute; repeat split; congruence].
  exact (Permutation_cons_append
           [deposit "b" 1 1714557600; deposit "c" 1 1714561200]
           (deposit "a" (2 ^ 53) 1714554000)).
Qed.

(** ** The progress percentage *)

Lemma progress_bounds B G :
  isNaN B = false ->
  (forall target, targetOf G = Some target -> isInfinite target = false) ->
  le zero (progress B G) = true
  /\ le (progress B G) (ofZ 100) = true
  /\ isFinite (progress B G) = true.
Proof.
  intros HB HG. unfold progress.
  destruct G as [g|]; [|done]. simpl in HG.
  destruct (targetAmount g) as [target|]; [|done].
  specialize (HG target eq_refl).
  destruct (ToBoolean target) eqn:Et; [|done]. cbn [negb].
  apply clamp_bounds. rewrite ofZ_100.
  apply mul_not_NaN; [|done..].
  apply div_not_NaN; [done|by destruct target..|].
  rewrite HG. apply andb_false_r.
Qed.

(** Of two positive finite numbers in the same representation, at most
    one is below the other, and if neither is they are the same. *)
Lemma lt_positive_cases m e m' e' :
  let x := S754_finite false m e in
  let y := S754_finite false m' e' in
  (lt x y = true -> lt y x = false)
  /\ (lt x y = false -> lt y x = false -> x = y).
Proof.
  cbv zeta. unfold lt, SFltb, SFcompare.
  rewrite (Z.compare_antisym e e').
  fold (Pos.compare m m'). fold (Pos.compare m' m).
  rewrite (Pos.compare_antisym m m').
  destruct (Z.compare_spec e e') as [->|?|?]; cbn [CompOpp]; try done.
  destruct (Pos.compare_spec m m') as [->|?|?]; cbn [CompOpp]; done.
Qed.

(** [Math.max(0, Math.min(100, x))] limits [x] to the interval from 0 to
    100; a zero comes out as +0. *)
Lemma clamp_clampTo x :
  clamp x = if isZero x then zero else clampTo zero (ofZ 100) x.
Proof.
  unfold clamp, clampTo.
  destruct x as [[]|[]| |[] m e] eqn:Ex; try (rewrite ofZ_100; done).
  rewrite <- Ex. assert (Hn : isNaN x = false) by (by rewrite Ex).
  rewrite Math_min_100 by done.
  assert (Hz : lt x zero = false) by (by rewrite Ex).
  assert (Hp : gt x zero = true) by (by rewrite Ex).
  replace (isZero x) with false by (by rewrite Ex). rewrite Hz.
  pose proof (lt_positive_cases m e 7036874417766400 (-46)) as [H1 H2].
  cbv zeta in H1, H2. rewrite <- ofZ_100, <- Ex in H1, H2.
  change (gt x (ofZ 100)) with (lt (ofZ 100) x).
  destruct (lt x (ofZ 100)) eqn:Elt.
  - rewrite (H1 eq_refl). by rewrite Math_max_zero, Hp.
  - destruct (lt (ofZ 100) x) eqn:Egt.
    + rewrite ofZ_100. done.
    + rewrite (H2 eq_refl eq_refl). rewrite ofZ_100. done.
Qed.

Lemma clampTo_cases x :
  (gt x zero = true -> lt x (ofZ 100) = true ->
     clampTo zero (ofZ 100) x = x /\ isZero x = false)
  /\ (lt x zero = true -> clampTo zero (ofZ 100) x = zero /\ isZero x = false)
  /\ (gt x (ofZ 100) = true ->
      clampTo zero (ofZ 100) x = ofZ 100 /\ isZero x = false).
Proof.
  unfold clampTo. split; [|split].
  - intros Hgt Hlt.
    destruct x as [[]|[]| |[] m e] eqn:Ex; try done;
      try (rewrite ofZ_100 in Hlt; done).
    rewrite <- Ex in *.
    pose proof (lt_positive_cases m e 7036874417766400 (-46)) as [H1 _].
    cbv zeta in H1. rewrite <- ofZ_100, <- Ex in H1.
    change (gt x (ofZ 100)) with (lt (ofZ 100) x). rewrite (H1 Hlt).
    replace (lt x zero) with false by (by rewrite Ex). split; [done|by rewrite Ex].
  - intros Hlt. rewrite Hlt. split; [done|]. by destruct x as [[]|[]| |[] m e].
  - intros Hgt. rewrite Hgt.
    assert (Hz : lt x zero = false /\ isZero x = false)
      by (rewrite ofZ_100 in Hgt; by destruct x as [[]|[]| |[] m e]).
    destruct Hz as [-> ->]. done.
Qed.

(** C2, amended.  [progress] is 0 when there is no goal and when the
    goal's [targetAmount] is missing, zero or NaN.  Otherwise it is the
    quotient of balance and target, times 100, limited to the interval
    from 0 to 100: the value itself when it lies between 0 and 100, 0
    when it is below 0 (and +0 when it is a zero of either sign), 100 when
    it is above 100.  For every balance that is a number (not NaN) and
    every goal whose target is not infinite together with the balance, the
    result is a finite number with 0 <= result <= 100. *)
Theorem progress_spec (B : number) (G : option Goal) :
  (G = None -> progress B G = zero)
  /\ (forall g, G = Some g -> targetAmount g = None -> progress B G = zero)
  /\ (forall g target, G = Some g -> targetAmount g = Some target ->
        isZero target = true \/ isNaN target = true -> progress B G = zero)
  /\ (forall g target, G = Some g -> targetAmount g = Some target ->
        isZero target = false -> isNaN target = false ->
        let x := mul (div B target) (ofZ 100) in
        progress B G = (if isZero x then zero else clampTo zero (ofZ 100) x)
        /\ (gt x zero = true -> lt x (ofZ 100) = true -> progress B G = x)
        /\ (lt x zero = true -> progress B G = zero)
        /\ (gt x (ofZ 100) = true -> progress B G = ofZ 100))
  /\ (isNaN B = false ->
      (forall target, targetOf G = Some target ->
         isInfinite B && isInfinite target = false) ->
      le zero (progress B G) = true
      /\ le (progress B G) (ofZ 100) = true
      /\ isFinite (progress B G) = true).
Proof.
  split; [by intros ->|]. split; [by intros g -> H; simpl; rewrite H|].
  split; [intros g target -> H [Hz|Hn]; simpl; rewrite H; by destruct target|].
  split.
  - intros g target -> H Hz Hn x.
    assert (Hp : progress B (Some g) = Math_max zero (Math_min (ofZ 100) x)).
    { unfold progress. rewrite H. by destruct target. }
    assert (Hc : Math_max zero (Math_min (ofZ 100) x)
                 = if isZero x then zero else clampTo zero (ofZ 100) x)
      by apply clamp_clampTo.
    rewrite Hp, Hc. clearbody x. split; [done|].
    destruct (clampTo_cases x) as (H1 & H2 & H3).
    split; [|split].
    + intros Hgt Hlt. destruct (H1 Hgt Hlt) as [-> ->]. done.
    + intros Hlt. destruct (H2 Hlt) as [-> ->]. done.
    + intros Hgt. destruct (H3 Hgt) as [-> ->]. done.
  - intros HB HG. unfold progress.
    destruct G as [g|]; [|done]. simpl in HG.
    destruct (targetAmount g) as [target|]; [|done].
    specialize (HG target eq_refl).
    destruct (ToBoolean target) eqn:Et; [|done]. cbn [negb].
    apply clamp_bounds. rewrite ofZ_100.
    apply mul_not_NaN; [|done..].
    apply div_not_NaN; [done|by destruct target..|done].
Qed.

(** C2, witness: a balance of 57000 yen against a goal of 100000 yen; the
    quotient times 100 lies between 0 and 100 and is the result. *)
Lemma progress_spec_witness :
  progress (ofZ 57000) (Some goal_100000)
  = mul (div (ofZ 57000) (ofZ 100000)) (ofZ 100)
  /\ le zero (progress (ofZ 57000) (Some goal_100000)) = true
  /\ le (progress (ofZ 57000) (Some goal_100000)) (ofZ 100) = true
  /\ isFinite (progress (ofZ 57000) (Some goal_100000)) = true.
Proof.
  destruct (progress_spec (ofZ 57000) (Some goal_100000)) as (_ & _ & _ & H4 & H5).
  split.
  - apply (H4 goal_100000 (ofZ 100000) eq_refl eq_refl eq_refl eq_refl);
      vm_compute; reflexivity.
  - apply H5; [reflexivity|]. intros target [= <-]. reflexivity.
Defined.

(** C2, as stated, fails: for a balance that is NaN the result is NaN,
    which is no finite number between 0 and 100; so it is for an infinite
    balance against an infinite target. *)
Lemma progress_not_a_number :
  progress NaN (Some goal_100000) = NaN
  /\ isFinite (progress NaN (Some goal_100000)) = false
  /\ le zero (progress NaN (Some goal_100000)) = false
  /\ le (progress NaN (Some goal_100000)) (ofZ 100) = false
  /\ progress Infinity (Some {| name := "Okinawa"; targetAmount := Some Infinity |})
     = NaN.
Proof. vm_compute. repeat split. Qed.

(** The percentage the card shows for a list of finite amounts and a
    target that is not infinite is a finite number between 0 and 100. *)
Corollary progress_of_balance_bounds T G :
  Forall (fun t => isFinite (amount t) = true) T ->
  (forall target, targetOf G = Some target -> isInfinite target = false) ->
  le zero (progress (currentBalance T) G) = true
  /\ le (progress (currentBalance T) G) (ofZ 100) = true
  /\ isFinite (progress (currentBalance T) G) = true.
Proof.
  intros HT HG. apply progress_bounds; [by apply currentBalance_not_NaN | done].
Qed.

(** ** The calendar aggregation *)

(** C3, at the failing input: in Japan a purchase made at 08:00 on
    2024-05-01 has the local calendar date 2024-05-01, and [dailyData]
    files it under 2024-04-30, the UTC date; nothing is filed under
    2024-05-01.  The grid then shows the purchase of 10:00 that morning in
    the cell of May 2nd. *)
Theorem dailyData_buckets_by_utc_date :
  localDateKey JST {| seconds := 1714518000 |} = "2024-05-01"
  /\ bucketKey tx_0800_JST = Some "2024-04-30"
  /\ dailyData [tx_0800_JST] !! "2024-05-01" = None
  /\ dailyData [tx_0800_JST] !! "2024-04-30"
     = Some {| income := zero; expense := ofZ (-800) |}
  /\ localDateKey JST {| seconds := 1714525200 |} = "2024-05-01"
  /\ dayCell JST 2024 4 [tx_1000_JST] 1 = DayCell 1 "2024-04-30" None
  /\ dayCell JST 2024 4 [tx_1000_JST] 2
     = DayCell 2 "2024-05-01" (Some {| income := zero; expense := ofZ (-400) |}).
Proof. vm_compute. repeat split; reflexivity. Qed.

(** Where the local date of every timestamp is its UTC date and no
    timestamp is the second 0, the transactions dated [d] are those
    [dailyData] files under [d]. *)
Lemma onLocalDate_inBucket tz T d :
  (forall t ts, In t T -> date t = Some ts -> dateKeyOf ts = localDateKey tz ts) ->
  (forall t ts, In t T -> date t = Some ts -> seconds ts <> 0) ->
  List.filter (onLocalDate tz d) T = List.filter (inBucket d) T.
Proof.
  intros Hlocal Hepoch. apply filter_ext_in. intros t Ht.
  rewrite <- onDateKey_inBucket by (intros ts; by apply Hepoch).
  unfold onLocalDate, onDateKey. destruct (date t) as [ts|] eqn:Et; [|done].
  by rewrite (Hlocal t ts Ht Et).
Qed.

(** C5, amended.  Let every timestamp of [T] have its local calendar date
    equal to its UTC date, let none be the second 0, and let the amounts be
    whole yen whose magnitudes add up to at most [MAX_SAFE_INTEGER].  Then
    for every calendar date [d] with at least one transaction the
    aggregate for [d] exists, its income is the sum of the positive
    amounts of the transactions dated [d] and its expense the sum of their
    negative amounts, both exactly.  In the specification's scenario the
    balance is 57000 and the aggregate for 2024-05-01 is
    (income 50000, expense -3000). *)
Theorem dailyData_sums (tz : Z) (T : list Transaction) (d : string)
  (Hlocal : forall t ts, In t T -> date t = Some ts ->
              dateKeyOf ts = localDateKey tz ts)
  (Hepoch : forall t ts, In t T -> date t = Some ts -> seconds ts <> 0)
  (Hsafe : safeAmounts T)
  (Hpresent : exists t, In t T /\ onLocalDate tz d t = true) :
  let day := List.filter (onLocalDate tz d) T in
  (exists agg, dailyData T !! d = Some agg
     /\ income agg = ofZ (sumZ (positives (map amountZ day)))
     /\ expense agg = ofZ (sumZ (negatives (map amountZ day)))
     /\ integerValue (income agg) = sumZ (positives (map amountZ day))
     /\ integerValue (expense agg) = sumZ (negatives (map amountZ day)))
  /\ currentBalance scenario_T = ofZ 57000
  /\ dailyData scenario_T !! "2024-05-01"
     = Some {| income := ofZ 50000; expense := ofZ (-3000) |}.
Proof.
  intros day. split; [|split; vm_compute; reflexivity].
  assert (Eday : day = List.filter (inBucket d) T)
    by (by apply onLocalDate_inBucket).
  assert (Hne : List.filter (inBucket d) T <> []).
  { rewrite <- Eday. apply filter_nonempty_iff. exact Hpresent. }
  assert (Hday : safeAmounts day) by (by apply safeAmounts_filter).
  destruct (Hday) as [Hall Hb].
  pose proof (sumZ_le_sumAbs (positives (map amountZ day))) as Hp.
  pose proof (sumZ_le_sumAbs (negatives (map amountZ day))) as Hn.
  pose proof (sumAbs_filter (fun n => 0 <? n) (map amountZ day)) as Hp'.
  pose proof (sumAbs_filter (fun n => n <? 0) (map amountZ day)) as Hn'.
  fold (positives (map amountZ day)) in Hp'.
  fold (negatives (map amountZ day)) in Hn'.
  eexists. split; [rewrite dailyData_lookup; by apply aggregateOf_nonempty|].
  cbn [income expense]. rewrite <- Eday.
  rewrite !sumAmounts_safe by (by apply safeAmounts_filter).
  rewrite map_amountZ_incomes, sumZ_others by done.
  rewrite !integerValue_ofZ by lia. done.
Qed.

(** C5, witness: the scenario on a host in Japan; 2024-05-01 holds the
    salary and the lunch. *)
Lemma dailyData_sums_witness :
  exists agg, dailyData scenario_T !! "2024-05-01" = Some agg
    /\ income agg = ofZ 50000 /\ expense agg = ofZ (-3000).
Proof.
  assert (Hlocal : forall t ts, In t scenario_T -> date t = Some ts ->
                     dateKeyOf ts = localDateKey JST ts).
  { intros t ts [<-|[<-|[<-|[]]]] [= <-]; vm_compute; reflexivity. }
  assert (Hepoch : forall t ts, In t scenario_T -> date t = Some ts ->
                     seconds ts <> 0).
  { intros t ts [<-|[<-|[<-|[]]]] [= <-]; discriminate. }
  assert (Hsafe : safeAmounts scenario_T).
  { split.
    - repeat constructor; vm_compute; intros; discriminate.
    - vm_compute. intros; discriminate. }
  assert (Hp : exists t, In t scenario_T /\ onLocalDate JST "2024-05-01" t = true).
  { eexists. split; [left; reflexivity|]. vm_compute. reflexivity. }
  destruct (dailyData_sums JST scenario_T "2024-05-01" Hlocal Hepoch Hsafe Hp)
    as [(agg & Hagg & Hin & Hex & _) _].
  exists agg. split; [exact Hagg|]. rewrite Hin, Hex.
  split; vm_compute; reflexivity.
Defined.

(** C5, as stated, fails: of the three deposits of 2024-05-01, of
    9007199254740992 yen, 1 yen and 1 yen, the income of the day is
    9007199254740992 and their sum is 9007199254740994. *)
Lemma dailyData_income_drifts :
  map amountZ drift_T = [9007199254740992; 1; 1]
  /\ map (onLocalDate 0 "2024-05-01") drift_T = [true; true; true]
  /\ dailyData drift_T !! "2024-05-01"
     = Some {| income := ofZ 9007199254740992; expense := zero |}
  /\ sumZ (positives (map amountZ drift_T)) = 9007199254740994
  /\ ofZ 9007199254740992 <> ofZ 9007199254740994.
Proof.
  split; [vm_compute; reflexivity|]. split; [vm_compute; reflexivity|].
  split; [rewrite dailyData_lookup; vm_compute; reflexivity|].
  split; [vm_compute; reflexivity|]. vm_compute. discriminate.
Qed.

(** C8, amended.  When every amount is a whole number of yen and the
    magnitudes of the amounts add up to at most [MAX_SAFE_INTEGER],
    [dailyData] gives the same mapping for every rearrangement of the
    list. *)
Theorem dailyData_order_independent_on_safe_amounts (T T' : list Transaction)
  (Hsafe : safeAmounts T) (Hperm : Permutation T T') :
  dailyData T' = dailyData T.
Proof.
  apply map_eq. intros k. rewrite !dailyData_lookup. by apply aggregateOf_perm.
Qed.

(** C8, witness: the scenario listed latest first, as the store delivers
    it. *)
Lemma dailyData_order_independent_on_safe_amounts_witness :
  dailyData (rev scenario_T) = dailyData scenario_T.
Proof.
  apply dailyData_order_independent_on_safe_amounts.
  - split; [|vm_compute; discriminate].
    repeat constructor; vm_compute; congruence.
  - apply Permutation_rev.
Defined.

(** C8, as stated, fails: the income of a day is a binary64 sum formed in
    list order.  The same three deposits give the income
    9007199254740992 in one order and 9007199254740994 in the other. *)
Lemma dailyData_depends_on_order :
  Permutation drift_T drift_T'
  /\ dailyData drift_T !! "2024-05-01"
     = Some {| income := ofZ (2 ^ 53); expense := zero |}
  /\ dailyData drift_T' !! "2024-05-01"
     = Some {| income := ofZ (2 ^ 53 + 2); expense := zero |}
  /\ dailyData drift_T <> dailyData drift_T'.
Proof.
  split; [exact (Permutation_cons_append
                   [deposit "b" 1 1714557600; deposit "c" 1 1714561200]
                   (deposit "a" (2 ^ 53) 1714554000))|].
  assert (H1 : dailyData drift_T !! "2024-05-01"
               = Some {| income := ofZ (2 ^ 53); expense := zero |})
    by (vm_compute; reflexivity).
  assert (H2 : dailyData drift_T' !! "2024-05-01"
               = Some {| income := ofZ (2 ^ 53 + 2); expense := zero |})
    by (vm_compute; reflexivity).
  split; [exact H1|]. split; [exact H2|].
  intros E. rewrite E, H2 in H1. vm_compute in H1. congruence.
Qed.

(** ** The day lists *)

(** C4, at the failing input: in Japan the list for 2 May 2024 (the [Date]
    of that cell of the calendar, local midnight) holds the purchases of
    10:00 and 20:00 on 1 May, the later one first, and not the purchase of
    10:00 on 2 May: the filter compares UTC dates, and the calendar date of
    a transaction is its local date. *)
Theorem dailyTransactions_lists_utc_date :
  (getFullYear JST (Date_ymd JST 2024 4 2), getMonth JST (Date_ymd JST 2024 4 2),
   getDate JST (Date_ymd JST 2024 4 2)) = (2024, 4, 2)
  /\ isoDate (Date_ymd JST 2024 4 2) = "2024-05-01"
  /\ map (onLocalDate JST "2024-05-02") [tx_1000_JST; tx_2000_JST; tx_0502_JST]
     = [false; false; true]
  /\ map (onLocalDate JST "2024-05-01") [tx_1000_JST; tx_2000_JST; tx_0502_JST]
     = [true; true; false]
  /\ dailyTransactions (Date_ymd JST 2024 4 2)
       [tx_1000_JST; tx_2000_JST; tx_0502_JST]
     = [tx_2000_JST; tx_1000_JST].
Proof. vm_compute. repeat split. Qed.







(** ** The calendar grid *)






(** ** The remaining amount *)

(** C10, amended.  The card shows
    [Math.max(0, goal.targetAmount - currentBalance)].  Let the target and
    the balance be numbers (not NaN) that are not both infinite.  Below
    the target the amount shown is the difference target - balance, and
    that is above zero; from the target on it is exactly 0; so it is never
    negative.  For whole yen in the safe range it is the integer
    max(0, target - balance).  ([valid] holds of every number the engine
    can hold.) *)
Theorem remainingShown_spec (g : Goal) (target balance : number)
  (Hg : targetAmount g = Some target)
  (Hvt : valid target = true) (Hvb : valid balance = true)
  (Ht : isNaN target = false) (Hb : isNaN balance = false)
  (Hinf : isInfinite target && isInfinite balance = false) :
  (lt balance target = true ->
     remainingShown g balance = sub target balance
     /\ gt (remainingShown g balance) zero = true)
  /\ (le target balance = true -> remainingShown g balance = zero)
  /\ (lt balance target = true \/ le target balance = true)
  /\ le zero (remainingShown g balance) = true
  /\ (forall t b,
        target = ofZ t -> balance = ofZ b ->
        Z.abs t <= MAX_SAFE_INTEGER -> Z.abs b <= MAX_SAFE_INTEGER ->
        Z.abs (t - b) <= MAX_SAFE_INTEGER ->
        remainingShown g balance = ofZ (Z.max 0 (t - b))).
Proof.
  assert (Hshown : remainingShown g balance
                   = if gt (sub target balance) zero
                     then sub target balance else zero).
  { unfold remainingShown, remaining. rewrite Hg. cbn [ToNumber].
    apply Math_max_zero. by apply sub_not_NaN. }
  assert (Hbelow : lt balance target = true ->
            remainingShown g balance = sub target balance
            /\ gt (remainingShown g balance) zero = true).
  { intros Hlt. pose proof (sub_positive target balance Hvt Hvb Hlt) as Hpos.
    rewrite Hshown, Hpos. by split. }
  assert (Habove : le target balance = true -> remainingShown g balance = zero).
  { intros Hle. by rewrite Hshown, sub_not_positive. }
  assert (Htotal : lt balance target = true \/ le target balance = true)
    by (by apply lt_or_le).
  split; [exact Hbelow|]. split; [exact Habove|]. split; [exact Htotal|]. split.
  - destruct Htotal as [Hlt|Hle].
    + destruct (Hbelow Hlt) as [_ Hpos]. by apply lt_le.
    + by rewrite (Habove Hle).
  - intros t b -> -> Hta Hba Hd. rewrite Hshown, sub_ofZ by done.
    rewrite gt_ofZ_zero by done.
    destruct (Z.ltb_spec 0 (t - b)).
    + by rewrite Z.max_r by lia.
    + by rewrite Z.max_l by lia.
Qed.

(** C10, witness: 57000 yen saved of 100000 leave 43000; 120000 yen saved
    leave 0. *)
Lemma remainingShown_spec_witness :
  remainingShown goal_100000 (ofZ 57000) = ofZ 43000
  /\ remainingShown goal_100000 (ofZ 120000) = zero.
Proof.
  split.
  - refine (proj2 (proj2 (proj2 (proj2
      (remainingShown_spec goal_100000 (ofZ 100000) (ofZ 57000)
         eq_refl eq_refl eq_refl eq_refl eq_refl eq_refl))))
      100000 57000 eq_refl eq_refl _ _ _); vm_compute; discriminate.
  - refine (proj1 (proj2
      (remainingShown_spec goal_100000 (ofZ 100000) (ofZ 120000)
         eq_refl eq_refl eq_refl eq_refl eq_refl eq_refl)) _).
    vm_compute. reflexivity.
Defined.

(** C10, as stated, fails: with a balance that is NaN the card shows NaN,
    which is not a number at or above zero; so it does for a goal without
    target, and for an infinite balance against an infinite target. *)
Lemma remainingShown_not_a_number :
  remainingShown goal_100000 NaN = NaN
  /\ le zero (remainingShown goal_100000 NaN) = false
  /\ remainingShown {| name := "Okinawa"; targetAmount := None |} (ofZ 57000) = NaN
  /\ remainingShown {| name := "Okinawa"; targetAmount := Some Infinity |} Infinity
     = NaN.
Proof. vm_compute. repeat split. Qed.

(** * Further properties of the code *)

(** ** Dates of the calendar and month navigation *)

Lemma roundTripYear_cycle : forallb roundTripYear (seq 0 400) = true.
Proof. vm_compute. reflexivity. Qed.

Lemma civil_days_cycle_base y m d :
  0 <= y < 400 -> 1 <= m <= 12 -> 1 <= d <= monthLength y (m - 1) ->
  civil_from_days (days_from_civil y m d) = (y, m, d).
Proof.
  intros Hy Hm Hd.
  pose proof (monthLength_bounds y (m - 1)) as Hb.
  pose proof (proj1 (forallb_forall _ _) roundTripYear_cycle (Z.to_nat y)) as H.
  specialize (H ltac:(apply in_seq; lia)).
  pose proof (proj1 (forallb_forall _ _) H (Z.to_nat m)) as H1.
  specialize (H1 ltac:(apply in_seq; lia)).
  pose proof (proj1 (forallb_forall _ _) H1 (Z.to_nat d)) as H2.
  specialize (H2 ltac:(apply in_seq; lia)).
  unfold roundTripDay in H2. rewrite !Z2Nat.id in H2 by lia.
  apply orb_true_iff in H2 as [H2|H2].
  - apply negb_true_iff, Z.leb_gt in H2. lia.
  - destruct (civil_from_days (days_from_civil y m d)) as [[y' m'] d'].
    rewrite !andb_true_iff in H2.
    destruct H2 as [[->%Z.eqb_eq ->%Z.eqb_eq] ->%Z.eqb_eq]. reflexivity.
Qed.

(** [civil_from_days] undoes [days_from_civil] on every date of the
    calendar. *)
Lemma civil_days_roundtrip y m d :
  1 <= m <= 12 -> 1 <= d <= monthLength y (m - 1) ->
  civil_from_days (days_from_civil y m d) = (y, m, d).
Proof.
  intros Hm Hd.
  assert (Hy : y = y mod 400 + 400 * (y / 400))
    by (pose proof (Z.div_mod y 400); lia).
  pose proof (Z.mod_pos_bound y 400 ltac:(lia)) as Hr.
  rewrite Hy at 1. rewrite days_from_civil_cycle, civil_from_days_cycle.
  rewrite Hy, monthLength_cycle in Hd.
  rewrite civil_days_cycle_base by done. cbn [fst snd].
  f_equal. f_equal. lia.
Qed.

Lemma days_from_civil_day y m d :
  days_from_civil y m d = days_from_civil y m 1 + d - 1.
Proof. unfold days_from_civil. cbv zeta. lia. Qed.

Lemma MakeDay_civil Y M D :
  1 <= D <= monthLength (Y + M / 12) (M mod 12) ->
  civil_from_days (MakeDay Y M D) = (Y + M / 12, M mod 12 + 1, D).
Proof.
  intros HD. unfold MakeDay. cbv zeta.
  rewrite <- days_from_civil_day.
  pose proof (Z.mod_pos_bound M 12 ltac:(lia)).
  apply civil_days_roundtrip; [lia|].
  by replace (M mod 12 + 1 - 1) with (M mod 12) by lia.
Qed.

Lemma local_fields_Date_ymd tz y m d :
  ~ (0 <= y <= 99) -> 1 <= d <= monthLength (y + m / 12) (m mod 12) ->
  getFullYear tz (Date_ymd tz y m d) = y + m / 12
  /\ getMonth tz (Date_ymd tz y m d) = m mod 12
  /\ getDate tz (Date_ymd tz y m d) = d.
Proof.
  intros Hy Hd.
  unfold getFullYear, getMonth, getDate, Date_ymd,
    YearFromTime, MonthFromTime, DateFromTime.
  rewrite LocalTime_UTC, Day_MakeDate, MakeFullYear_id, MakeDay_civil by done.
  cbn [fst snd]. repeat split; lia.
Qed.

Lemma getMonth_range tz t : 0 <= getMonth tz t <= 11.
Proof.
  unfold getMonth, MonthFromTime.
  destruct (civil_from_days (Day (LocalTime tz t))) as [[y m] d] eqn:E.
  apply civil_from_days_spec in E as (_ & Hm & _). cbn [fst snd]. lia.
Qed.

Lemma first_day_valid y m : 1 <= 1 <= monthLength y m.
Proof. pose proof (monthLength_bounds y m). lia. Qed.

Lemma fields_nextMonth tz d :
  ~ (0 <= getFullYear tz d <= 99) ->
  getFullYear tz (nextMonth tz d)
  = (if getMonth tz d =? 11 then getFullYear tz d + 1 else getFullYear tz d)
  /\ getMonth tz (nextMonth tz d) = (getMonth tz d + 1) mod 12
  /\ getDate tz (nextMonth tz d) = 1.
Proof.
  intros Hy. pose proof (getMonth_range tz d) as Hm. unfold nextMonth.
  destruct (local_fields_Date_ymd tz (getFullYear tz d) (getMonth tz d + 1) 1 Hy
              (first_day_valid _ _)) as (-> & -> & ->).
  repeat split.
  destruct (Z.eqb_spec (getMonth tz d) 11) as [->|Hne]; [reflexivity|].
  rewrite Z.div_small by lia. lia.
Qed.

Lemma fields_prevMonth tz d :
  ~ (0 <= getFullYear tz d <= 99) ->
  getFullYear tz (prevMonth tz d)
  = (if getMonth tz d =? 0 then getFullYear tz d - 1 else getFullYear tz d)
  /\ getMonth tz (prevMonth tz d) = (getMonth tz d - 1) mod 12
  /\ getDate tz (prevMonth tz d) = 1.
Proof.
  intros Hy. pose proof (getMonth_range tz d) as Hm. unfold prevMonth.
  destruct (local_fields_Date_ymd tz (getFullYear tz d) (getMonth tz d - 1) 1 Hy
              (first_day_valid _ _)) as (-> & -> & ->).
  repeat split.
  destruct (Z.eqb_spec (getMonth tz d) 0) as [->|Hne]; [reflexivity|].
  rewrite Z.div_small by lia. lia.
Qed.

Lemma MakeDay_carry Y M : MakeDay Y M 1 = MakeDay (Y + M / 12) (M mod 12) 1.
Proof.
  unfold MakeDay. cbv zeta.
  pose proof (Z.mod_pos_bound M 12 ltac:(lia)).
  rewrite (Z.div_small (M mod 12)), (Z.mod_small (M mod 12)) by lia.
  by rewrite Z.add_0_r.
Qed.

Lemma MakeDay_minus_one Y : MakeDay Y (-1) 1 = MakeDay (Y - 1) 11 1.
Proof.
  rewrite (MakeDay_carry Y (-1)), (MakeDay_carry (Y - 1) 11).
  change (-1 / 12) with (-1). change (-1 mod 12) with 11.
  change (11 / 12) with 0. change (11 mod 12) with 11.
  f_equal. lia.
Qed.

Lemma Date_ymd_carry tz Y M :
  ~ (0 <= Y <= 99) -> ~ (0 <= Y + M / 12 <= 99) ->
  Date_ymd tz Y M 1 = Date_ymd tz (Y + M / 12) (M mod 12) 1.
Proof.
  intros H1 H2. unfold Date_ymd.
  by rewrite !MakeFullYear_id, <- MakeDay_carry by done.
Qed.

(** X1. [nextMonth] moves the calendar to the first day of the following
    month and [prevMonth] to the first day of the preceding one, at local
    midnight, carrying into the next or previous year at December and
    January, whenever the displayed year is not one of the years 0 to 99.
    For those years the [Date] constructor reads the year as 1900 + year,
    and the calendar jumps to the twentieth century. *)
Theorem month_navigation_steps (tz d : Z) :
  let Y := getFullYear tz d in
  let M := getMonth tz d in
  (~ (0 <= Y <= 99) ->
     (getFullYear tz (nextMonth tz d), getMonth tz (nextMonth tz d),
      getDate tz (nextMonth tz d))
     = (if M =? 11 then (Y + 1, 0, 1) else (Y, M + 1, 1))
     /\ (getFullYear tz (prevMonth tz d), getMonth tz (prevMonth tz d),
         getDate tz (prevMonth tz d))
        = (if M =? 0 then (Y - 1, 11, 1) else (Y, M - 1, 1)))
  /\ (0 <= Y <= 99 ->
        getFullYear tz (nextMonth tz d) = (if M =? 11 then 1901 + Y else 1900 + Y)
        /\ getFullYear tz (prevMonth tz d) = (if M =? 0 then 1899 + Y else 1900 + Y))
  /\ TimeWithinDay (LocalTime tz (nextMonth tz d)) = 0
  /\ TimeWithinDay (LocalTime tz (prevMonth tz d)) = 0.
Proof.
  intros Y M. pose proof (getMonth_range tz d) as HM. fold M in HM.
  split; [|split; [|split]].
  - intros HY.
    destruct (fields_nextMonth tz d HY) as (-> & -> & ->).
    destruct (fields_prevMonth tz d HY) as (-> & -> & ->).
    fold Y M. split.
    + destruct (Z.eqb_spec M 11) as [->|]; [reflexivity|].
      by rewrite Z.mod_small by lia.
    + destruct (Z.eqb_spec M 0) as [->|]; [reflexivity|].
      by rewrite Z.mod_small by lia.
  - intros HY. unfold nextMonth, prevMonth, getFullYear at 1 3, Date_ymd, YearFromTime.
    fold Y M. rewrite !LocalTime_UTC, !Day_MakeDate.
    assert (MakeFullYear Y = 1900 + Y) as ->.
    { unfold MakeFullYear.
      destruct (Z.leb_spec 0 Y), (Z.leb_spec Y 99); simpl; lia. }
    rewrite !MakeDay_civil by apply first_day_valid. cbn [fst].
    split.
    + destruct (Z.eqb_spec M 11) as [->|].
      * change ((11 + 1) / 12) with 1. lia.
      * rewrite Z.div_small by lia. lia.
    + destruct (Z.eqb_spec M 0) as [->|].
      * change ((0 - 1) / 12) with (-1). lia.
      * rewrite Z.div_small by lia. lia.
  - unfold nextMonth, Date_ymd. rewrite LocalTime_UTC.
    unfold TimeWithinDay, MakeDate. rewrite Z.add_0_r. apply Z.mod_mul.
    unfold msPerDay. lia.
  - unfold prevMonth, Date_ymd. rewrite LocalTime_UTC.
    unfold TimeWithinDay, MakeDate. rewrite Z.add_0_r. apply Z.mod_mul.
    unfold msPerDay. lia.
Qed.

(** X1, witness: from 15 May 2024 in Japan to June and to April. *)
Lemma month_navigation_steps_witness :
  (getFullYear JST (nextMonth JST mid_may_JST), getMonth JST (nextMonth JST mid_may_JST),
   getDate JST (nextMonth JST mid_may_JST)) = (2024, 5, 1)
  /\ (getFullYear JST (prevMonth JST mid_may_JST),
      getMonth JST (prevMonth JST mid_may_JST),
      getDate JST (prevMonth JST mid_may_JST)) = (2024, 3, 1).
Proof.
  destruct (month_navigation_steps JST mid_may_JST) as [H _].
  assert (Hy : ~ (0 <= getFullYear JST mid_may_JST <= 99))
    by (vm_compute; intros [_ H']; by apply H').
  destruct (H Hy) as [H1 H2]. split; [exact H1 | exact H2].
Defined.

(** X2. Where the displayed year is after the year 100, going to the next
    month and back, or to the previous month and forth, leads to the first
    day (local midnight) of the displayed month; once the calendar stands
    on such a first day, as it does after any navigation, forth and back
    returns to exactly the same [Date]. *)
Theorem month_navigation_round_trip (tz d : Z)
  (HY : 100 < getFullYear tz d) :
  prevMonth tz (nextMonth tz d)
  = startOfMonth tz (getFullYear tz d) (getMonth tz d)
  /\ nextMonth tz (prevMonth tz d)
     = startOfMonth tz (getFullYear tz d) (getMonth tz d)
  /\ prevMonth tz (nextMonth tz (nextMonth tz d)) = nextMonth tz d
  /\ nextMonth tz (prevMonth tz (prevMonth tz d)) = prevMonth tz d.
Proof.
  pose proof (getMonth_range tz d) as HM.
  assert (Hy : ~ (0 <= getFullYear tz d <= 99)) by lia.
  destruct (fields_nextMonth tz d Hy) as (Hn1 & Hn2 & _).
  destruct (fields_prevMonth tz d Hy) as (Hp1 & Hp2 & _).
  assert (Hback : forall x, 100 <= getFullYear tz x ->
            prevMonth tz (nextMonth tz x)
            = startOfMonth tz (getFullYear tz x) (getMonth tz x)).
  { intros x Hx. pose proof (getMonth_range tz x) as Hmx.
    destruct (fields_nextMonth tz x ltac:(lia)) as (E1 & E2 & _).
    unfold prevMonth at 1, startOfMonth. rewrite E1, E2.
    destruct (Z.eqb_spec (getMonth tz x) 11) as [E|Hne].
    - rewrite E. change ((11 + 1) mod 12 - 1) with (-1).
      unfold Date_ymd. rewrite !MakeFullYear_id by lia.
      rewrite MakeDay_minus_one. do 3 f_equal. lia.
    - rewrite Z.mod_small by lia. f_equal. lia. }
  assert (Hforth : forall x,
            100 <= getFullYear tz x ->
            (getFullYear tz x = 100 -> getMonth tz x <> 0) ->
            nextMonth tz (prevMonth tz x)
            = startOfMonth tz (getFullYear tz x) (getMonth tz x)).
  { intros x Hx Hx'. pose proof (getMonth_range tz x) as Hmx.
    destruct (fields_prevMonth tz x ltac:(lia)) as (E1 & E2 & _).
    unfold nextMonth at 1, startOfMonth. rewrite E1, E2.
    destruct (Z.eqb_spec (getMonth tz x) 0) as [E|Hne].
    - rewrite E. change ((0 - 1) mod 12 + 1) with 12.
      unfold Date_ymd. rewrite !MakeFullYear_id by lia.
      do 2 f_equal. rewrite (MakeDay_carry _ 12).
      change (12 / 12) with 1. change (12 mod 12) with 0. f_equal. lia.
    - rewrite Z.mod_small by lia. f_equal. lia. }
  assert (Hd : Date_ymd tz (getFullYear tz d) (-1) 1
               = Date_ymd tz (getFullYear tz d - 1) 11 1).
  { unfold Date_ymd. rewrite !MakeFullYear_id by lia.
    by rewrite MakeDay_minus_one. }
  split; [apply Hback; lia|]. split; [apply Hforth; lia|]. split.
  - rewrite Hback.
    + unfold startOfMonth, nextMonth at 3. rewrite Hn1, Hn2.
      destruct (Z.eqb_spec (getMonth tz d) 11) as [E|Hne].
      * rewrite E. rewrite (Date_ymd_carry tz (getFullYear tz d) (11 + 1)) by
          (change ((11 + 1) / 12) with 1; lia).
        f_equal.
      * by rewrite Z.mod_small by lia.
    + rewrite Hn1. destruct (_ =? 11); lia.
  - rewrite Hforth.
    + unfold startOfMonth, prevMonth at 3. rewrite Hp1, Hp2.
      destruct (Z.eqb_spec (getMonth tz d) 0) as [E|Hne].
      * rewrite E. change ((0 - 1) mod 12) with 11. change (0 - 1) with (-1).
        by rewrite Hd.
      * by rewrite Z.mod_small by lia.
    + rewrite Hp1. destruct (_ =? 0); lia.
    + rewrite Hp1, Hp2. destruct (Z.eqb_spec (getMonth tz d) 0) as [E|Hne].
      * rewrite E. change ((0 - 1) mod 12) with 11. lia.
      * lia.
Qed.

(** X2, witness: 15 May 2024 in Japan. *)
Lemma month_navigation_round_trip_witness :
  prevMonth JST (nextMonth JST mid_may_JST) = startOfMonth JST 2024 4
  /\ prevMonth JST (nextMonth JST (nextMonth JST mid_may_JST))
     = nextMonth JST mid_may_JST.
Proof.
  assert (HY : 100 < getFullYear JST mid_may_JST) by (vm_compute; reflexivity).
  destruct (month_navigation_round_trip JST mid_may_JST HY) as (H1 & _ & H3 & _).
  split; [exact H1 | exact H3].
Defined.

Lemma monthStepYear_cycle : forallb monthStepYear (seq 0 400) = true.
Proof. vm_compute. reflexivity. Qed.

Lemma MakeDay_cycle y m d k :
  MakeDay (y + 400 * k) m d = MakeDay y m d + 146097 * k.
Proof.
  unfold MakeDay. cbv zeta.
  replace (y + 400 * k + m / 12) with (y + m / 12 + 400 * k) by lia.
  rewrite days_from_civil_cycle. lia.
Qed.

Lemma MakeDay_day y m d : MakeDay y m d = MakeDay y m 1 + d - 1.
Proof. unfold MakeDay. cbv zeta. lia. Qed.

(** Consecutive months start [monthLength] days apart. *)
Lemma MakeDay_month_step y m :
  0 <= m <= 11 -> MakeDay y (m + 1) 1 = MakeDay y m 1 + monthLength y m.
Proof.
  intros Hm.
  assert (Hy : y = y mod 400 + 400 * (y / 400))
    by (pose proof (Z.div_mod y 400); lia).
  pose proof (Z.mod_pos_bound y 400 ltac:(lia)) as Hr.
  rewrite Hy, !MakeDay_cycle, monthLength_cycle.
  pose proof (proj1 (forallb_forall _ _) monthStepYear_cycle
                (Z.to_nat (y mod 400))) as H.
  specialize (H ltac:(apply in_seq; lia)).
  pose proof (proj1 (forallb_forall _ _) H (Z.to_nat m)) as H1.
  specialize (H1 ltac:(apply in_seq; lia)).
  unfold monthStepMonth in H1. rewrite !Z2Nat.id in H1 by lia.
  apply Z.eqb_eq in H1. lia.
Qed.

Lemma Day_Date_ymd tz y m d :
  Day (Date_ymd tz y m d) = MakeDay (MakeFullYear y) m d + (- tz) / msPerDay.
Proof.
  unfold Day, Date_ymd, UTC, MakeDate, msPerDay.
  Z.to_euclidean_division_equations; lia.
Qed.

(** X3. Every day of the displayed month stands in the grid in the column of
    its own weekday (the grid has seven columns, Sunday first): the cell of
    day [day] is at index [startDay + day - 1], and that index modulo 7 is
    [getDay] of the cell's date.  For a month 0..11 of a year that the
    [Date] constructor takes as it is, the cell's date has the displayed
    year and month and the day of the cell as its local fields. *)
Theorem day_cells_in_weekday_columns (tz year month : Z) (T : list Transaction)
  (day : nat) (Hday : (1 <= day <= daysInMonth tz year month)%nat) :
  let date := Date_ymd tz year month (Z.of_nat day) in
  let i := (startDay tz year month + day - 1)%nat in
  calendarDays tz year month T !! i
  = Some (DayCell day (isoDate date) (dailyData T !! isoDate date))
  /\ Z.of_nat (i mod 7) = getDay tz date
  /\ (0 <= month <= 11 -> ~ (0 <= year <= 99) ->
      getFullYear tz date = year /\ getMonth tz date = month
      /\ getDate tz date = Z.of_nat day).
Proof.
  intros date i. split; [|split].
  - unfold i. by rewrite lookup_calendarDays_day.
  - unfold i, date. rewrite getDay_Date_ymd, MakeDay_day.
    pose proof (startDay_weekday tz year month) as Hs.
    unfold weekdayOfFirst in Hs.
    zify. Z.to_euclidean_division_equations. lia.
  - intros Hm Hy.
    pose proof (daysInMonth_monthLength tz year month Hm) as Hn.
    rewrite MakeFullYear_id in Hn by done.
    destruct (local_fields_Date_ymd tz year month (Z.of_nat day) Hy) as (H1 & H2 & H3).
    + rewrite Z.div_small, Z.mod_small, Z.add_0_r by lia. lia.
    + rewrite Z.div_small, Z.add_0_r in H1 by lia.
      rewrite Z.mod_small in H2 by lia. done.
Qed.

(** X3, witness: 15 May 2024 in Japan, a Wednesday, is the 18th cell. *)
Lemma day_cells_in_weekday_columns_witness :
  calendarDays JST 2024 4 scenario_T !! 17%nat
  = Some (DayCell 15 "2024-05-14" None)
  /\ getDay JST (Date_ymd JST 2024 4 15) = 3.
Proof.
  assert (Hday : (1 <= 15 <= daysInMonth JST 2024 4)%nat)
    by (vm_compute; split; apply Nat.leb_le; reflexivity).
  destruct (day_cells_in_weekday_columns JST 2024 4 scenario_T 15 Hday)
    as (H1 & H2 & _).
  split.
  - etransitivity; [exact H1|]. vm_compute. reflexivity.
  - etransitivity; [symmetry; exact H2|]. vm_compute. reflexivity.
Defined.

(** X4. The key under which a day cell looks up its aggregate.  On a host
    at or west of UTC it is the date of the cell.  On a host east of UTC,
    where local midnight is still the previous day in UTC, it is the date
    of the day before: the cell of day [day > 1] shows the aggregate of day
    [day - 1], and the cell of day 1 that of the last day of the month
    before. *)
Theorem dayCell_key (tz year month : Z) (T : list Transaction) (day : nat)
  (Hy : ~ (0 <= year <= 99)) (Hm : 0 <= month <= 11)
  (Hday : (1 <= day <= daysInMonth tz year month)%nat) :
  (- msPerDay < tz <= 0 ->
     let k := ymdString (year, month + 1, Z.of_nat day) in
     dayCell tz year month T day = DayCell day k (dailyData T !! k))
  /\ (0 < tz <= msPerDay -> (2 <= day)%nat ->
        let k := ymdString (year, month + 1, Z.of_nat day - 1) in
        dayCell tz year month T day = DayCell day k (dailyData T !! k))
  /\ (0 < tz <= msPerDay -> day = 1%nat -> ~ (0 <= year - 1 <= 99) ->
        let '(py, pm) := monthBefore year month in
        let k := ymdString (py, pm + 1, monthLength py pm) in
        dayCell tz year month T day = DayCell day k (dailyData T !! k)).
Proof.
  pose proof (daysInMonth_monthLength tz year month Hm) as Hn.
  rewrite MakeFullYear_id in Hn by done.
  assert (Hkey : forall k,
            isoDate (Date_ymd tz year month (Z.of_nat day)) = k ->
            dayCell tz year month T day = DayCell day k (dailyData T !! k)).
  { intros k <-. reflexivity. }
  assert (Hwest : - msPerDay < tz <= 0 -> (- tz) / msPerDay = 0)
    by (intros ?; unfold msPerDay in *; Z.to_euclidean_division_equations; lia).
  assert (Heast : 0 < tz <= msPerDay -> (- tz) / msPerDay = -1)
    by (intros ?; unfold msPerDay in *; Z.to_euclidean_division_equations; lia).
  split; [|split].
  - intros Htz k. apply Hkey. unfold k.
    rewrite isoDate_ymd, Day_Date_ymd, Hwest, Z.add_0_r, MakeFullYear_id by done.
    rewrite MakeDay_civil
      by (rewrite Z.div_small, Z.mod_small, Z.add_0_r by lia; lia).
    by rewrite Z.div_small, Z.mod_small, Z.add_0_r by lia.
  - intros Htz Hd k. apply Hkey. unfold k.
    rewrite isoDate_ymd, Day_Date_ymd, Heast, MakeFullYear_id by done.
    replace (MakeDay year month (Z.of_nat day) + -1)
      with (MakeDay year month (Z.of_nat day - 1))
      by (rewrite (MakeDay_day _ _ (Z.of_nat day)), (MakeDay_day _ _ (_ - 1)); lia).
    rewrite MakeDay_civil
      by (rewrite Z.div_small, Z.mod_small, Z.add_0_r by lia; lia).
    by rewrite Z.div_small, Z.mod_small, Z.add_0_r by lia.
  - intros Htz -> Hy'. unfold monthBefore.
    destruct (Z.eqb_spec month 0) as [->|Hne].
    + apply Hkey.
      rewrite isoDate_ymd, Day_Date_ymd, Heast, MakeFullYear_id by done.
      pose proof (monthLength_bounds (year - 1) 11) as Hb.
      replace (MakeDay year 0 (Z.of_nat 1) + -1)
        with (MakeDay (year - 1) 11 (monthLength (year - 1) 11)).
      * rewrite MakeDay_civil by (change (11 / 12) with 0;
          change (11 mod 12) with 11; rewrite Z.add_0_r; lia).
        change (11 / 12) with 0. change (11 mod 12) with 11.
        by rewrite Z.add_0_r.
      * change (Z.of_nat 1) with 1. rewrite (MakeDay_day _ _ (monthLength _ _)).
        pose proof (MakeDay_month_step (year - 1) 11 ltac:(lia)) as Hstep.
        rewrite (MakeDay_carry (year - 1) (11 + 1)) in Hstep.
        change ((11 + 1) / 12) with 1 in Hstep.
        change ((11 + 1) mod 12) with 0 in Hstep.
        replace (year - 1 + 1) with year in Hstep by lia. lia.
    + apply Hkey.
      rewrite isoDate_ymd, Day_Date_ymd, Heast, MakeFullYear_id by done.
      pose proof (monthLength_bounds year (month - 1)) as Hb.
      replace (MakeDay year month (Z.of_nat 1) + -1)
        with (MakeDay year (month - 1) (monthLength year (month - 1))).
      * rewrite MakeDay_civil
          by (rewrite Z.div_small, Z.mod_small, Z.add_0_r by lia; lia).
        by rewrite Z.div_small, Z.mod_small, Z.add_0_r by lia.
      * change (Z.of_nat 1) with 1. rewrite (MakeDay_day _ _ (monthLength _ _)).
        pose proof (MakeDay_month_step year (month - 1) ltac:(lia)) as Hstep.
        replace (month - 1 + 1) with month in Hstep by lia. lia.
Qed.

(** X4, witness: in Japan the cell of 2 May 2024 shows the aggregate filed
    under 2024-05-01, and the cell of 1 May looks under 2024-04-30. *)
Lemma dayCell_key_witness :
  dayCell JST 2024 4 scenario_T 2
  = DayCell 2 "2024-05-01" (dailyData scenario_T !! "2024-05-01")
  /\ dayCell JST 2024 4 scenario_T 1
     = DayCell 1 "2024-04-30" (dailyData scenario_T !! "2024-04-30").
Proof.
  assert (Hy : ~ (0 <= 2024 <= 99)) by lia.
  assert (Hm : 0 <= 4 <= 11) by lia.
  assert (Htz : 0 < JST <= msPerDay) by (vm_compute; split; [reflexivity | discriminate]).
  split.
  - assert (Hday : (1 <= 2 <= daysInMonth JST 2024 4)%nat)
      by (vm_compute; split; apply Nat.leb_le; reflexivity).
    destruct (dayCell_key JST 2024 4 scenario_T 2 Hy Hm Hday) as (_ & H & _).
    exact (H Htz ltac:(lia)).
  - assert (Hday : (1 <= 1 <= daysInMonth JST 2024 4)%nat)
      by (vm_compute; split; apply Nat.leb_le; reflexivity).
    destruct (dayCell_key JST 2024 4 scenario_T 1 Hy Hm Hday) as (_ & _ & H).
    exact (H Htz eq_refl ltac:(lia)).
Defined.

(** X5. Months follow one another without a gap: in local time the day
    that [nextMonth] sets is [daysInMonth] days after the first day of the
    displayed month, so the grid of the next month starts ([startDay]) in
    the column after the last day of the displayed month. *)
Theorem next_month_continues_grid (tz d : Z) (HY : 100 <= getFullYear tz d) :
  let Y := getFullYear tz d in
  let M := getMonth tz d in
  let next := nextMonth tz d in
  Day (LocalTime tz next)
  = Day (LocalTime tz (startOfMonth tz Y M)) + Z.of_nat (daysInMonth tz Y M)
  /\ startDay tz (getFullYear tz next) (getMonth tz next)
     = ((startDay tz Y M + daysInMonth tz Y M) mod 7)%nat.
Proof.
  intros Y M next.
  pose proof (getMonth_range tz d) as HM. fold M in HM.
  pose proof (daysInMonth_monthLength tz Y M HM) as Hn.
  rewrite MakeFullYear_id in Hn by (unfold Y; lia).
  split.
  { unfold next, nextMonth, startOfMonth, Date_ymd. fold Y M.
    rewrite !LocalTime_UTC, !Day_MakeDate.
    rewrite MakeFullYear_id by (unfold Y; lia).
    rewrite MakeDay_month_step, Hn by done. lia. }
  apply Nat2Z.inj.
  pose proof (startDay_weekday tz Y M) as Hs. unfold weekdayOfFirst in Hs.
  rewrite MakeFullYear_id in Hs by (unfold Y; lia).
  unfold startDay at 1, startOfMonth, next, nextMonth. fold Y M.
  rewrite Z2Nat.id.
  - destruct (local_fields_Date_ymd tz Y (M + 1) 1 ltac:(unfold Y; lia)
                (first_day_valid _ _)) as (F1 & F2 & _).
    rewrite F1, F2. rewrite <- Date_ymd_carry.
    + rewrite getDay_Date_ymd, MakeFullYear_id by (unfold Y; lia).
      rewrite MakeDay_month_step by done.
      zify. Z.to_euclidean_division_equations. lia.
    + unfold Y. lia.
    + unfold Y in *. Z.to_euclidean_division_equations. lia.
  - unfold getDay, WeekDay. by apply Z.mod_pos_bound.
Qed.

(** X5, witness: May 2024 has 31 days and starts on a Wednesday, so June
    starts on a Saturday. *)
Lemma next_month_continues_grid_witness :
  startDay JST (getFullYear JST (nextMonth JST mid_may_JST))
    (getMonth JST (nextMonth JST mid_may_JST))
  = ((startDay JST 2024 4 + daysInMonth JST 2024 4) mod 7)%nat.
Proof.
  assert (HY : 100 <= getFullYear JST mid_may_JST)
    by (vm_compute; discriminate).
  exact (proj2 (next_month_continues_grid JST mid_may_JST HY)).
Defined.

(** ** The dashboard *)

Lemma filter_length_pos {A} (f : A -> bool) (l : list A) :
  (0 <? length (List.filter f l))%nat = true <-> List.filter f l <> [].
Proof.
  destruct (List.filter f l); simpl; split; try done.
Qed.

Lemma dailyTransactions_nil d T :
  dailyTransactions d T = [] <-> List.filter (onDateKey (isoDate d)) T = [].
Proof.
  unfold dailyTransactions, filterByKey. cbv zeta. split.
  - intros H. pose proof (sort_desc_perm (List.filter (onDateKey (isoDate d)) T)) as Hp.
    rewrite H in Hp. by apply Permutation_nil in Hp.
  - by intros ->.
Qed.

Lemma handleDateClick_open T d st :
  dailyTransactions d T <> [] ->
  handleDateClick T d st = setIsDetailModalOpen true (setSelectedDate (Some d) st).
Proof.
  intros H. rewrite dailyTransactions_nil in H.
  apply filter_length_pos in H. unfold handleDateClick. cbv zeta.
  by rewrite H.
Qed.

Lemma handleDateClick_idle T d st :
  dailyTransactions d T = [] -> handleDateClick T d st = st.
Proof.
  intros H%dailyTransactions_nil. unfold handleDateClick. cbv zeta.
  by rewrite H.
Qed.

(** X6. A click on a date opens the day's modal exactly when some dated
    transaction has the key of that date; it then selects the date, leaves
    the rest of the state alone, and the list the modal computes is not
    empty.  Otherwise the click changes nothing. *)
Theorem handleDateClick_opens_days_with_transactions
    (T : list Transaction) (d : Z) (st : Dashboard) :
  (dailyTransactions d T <> [] <->
     exists t ts, In t T /\ date t = Some ts /\ dateKeyOf ts = isoDate d)
  /\ (dailyTransactions d T <> [] ->
        handleDateClick T d st
        = setIsDetailModalOpen true (setSelectedDate (Some d) st))
  /\ (dailyTransactions d T = [] -> handleDateClick T d st = st).
Proof.
  split; [|split].
  - rewrite dailyTransactions_nil, filter_nonempty_iff. split.
    + intros (t & Ht & Hk). apply onDateKey_spec in Hk as (ts & Hts & Hk).
      by exists t, ts.
    + intros (t & ts & Ht & Hts & Hk). exists t. split; [done|].
      apply onDateKey_spec. by exists ts.
  - apply handleDateClick_open.
  - apply handleDateClick_idle.
Qed.

(** X7. The calendar marks a day cell as clickable when it has an
    aggregate ([dataForDay]).  A click on such a cell always opens the
    day's modal, on the date of the cell, and the modal lists every
    transaction that the aggregate counts.  A click on a cell without
    aggregate changes nothing, provided no timestamp has [seconds] 0 (which
    the aggregation skips and the click does not). *)
Theorem clickable_cells_open_their_day (tz year month : Z)
    (T : list Transaction) (day : nat) (st : Dashboard) :
  let cellDate := Date_ymd tz year month (Z.of_nat day) in
  let st' := handleDateClick T cellDate st in
  exists k dataForDay,
    dayCell tz year month T day = DayCell day k dataForDay
    /\ (is_Some dataForDay ->
          isDetailModalOpen st' = true /\ selectedDate st' = Some cellDate
          /\ dailyTransactions cellDate T <> []
          /\ forall t, In t T -> bucketKey t = Some k ->
               In t (dailyTransactions cellDate T))
    /\ (dataForDay = None ->
          (forall t ts, In t T -> date t = Some ts -> seconds ts <> 0) ->
          st' = st).
Proof.
  intros cellDate st'.
  exists (isoDate cellDate), (dailyData T !! isoDate cellDate).
  split; [reflexivity|].
  assert (Hin : forall t, In t T -> bucketKey t = Some (isoDate cellDate) ->
                  In t (dailyTransactions cellDate T)).
  { intros t Ht Hk. apply dailyTransactions_In. split; [done|].
    unfold bucketKey in Hk. destruct (date t) as [ts|]; [|done].
    exists ts. split; [done|]. destruct (seconds ts =? 0); congruence. }
  split.
  - intros [agg Hagg]. rewrite dailyData_lookup in Hagg.
    assert (Hne : List.filter (inBucket (isoDate cellDate)) T <> []).
    { intros E. by rewrite (aggregateOf_empty _ _ E) in Hagg. }
    apply filter_nonempty_iff in Hne as (t & Ht & Hb%inBucket_spec).
    assert (Hd : dailyTransactions cellDate T <> []).
    { intros E. pose proof (Hin t Ht Hb) as Hi. by rewrite E in Hi. }
    unfold st'.
    rewrite (handleDateClick_open T cellDate st Hd).
    done.
  - intros Hnone Hsec. unfold st'.
    apply handleDateClick_idle.
    apply dailyTransactions_nil, filter_nil_iff. intros t Ht.
    rewrite dailyData_lookup in Hnone.
    rewrite onDateKey_inBucket by (intros ts; by apply Hsec).
    destruct (inBucket (isoDate cellDate) t) eqn:E; [|done].
    assert (Hne : List.filter (inBucket (isoDate cellDate)) T <> []).
    { apply filter_nonempty_iff. by exists t. }
    by rewrite (aggregateOf_nonempty _ _ Hne) in Hnone.
Qed.

Lemma Dashboard_run_snoc trace T ev :
  Dashboard_run (trace ++ [(T, ev)]) = Dashboard_step T ev (Dashboard_run trace).
Proof. unfold Dashboard_run. by rewrite fold_left_app. Qed.

(** X8. In every state the dashboard can reach, whatever the user does
    and however the transaction list changes in between, the day's modal is
    open only with a selected date, and a selected date is always a date
    that was clicked when it had transactions. *)
Theorem detail_modal_has_clicked_date
    (trace : list (list Transaction * DashboardEvent)) :
  let st := Dashboard_run trace in
  (isDetailModalOpen st = true -> is_Some (selectedDate st))
  /\ (forall d, selectedDate st = Some d ->
        exists T, In (T, ClickDate d) trace /\ dailyTransactions d T <> []).
Proof.
  induction trace as [|[T ev] trace IH] using rev_ind; [by split|].
  cbv zeta in *. rewrite Dashboard_run_snoc.
  destruct IH as [IH1 IH2].
  assert (Hold : forall d,
            selectedDate (Dashboard_run trace) = Some d ->
            exists T', In (T', ClickDate d) (trace ++ [(T, ev)])
                       /\ dailyTransactions d T' <> []).
  { intros d Hd. destruct (IH2 d Hd) as (T' & Hin & Hne).
    exists T'. split; [|done]. apply in_or_app. by left. }
  destruct ev as [| | | |v|d0| |t|]; simpl;
    try (split; [exact IH1 | exact Hold]);
    try (split; [done | exact Hold]).
  destruct (dailyTransactions d0 T) as [|t0 l0] eqn:E.
  - rewrite (handleDateClick_idle _ _ _ E). by split.
  - assert (Hne : dailyTransactions d0 T <> []) by (by rewrite E).
    rewrite (handleDateClick_open _ _ _ Hne). simpl. split; [by eexists|].
    intros d [= <-]. exists T. split; [|done].
    apply in_or_app. right. by left.
Qed.

(** ** The lines of a day cell *)

Lemma sumZ_positives_pos ns : 0 < sumZ (positives ns) <-> exists n, In n ns /\ 0 < n.
Proof.
  unfold positives. induction ns as [|n ns IH]; simpl.
  - split; [lia|]. by intros (? & [] & _).
  - assert (Hnn : 0 <= sumZ (List.filter (fun n => 0 <? n) ns)).
    { clear. induction ns as [|m ns IH]; simpl; [lia|].
      destruct (Z.ltb_spec 0 m); simpl; lia. }
    destruct (Z.ltb_spec 0 n); simpl.
    + split; [|lia]. intros _. exists n. split; [by left | done].
    + rewrite IH. split.
      * intros (m & Hm & Hpos). exists m. split; [by right | done].
      * intros (m & [->|Hm] & Hpos); [lia|]. by exists m.
Qed.

Lemma sumZ_negatives_neg ns : sumZ (negatives ns) < 0 <-> exists n, In n ns /\ n < 0.
Proof.
  unfold negatives. induction ns as [|n ns IH]; simpl.
  - split; [lia|]. by intros (? & [] & _).
  - assert (Hnn : sumZ (List.filter (fun n => n <? 0) ns) <= 0).
    { clear. induction ns as [|m ns IH]; simpl; [lia|].
      destruct (Z.ltb_spec m 0); simpl; lia. }
    destruct (Z.ltb_spec n 0); simpl.
    + split; [|lia]. intros _. exists n. split; [by left | done].
    + rewrite IH. split.
      * intros (m & Hm & Hneg). exists m. split; [by right | done].
      * intros (m & [->|Hm] & Hneg); [lia|]. by exists m.
Qed.

(** X9. What a day cell shows, for amounts in whole yen within the safe
    range: the income line ([dataForDay.income > 0]) appears exactly when
    a transaction of the day has a positive amount, and the expense line
    ([dataForDay.expense < 0]) exactly when one has a negative amount.  A
    day with nothing but amounts of zero is clickable and shows neither. *)
Theorem day_cell_lines (T : list Transaction) (k : string)
    (dataForDay : DailyAggregate)
    (Hsafe : safeAmounts T) (Hdata : dailyData T !! k = Some dataForDay) :
  (showsIncome dataForDay = true <->
     exists t, In t T /\ bucketKey t = Some k /\ gt (amount t) zero = true)
  /\ (showsExpense dataForDay = true <->
        exists t, In t T /\ bucketKey t = Some k /\ lt (amount t) zero = true).
Proof.
  rewrite dailyData_lookup in Hdata. apply aggregateOf_Some in Hdata.
  set (L := List.filter (inBucket k) T) in *.
  assert (HL : safeAmounts L) by (by apply safeAmounts_filter).
  destruct HL as [Hall Hb].
  assert (HinL : forall t, In t L <-> In t T /\ bucketKey t = Some k).
  { intros t. unfold L. rewrite filter_In, inBucket_spec. done. }
  assert (Hsafe_t : forall t, In t L -> isSafeInteger (amount t)).
  { intros t Ht. rewrite Forall_forall in Hall. by apply Hall, list_elem_of_In. }
  subst dataForDay. unfold showsIncome, showsExpense. cbn [income expense].
  rewrite !sumAmounts_safe by (by apply safeAmounts_filter).
  rewrite map_amountZ_incomes, sumZ_others by done.
  pose proof (sumZ_le_sumAbs (positives (map amountZ L))) as Hp.
  pose proof (sumZ_le_sumAbs (negatives (map amountZ L))) as Hn.
  pose proof (sumAbs_filter (fun n => 0 <? n) (map amountZ L)) as Hp'.
  pose proof (sumAbs_filter (fun n => n <? 0) (map amountZ L)) as Hn'.
  fold (positives (map amountZ L)) in Hp'. fold (negatives (map amountZ L)) in Hn'.
  rewrite gt_ofZ_zero, lt_ofZ_zero by lia.
  rewrite Z.ltb_lt, Z.ltb_lt, sumZ_positives_pos, sumZ_negatives_neg.
  split; split.
  - intros (n & Hin & Hpos). apply in_map_iff in Hin as (t & <- & Ht).
    exists t. destruct (proj1 (HinL t) Ht) as [HT Hk]. repeat split; try done.
    rewrite (gt_zero_safe _ (Hsafe_t t Ht)). by apply Z.ltb_lt.
  - intros (t & HT & Hk & Hgt).
    assert (Ht : In t L) by (by apply HinL).
    exists (amountZ t). split; [by apply in_map|].
    rewrite (gt_zero_safe _ (Hsafe_t t Ht)) in Hgt. by apply Z.ltb_lt in Hgt.
  - intros (n & Hin & Hneg). apply in_map_iff in Hin as (t & <- & Ht).
    exists t. destruct (proj1 (HinL t) Ht) as [HT Hk]. repeat split; try done.
    rewrite (lt_zero_safe _ (Hsafe_t t Ht)). by apply Z.ltb_lt.
  - intros (t & HT & Hk & Hlt).
    assert (Ht : In t L) by (by apply HinL).
    exists (amountZ t). split; [by apply in_map|].
    rewrite (lt_zero_safe _ (Hsafe_t t Ht)) in Hlt. by apply Z.ltb_lt in Hlt.
Qed.

(** X9, witness: 2024-05-01 of the scenario shows both lines. *)
Lemma day_cell_lines_witness :
  showsIncome {| income := ofZ 50000; expense := ofZ (-3000) |} = true
  /\ exists t, In t scenario_T /\ bucketKey t = Some "2024-05-01"
               /\ gt (amount t) zero = true.
Proof.
  assert (Hsafe : safeAmounts scenario_T).
  { split.
    - repeat constructor; vm_compute; intros; discriminate.
    - vm_compute. intros; discriminate. }
  assert (Hdata : dailyData scenario_T !! "2024-05-01"
                  = Some {| income := ofZ 50000; expense := ofZ (-3000) |}).
  { rewrite dailyData_lookup. vm_compute. reflexivity. }
  destruct (day_cell_lines scenario_T "2024-05-01" _ Hsafe Hdata) as [[H _] _].
  split; [reflexivity|]. apply H. reflexivity.
Defined.

(** ** Forms and handlers *)

Lemma gt_zero_truthy x : gt x zero = true -> ToBoolean x = true.
Proof. by destruct x as [[]|[]| |[] m e]. Qed.

Lemma gt_zero_neg x :
  gt x zero = true -> gt (neg x) zero = false /\ lt (neg x) zero = true.
Proof. by destruct x as [[]|[]| |[] m e]. Qed.

Lemma not_truthy_neg x :
  ToBoolean x = false -> gt x zero = false /\ gt (neg x) zero = false.
Proof. by destruct x as [[]|[]| |[] m e]. Qed.

Lemma Math_abs_positive x : gt x zero = true -> Math_abs x = x.
Proof. by destruct x as [[]|[]| |[] m e]. Qed.

Lemma neg_Math_abs_negative x :
  gt x zero = false -> ToBoolean x = true -> neg (Math_abs x) = x.
Proof. by destruct x as [[]|[]| |[] m e]. Qed.

Lemma ToBoolean_Math_abs x : ToBoolean (Math_abs x) = ToBoolean x.
Proof. by destruct x as [[]|[]| |[] m e]. Qed.

Lemma nonEmpty_spec s : nonEmpty s = true <-> s <> EmptyString.
Proof. by destruct s. Qed.

(** X10. [TransactionForm.handleSubmit] sends nothing and keeps the form as
    it is when the amount or the description is empty.  Otherwise it sends
    one transaction and clears both fields; [handleAddAndClose] closes the
    form and [handleAddTransaction] adds the document.  In the transaction
    that comes back from the store the description is the one entered, and
    when the amount parses to a number above zero the sign follows the
    type: the list and the calendar, which go by [amount > 0], show an
    income as income and an expense as expense.  An amount that parses to
    zero or to NaN is never shown as income, also when entered as one. *)
Theorem TransactionForm_submit (host : Host) (st : TransactionForm.State) :
  let st' := fst (TransactionForm.handleSubmit host st) in
  let sent := snd (TransactionForm.handleSubmit host st) in
  let parsed := parseFloat host (TransactionForm.amount st) in
  ((TransactionForm.amount st = EmptyString
    \/ TransactionForm.description st = EmptyString) ->
   sent = None /\ st' = st)
  /\ (TransactionForm.amount st <> EmptyString ->
      TransactionForm.description st <> EmptyString ->
      exists tx,
        sent = Some tx
        /\ st' = {| TransactionForm.type := TransactionForm.type st;
                    TransactionForm.amount := EmptyString;
                    TransactionForm.description := EmptyString |}
        /\ forall c dash dash' w i dt t,
             handleAddAndClose c tx dash = (dash', Some w) ->
             transactionAdded w i dt = Some t ->
             showTransactionForm dash' = false
             /\ description t = TransactionForm.description st
             /\ (gt parsed zero = true ->
                 (isIncome t = true <-> TransactionForm.type st = IncomeType)
                 /\ (isExpense t = true <-> TransactionForm.type st = ExpenseType))
             /\ (ToBoolean parsed = false -> isIncome t = false)).
Proof.
  intros st' sent parsed. subst st' sent parsed.
  unfold TransactionForm.handleSubmit.
  destruct st as [ty a d]. cbn [TransactionForm.amount TransactionForm.description
    TransactionForm.type] in *.
  split.
  - intros [-> | ->]; [done | by destruct a].
  - intros Ha%nonEmpty_spec Hd%nonEmpty_spec. rewrite Ha, Hd. cbn [negb orb fst snd].
    eexists. split; [reflexivity|]. split; [reflexivity|].
    intros c dash dash' w i dt t. unfold handleAddAndClose, handleAddTransaction.
    cbn [TransactionForm.newType TransactionForm.newDescription TransactionForm.newAmount].
    destruct (negb (connected c)); [done|].
    intros [= <- <-]. cbn [transactionAdded]. intros [= <-].
    unfold isIncome, isExpense. cbn [amount description].
    split; [reflexivity|]. split; [reflexivity|]. split.
    + intros Hpos. destruct (gt_zero_neg _ Hpos) as [Hn1 Hn2].
      assert (Hlt : lt (parseFloat host a) zero = false)
        by (by destruct (parseFloat host a) as [[]|[]| |[] m e]).
      destruct ty; cbn [finalAmount parseFloatOf].
      * rewrite Hpos, Hlt. by split.
      * rewrite Hn1, Hn2. by split.
    + intros Hz. destruct (not_truthy_neg _ Hz).
      by destruct ty; cbn [finalAmount parseFloatOf].
Qed.

(** X11. [TransactionEditorModal], opened on a transaction whose amount is
    neither zero nor NaN.  Saving with the amount field left as it is sends
    the magnitude of the amount with the sign of the type chosen, positive
    for an income and negative for an expense, together with the
    description entered; with the type also left as it is, that is the
    transaction's own amount.  [handleUpdateAndClose] closes the editor and
    [handleUpdateTransaction] sends the update under the transaction's id.
    This needs the amount to survive the conversion to a string and back
    that [parseFloat] makes.  When the amount of the transaction is zero
    or NaN, saving does nothing as long as the amount field is left as it
    is, whatever is chosen and typed. *)
Theorem TransactionEditorModal_untouched_save (host : Host) (t : Transaction)
    (Hrt : parseFloat host (NumberToString host (Math_abs (amount t)))
           = Math_abs (amount t)) :
  let opened := TransactionEditorModal.initial t in
  let edited ty d :=
    {| TransactionEditorModal.type := ty;
       TransactionEditorModal.amount := TransactionEditorModal.amount opened;
       TransactionEditorModal.description := d |} in
  (ToBoolean (amount t) = true ->
   forall ty d, d <> EmptyString ->
     exists upd,
       TransactionEditorModal.handleSubmit host t (edited ty d) = Some upd
       /\ TransactionEditorModal.updAmount upd
          = match ty with
            | IncomeType => Math_abs (amount t)
            | ExpenseType => neg (Math_abs (amount t))
            end
       /\ (ty = TransactionEditorModal.type opened ->
           TransactionEditorModal.updAmount upd = amount t)
       /\ forall c dash,
            connected c = true ->
            handleUpdateAndClose c upd dash
            = (setTransactionToEdit None dash,
               Some (UpdateTransaction (id t) d
                       (TransactionEditorModal.updAmount upd) ty)))
  /\ (ToBoolean (amount t) = true -> description t <> EmptyString ->
      TransactionEditorModal.handleSubmit host t opened
      = Some {| TransactionEditorModal.updId := id t;
                TransactionEditorModal.updDescription := description t;
                TransactionEditorModal.updAmount := amount t;
                TransactionEditorModal.updType :=
                  if gt (amount t) zero then IncomeType else ExpenseType |})
  /\ (ToBoolean (amount t) = false ->
      forall ty d, TransactionEditorModal.handleSubmit host t (edited ty d) = None).
Proof.
  intros opened edited. subst opened edited.
  destruct t as [i d0 a dt]. cbn [amount description id] in *.
  unfold TransactionEditorModal.handleSubmit, TransactionEditorModal.initial.
  cbn [TransactionEditorModal.amount TransactionEditorModal.description
       TransactionEditorModal.type truthy].
  rewrite ToBoolean_Math_abs.
  assert (Hsame : ToBoolean a = true ->
            finalAmount host (if gt a zero then IncomeType else ExpenseType)
              (Num (Math_abs a)) = a).
  { intros Ht. destruct (gt a zero) eqn:Hgt; cbn [finalAmount parseFloatOf];
      rewrite Hrt.
    - by apply Math_abs_positive.
    - by apply neg_Math_abs_negative. }
  split; [|split].
  - intros Ht ty d Hd%nonEmpty_spec. rewrite Ht, Hd. cbn [negb orb].
    eexists. split; [reflexivity|].
    cbn [TransactionEditorModal.updAmount TransactionEditorModal.updId
         TransactionEditorModal.updDescription TransactionEditorModal.updType].
    split; [|split].
    + destruct ty; cbn [finalAmount parseFloatOf]; by rewrite Hrt.
    + intros ->. by apply Hsame.
    + intros c dash Hc. unfold handleUpdateAndClose, handleUpdateTransaction.
      cbn [TransactionEditorModal.updAmount TransactionEditorModal.updId
           TransactionEditorModal.updDescription TransactionEditorModal.updType].
      by rewrite Hc.
  - intros Ht Hd%nonEmpty_spec. rewrite Ht, Hd. cbn [negb orb].
    by rewrite Hsame.
  - intros Ht ty d. by rewrite Ht.
Qed.

(** X11, witness: the purchase of 800 yen, on a host that reads and writes
    whole numbers as decimal numerals. *)
Lemma TransactionEditorModal_untouched_save_witness :
  TransactionEditorModal.handleSubmit numeralHost tx_0800_JST
    (TransactionEditorModal.initial tx_0800_JST)
  = Some {| TransactionEditorModal.updId := "j1";
            TransactionEditorModal.updDescription := "breakfast";
            TransactionEditorModal.updAmount := ofZ (-800);
            TransactionEditorModal.updType := ExpenseType |}.
Proof.
  assert (Hrt : parseFloat numeralHost
                  (NumberToString numeralHost (Math_abs (amount tx_0800_JST)))
                = Math_abs (amount tx_0800_JST)) by (vm_compute; reflexivity).
  assert (Hd : description tx_0800_JST <> EmptyString) by discriminate.
  exact (proj1 (proj2 (TransactionEditorModal_untouched_save numeralHost
                         tx_0800_JST Hrt)) eq_refl Hd).
Defined.

Lemma progress_positive_target B n x :
  gt x zero = true ->
  progress B (Some {| name := n; targetAmount := Some x |})
  = clamp (mul (div B x) (ofZ 100)).
Proof.
  intros Hx. unfold progress. cbn [targetAmount].
  by rewrite (gt_zero_truthy x Hx).
Qed.

(** X12. Goals the application writes.  [GoalSetter] sends a goal only for
    a name that is not empty and a target that converts to a number above
    zero, and a second submit while the first is pending sends nothing;
    [GoalEditorModal] sends an update under the same conditions, and sends
    the goal's own name and target again when saved untouched.  For the
    goal that either form writes [progress] never takes its short cut to
    0: it is the ratio of balance and target, times 100, clamped. *)
Theorem goal_forms_write_positive_targets (host : Host) (c : Connection)
    (B : number) :
  (forall st st' w,
     GoalSetter.handleSubmit host c st = (st', Some w) ->
     let x := StringToNumber host (GoalSetter.targetAmount st) in
     GoalSetter.name st <> EmptyString
     /\ gt x zero = true
     /\ w = SetGoal (GoalSetter.name st) x
     /\ GoalSetter.handleSubmit host c st' = (st', None)
     /\ progress B (goalWritten w) = clamp (mul (div B x) (ofZ 100)))
  /\ (forall st w closed,
        GoalEditorModal.handleSubmit host c st = (Some w, closed) ->
        let x := toNumber host (GoalEditorModal.targetAmount st) in
        GoalEditorModal.name st <> EmptyString
        /\ gt x zero = true
        /\ w = UpdateGoal (GoalEditorModal.name st) x
        /\ closed = true
        /\ progress B (goalWritten w) = clamp (mul (div B x) (ofZ 100)))
  /\ (forall n x,
        n <> EmptyString -> gt x zero = true -> connected c = true ->
        GoalEditorModal.handleSubmit host c
          (GoalEditorModal.initial {| name := n; targetAmount := Some x |})
        = (Some (UpdateGoal n x), true)).
Proof.
  split; [|split].
  - intros [n ta sub] st' w. unfold GoalSetter.handleSubmit, handleSetGoal.
    cbn [GoalSetter.name GoalSetter.targetAmount GoalSetter.isSubmitting toNumber].
    destruct (nonEmpty n) eqn:Hn; [|done].
    destruct (gt (StringToNumber host ta) zero) eqn:Hgt; [|done].
    destruct sub; [done|]. cbn [andb negb].
    destruct (negb (connected c)); [done|].
    intros [= <- <-]. repeat split; try done.
    + by apply nonEmpty_spec.
    + cbn [GoalSetter.name GoalSetter.targetAmount GoalSetter.isSubmitting].
      by rewrite Hn, Hgt.
    + by apply progress_positive_target.
  - intros [n ta] w closed. unfold GoalEditorModal.handleSubmit, handleUpdateGoal.
    cbn [GoalEditorModal.name GoalEditorModal.targetAmount].
    destruct (nonEmpty n) eqn:Hn; [|done].
    destruct (gt (toNumber host ta) zero) eqn:Hgt; [|done]. cbn [andb].
    destruct (negb (connected c)); [done|].
    intros [= <- <-]. repeat split; try done.
    + by apply nonEmpty_spec.
    + by apply progress_positive_target.
  - intros n x Hn%nonEmpty_spec Hx Hc.
    unfold GoalEditorModal.handleSubmit, GoalEditorModal.initial, handleUpdateGoal.
    cbn [GoalEditorModal.name GoalEditorModal.targetAmount toNumber].
    by rewrite Hn, Hx, Hc.
Qed.

(** ** Local time against the keys *)

(** The key of a time value is the key of a day cell exactly when, in
    local time, it lies on the cell's day before the UTC date changes or on
    the day before from then on. *)
Lemma key_of_cell_iff tz year month dt t :
  - msPerDay < tz <= msPerDay ->
  validTime t -> validTime (Date_ymd tz year month dt) ->
  let cellDay := Day (LocalTime tz (Date_ymd tz year month dt)) in
  let l := LocalTime tz t in
  isoDate t = isoDate (Date_ymd tz year month dt) <->
  (Day l = cellDay /\ TimeWithinDay l < utcDateChange tz)
  \/ (Day l = cellDay - 1 /\ utcDateChange tz <= TimeWithinDay l).
Proof.
  intros Htz Ht Hc cellDay l. rewrite isoDate_same_day by done.
  unfold cellDay, l, utcDateChange, Date_ymd.
  rewrite LocalTime_UTC, Day_MakeDate.
  unfold UTC, LocalTime, MakeDate, Day, TimeWithinDay, msPerDay in *.
  set (D := MakeDay (MakeFullYear year) month dt).
  clearbody D cellDay l. clear Ht Hc.
  destruct (Z.ltb_spec 0 tz); cbv iota.
  - replace ((D * 86400000 + 0 - tz) / 86400000) with (D - 1)
      by (Z.to_euclidean_division_equations; lia).
    assert (Hq : t / 86400000
                 = if tz <=? (t + tz) mod 86400000
                   then (t + tz) / 86400000 else (t + tz) / 86400000 - 1).
    { destruct (Z.leb_spec tz ((t + tz) mod 86400000));
        Z.to_euclidean_division_equations; lia. }
    rewrite Hq.
    destruct (Z.leb_spec tz ((t + tz) mod 86400000)); lia.
  - replace ((D * 86400000 + 0 - tz) / 86400000) with D
      by (Z.to_euclidean_division_equations; lia).
    assert (Hq : t / 86400000
                 = if (t + tz) mod 86400000 <? 86400000 + tz
                   then (t + tz) / 86400000 else (t + tz) / 86400000 + 1).
    { destruct (Z.ltb_spec ((t + tz) mod 86400000) (86400000 + tz));
        Z.to_euclidean_division_equations; lia. }
    rewrite Hq.
    destruct (Z.ltb_spec ((t + tz) mod 86400000) (86400000 + tz)); lia.
Qed.

(** X13. Which transactions a day cell counts.  With the host's offset
    from UTC within a day either way, a transaction has the key of the cell
    of a day exactly when its local time is on that day before the time
    [utcDateChange], or on the day before at or after that time.  West of
    UTC and at UTC that time is 24 hours minus the offset, east of UTC it
    is the offset: in Japan a cell counts the day's transactions before
    09:00 and the previous day's from 09:00 on. *)
Theorem cell_counts_by_utc_date (tz year month : Z) (day : nat) (ts : Timestamp)
    (Htz : - msPerDay < tz <= msPerDay)
    (Hts : validTimestamp ts)
    (Hcell : validTime (Date_ymd tz year month (Z.of_nat day))) :
  let cellDate := Date_ymd tz year month (Z.of_nat day) in
  let cellDay := Day (LocalTime tz cellDate) in
  let l := LocalTime tz (seconds ts * 1000) in
  (cellDay = MakeDay (MakeFullYear year) month (Z.of_nat day)
   /\ getDay tz cellDate = WeekDay (cellDay * msPerDay))
  /\ (dateKeyOf ts = isoDate cellDate <->
      (Day l = cellDay /\ TimeWithinDay l < utcDateChange tz)
      \/ (Day l = cellDay - 1 /\ utcDateChange tz <= TimeWithinDay l))
  /\ (tz = 0 -> (dateKeyOf ts = isoDate cellDate <-> Day l = cellDay)).
Proof.
  intros cellDate cellDay l.
  pose proof (key_of_cell_iff tz year month (Z.of_nat day) (seconds ts * 1000)
                Htz Hts Hcell) as H. cbv zeta in H. fold cellDate cellDay l in H.
  split; [|split; [exact H|]].
  - unfold cellDay, cellDate, Date_ymd, getDay, WeekDay.
    rewrite LocalTime_UTC, !Day_MakeDate. split; [done|].
    unfold Day. by rewrite Z.div_mul by (unfold msPerDay; lia).
  - intros ->. unfold dateKeyOf. rewrite H. clearbody l cellDay.
    unfold utcDateChange, TimeWithinDay, msPerDay. rewrite Z.ltb_irrefl.
    pose proof (Z.mod_pos_bound l 86400000 ltac:(lia)). split.
    + intros [[? _]|[_ ?]]; [done|lia].
    + intros ?. left. split; [done|lia].
Qed.

(** X13, witness: in Japan the purchase of 08:00 on 1 May 2024 has the key
    of the cell of 1 May, and the one of 10:00 that morning the key of the
    cell of 2 May. *)
Lemma cell_counts_by_utc_date_witness :
  dateKeyOf {| seconds := 1714518000 |} = isoDate (Date_ymd JST 2024 4 1)
  /\ dateKeyOf {| seconds := 1714525200 |} = isoDate (Date_ymd JST 2024 4 2).
Proof.
  assert (Htz : - msPerDay < JST <= msPerDay)
    by (vm_compute; split; [reflexivity | discriminate]).
  split.
  - assert (Hts : validTimestamp {| seconds := 1714518000 |})
      by (vm_compute; split; discriminate).
    assert (Hcell : validTime (Date_ymd JST 2024 4 (Z.of_nat 1)))
      by (vm_compute; split; discriminate).
    apply (proj1 (proj2 (cell_counts_by_utc_date JST 2024 4 1 _ Htz Hts Hcell))).
    left. vm_compute. split; reflexivity.
  - assert (Hts : validTimestamp {| seconds := 1714525200 |})
      by (vm_compute; split; discriminate).
    assert (Hcell : validTime (Date_ymd JST 2024 4 (Z.of_nat 2)))
      by (vm_compute; split; discriminate).
    apply (proj1 (proj2 (cell_counts_by_utc_date JST 2024 4 2 _ Htz Hts Hcell))).
    right. vm_compute. split; [reflexivity | discriminate].
Defined.

(** X14. Which cell is marked as today.  The cell whose key is the key of
    the present moment is the cell of the local day only before the UTC
    date changes; from then on it is the cell of the day after.  East of
    UTC the change is at the offset: in Japan the calendar marks tomorrow's
    cell from 09:00 on. *)
Theorem isToday_marks_utc_date (tz year month : Z) (day : nat) (now : Z)
    (Htz : - msPerDay < tz <= msPerDay)
    (Hnow : validTime now)
    (Hcell : validTime (Date_ymd tz year month (Z.of_nat day))) :
  let cellDate := Date_ymd tz year month (Z.of_nat day) in
  let cellDay := Day (LocalTime tz cellDate) in
  let l := LocalTime tz now in
  (isToday now (isoDate cellDate) = true <->
   (Day l = cellDay /\ TimeWithinDay l < utcDateChange tz)
   \/ (Day l + 1 = cellDay /\ utcDateChange tz <= TimeWithinDay l))
  /\ (Day l = cellDay -> utcDateChange tz <= TimeWithinDay l ->
      isToday now (isoDate cellDate) = false).
Proof.
  intros cellDate cellDay l.
  pose proof (key_of_cell_iff tz year month (Z.of_nat day) now Htz Hnow Hcell) as H.
  cbv zeta in H. fold cellDate cellDay l in H.
  assert (Hiff : isToday now (isoDate cellDate) = true <->
            (Day l = cellDay /\ TimeWithinDay l < utcDateChange tz)
            \/ (Day l + 1 = cellDay /\ utcDateChange tz <= TimeWithinDay l)).
  { unfold isToday. rewrite String.eqb_eq, H.
    split; (intros [[? ?]|[? ?]]; [left | right]; split; lia). }
  split; [exact Hiff|].
  intros Hd Hlate. apply not_true_is_false. intros E.
  apply Hiff in E as [[_ ?]|[? _]]; lia.
Qed.

(** X14, witness: at 15:00 on 15 May 2024 in Japan the cell of 16 May is
    marked, not the cell of 15 May. *)
Lemma isToday_marks_utc_date_witness :
  isToday afternoon_JST (isoDate (Date_ymd JST 2024 4 16)) = true
  /\ isToday afternoon_JST (isoDate (Date_ymd JST 2024 4 15)) = false.
Proof.
  assert (Htz : - msPerDay < JST <= msPerDay)
    by (vm_compute; split; [reflexivity | discriminate]).
  assert (Hnow : validTime afternoon_JST) by (vm_compute; split; discriminate).
  split.
  - assert (Hcell : validTime (Date_ymd JST 2024 4 (Z.of_nat 16)))
      by (vm_compute; split; discriminate).
    apply (proj1 (isToday_marks_utc_date JST 2024 4 16 _ Htz Hnow Hcell)).
    right. vm_compute. split; [reflexivity | discriminate].
  - assert (Hcell : validTime (Date_ymd JST 2024 4 (Z.of_nat 15)))
      by (vm_compute; split; discriminate).
    apply (proj2 (isToday_marks_utc_date JST 2024 4 15 _ Htz Hnow Hcell)).
    + vm_compute. reflexivity.
    + vm_compute. discriminate.
Defined.

(** X15. The date the list shows for a transaction is its local date; the
    key the calendar files it under is that date exactly when its local
    time of day is before [utcDateChange] (west of UTC and at UTC) or at or
    after it (east of UTC). *)
Theorem key_is_local_date_iff (tz : Z) (ts : Timestamp)
    (Htz : - msPerDay < tz <= msPerDay)
    (Hts : validTimestamp ts)
    (Hlocal : validTime (LocalTime tz (seconds ts * 1000))) :
  let l := LocalTime tz (seconds ts * 1000) in
  dateKeyOf ts = localDateKey tz ts <->
  if 0 <? tz then utcDateChange tz <= TimeWithinDay l
  else TimeWithinDay l < utcDateChange tz.
Proof.
  intros l. unfold dateKeyOf, localDateKey. fold l.
  rewrite isoDate_same_day by done.
  unfold l, utcDateChange, LocalTime, Day, TimeWithinDay, msPerDay in *.
  destruct (Z.ltb_spec 0 tz); cbv iota; Z.to_euclidean_division_equations; lia.
Qed.

(** X15, witness: the purchase of 10:00 on 1 May 2024 in Japan is filed
    under its local date. *)
Lemma key_is_local_date_iff_witness :
  dateKeyOf {| seconds := 1714525200 |} = localDateKey JST {| seconds := 1714525200 |}.
Proof.
  assert (Htz : - msPerDay < JST <= msPerDay)
    by (vm_compute; split; [reflexivity | discriminate]).
  assert (Hts : validTimestamp {| seconds := 1714525200 |})
    by (vm_compute; split; discriminate).
  assert (Hl : validTime (LocalTime JST (seconds {| seconds := 1714525200 |} * 1000)))
    by (vm_compute; split; discriminate).
  apply (proj2 (key_is_local_date_iff JST _ Htz Hts Hl)).
  vm_compute. discriminate.
Defined.

(** ** The calendar against the balance *)

Lemma sumZ_app a b : sumZ (a ++ b) = sumZ a + sumZ b.
Proof. induction a as [|x a IH]; simpl; lia. Qed.

Lemma sumZ_signs ns : sumZ (positives ns) + sumZ (negatives ns) = sumZ ns.
Proof.
  unfold positives, negatives. induction ns as [|n ns IH]; simpl; [done|].
  destruct (Z.ltb_spec 0 n), (Z.ltb_spec n 0); simpl; lia.
Qed.

Lemma sumZ_map_add {A} (g h : A -> Z) l :
  sumZ (map (fun x => g x + h x) l) = sumZ (map g l) + sumZ (map h l).
Proof. induction l as [|x l IH]; simpl; lia. Qed.

Lemma sumZ_map_zero {A} (l : list A) : sumZ (map (fun _ => 0) l) = 0.
Proof. induction l as [|x l IH]; simpl; lia. Qed.

Lemma sumZ_split (f : Transaction -> bool) l :
  sumZ (map amountZ l)
  = sumZ (map amountZ (List.filter f l))
    + sumZ (map amountZ (List.filter (fun t => negb (f t)) l)).
Proof. induction l as [|t l IH]; simpl; [done|]. destruct (f t); simpl; lia. Qed.

(** The net amount of a day is the sum of the amounts of its bucket. *)
Lemma dayTotal_bucket L :
  safeAmounts L ->
  dayTotal {| income := sumAmounts (List.filter isIncome L);
              expense := sumAmounts (List.filter isNotIncome L) |}
  = sumZ (map amountZ L).
Proof.
  intros HL. destruct (HL) as [Hall Hb]. unfold dayTotal. cbn [income expense].
  rewrite !sumAmounts_safe by (by apply safeAmounts_filter).
  rewrite map_amountZ_incomes, sumZ_others by done.
  pose proof (sumZ_le_sumAbs (positives (map amountZ L))) as Hp.
  pose proof (sumZ_le_sumAbs (negatives (map amountZ L))) as Hn.
  pose proof (sumAbs_filter (fun n => 0 <? n) (map amountZ L)) as Hp'.
  pose proof (sumAbs_filter (fun n => n <? 0) (map amountZ L)) as Hn'.
  fold (positives (map amountZ L)) in Hp'. fold (negatives (map amountZ L)) in Hn'.
  rewrite !integerValue_ofZ by lia. apply sumZ_signs.
Qed.

(** Each transaction is in the bucket of exactly one of a list of distinct
    keys that has its key. *)
Lemma sumZ_one_bucket ks t :
  NoDup ks -> (forall k, bucketKey t = Some k -> In k ks) ->
  sumZ (map (fun k => if inBucket k t then amountZ t else 0) ks)
  = if bucketed t then amountZ t else 0.
Proof.
  intros Hnd Hin. unfold bucketed.
  destruct (bucketKey t) as [k0|] eqn:Ek.
  - specialize (Hin k0 eq_refl).
    induction Hnd as [|k ks Hk Hnd IH]; [done|]. simpl.
    destruct (inBucket k t) eqn:E.
    + apply inBucket_spec in E. assert (k = k0) as -> by congruence.
      rewrite (map_ext_in _ (fun _ => 0)), sumZ_map_zero; [lia|].
      intros k' Hk'. destruct (inBucket k' t) eqn:E'; [|done].
      apply inBucket_spec in E'. apply list_elem_of_In in Hk'. congruence.
    + destruct Hin as [->|Hin].
      * assert (inBucket k0 t = true) by (by apply inBucket_spec). congruence.
      * by rewrite IH.
  - rewrite (map_ext_in _ (fun _ => 0)), sumZ_map_zero; [done|].
    intros k' _. destruct (inBucket k' t) eqn:E'; [|done].
    apply inBucket_spec in E'. congruence.
Qed.

Lemma sumZ_buckets ks T :
  NoDup ks -> (forall t k, In t T -> bucketKey t = Some k -> In k ks) ->
  sumZ (map (fun k => sumZ (map amountZ (List.filter (inBucket k) T))) ks)
  = sumZ (map amountZ (List.filter bucketed T)).
Proof.
  intros Hnd. induction T as [|t T IH]; intros Hin.
  - simpl. apply sumZ_map_zero.
  - rewrite (map_ext _ (fun k => (if inBucket k t then amountZ t else 0)
                         + sumZ (map amountZ (List.filter (inBucket k) T)))).
    + rewrite sumZ_map_add, sumZ_one_bucket, IH.
      * simpl. by destruct (bucketed t).
      * intros t' k Ht'. apply Hin. by right.
      * done.
      * intros k. apply Hin. by left.
    + intros k. simpl. by destruct (inBucket k t).
Qed.

(** X16. The figures of the calendar add up to the balance.  For amounts
    in whole yen within the safe range, income plus expense of every day of
    [dailyData], summed over all its days, and the amounts of the
    transactions that [dailyData] leaves out (no date yet, or seconds 0)
    give [currentBalance]; with every transaction dated, the days alone
    do. *)
Theorem calendar_totals_add_up_to_balance (T : list Transaction)
    (Hsafe : safeAmounts T) :
  calendarTotal (dailyData T)
  + sumZ (map amountZ (List.filter (fun t => negb (bucketed t)) T))
  = integerValue (currentBalance T)
  /\ ((forall t, In t T -> bucketed t = true) ->
      calendarTotal (dailyData T) = integerValue (currentBalance T)).
Proof.
  assert (Hbal : integerValue (currentBalance T) = sumZ (map amountZ T)).
  { rewrite currentBalance_sumAmounts, sumAmounts_safe by done.
    destruct Hsafe as [_ Hb]. pose proof (sumZ_le_sumAbs (map amountZ T)).
    apply integerValue_ofZ. lia. }
  assert (Hcal : calendarTotal (dailyData T)
                 = sumZ (map amountZ (List.filter bucketed T))).
  { unfold calendarTotal.
    rewrite (map_ext_in _ (fun ka => sumZ (map amountZ
                                     (List.filter (inBucket (fst ka)) T)))).
    - rewrite <- (map_map fst (fun k => sumZ (map amountZ (List.filter (inBucket k) T)))).
      apply sumZ_buckets.
      + apply (NoDup_fst_map_to_list (dailyData T)).
      + intros t k Ht Hk.
        assert (Hne : List.filter (inBucket k) T <> []).
        { apply filter_nonempty_iff. exists t. split; [done|]. by apply inBucket_spec. }
        pose proof (aggregateOf_nonempty k T Hne) as Ha.
        rewrite <- dailyData_lookup in Ha.
        apply elem_of_map_to_list in Ha.
        apply list_elem_of_In. apply list_elem_of_fmap. by eexists (k, _).
    - intros [k a] Hka. cbn [fst snd].
      apply list_elem_of_In, elem_of_map_to_list in Hka.
      rewrite dailyData_lookup in Hka. apply aggregateOf_Some in Hka as ->.
      apply dayTotal_bucket. by apply safeAmounts_filter. }
  split.
  - rewrite Hbal, Hcal. symmetry. apply sumZ_split.
  - intros Hall. rewrite Hbal, Hcal. f_equal. f_equal.
    clear -Hall. induction T as [|t T IH]; [done|]. simpl.
    rewrite (Hall t) by (by left). f_equal. apply IH. intros t' Ht'.
    apply Hall. by right.
Qed.

(** X16, witness: the scenario's days hold 47000 and 10000, the balance is
    57000. *)
Lemma calendar_totals_add_up_to_balance_witness :
  calendarTotal (dailyData scenario_T) = integerValue (currentBalance scenario_T).
Proof.
  assert (Hsafe : safeAmounts scenario_T).
  { split.
    - repeat constructor; vm_compute; intros; discriminate.
    - vm_compute. intros; discriminate. }
  apply (proj2 (calendar_totals_add_up_to_balance scenario_T Hsafe)).
  intros t [<-|[<-|[<-|[]]]]; reflexivity.
Defined.

(** ** The percentage shown *)

(** What [shr_fexp] leaves of a mantissa has at most 53 bits. *)
Lemma shr_fexp_bound m e l :
  0 <= m -> shr_m (fst (shr_fexp prec emax m e l)) < 2 ^ 53.
Proof.
  intros Hm. pose proof (Zdigits2_bound m Hm) as Hd.
  assert (Hd0 : 0 <= Zdigits2 m) by (by destruct m).
  unfold shr_fexp, fexp, SpecFloat.emin, prec, emax.
  assert (Hrec : shr_m (shr_record_of_loc m l) = m) by (by destruct l as [|[]]).
  destruct (Z.max (Zdigits2 m + e - 53) (3 - 1024 - 53) - e) as [|p|p] eqn:En;
    cbn [shr fst].
  - rewrite Hrec. eapply Z.lt_le_trans; [exact Hd|].
    apply Z.pow_le_mono_r; lia.
  - rewrite shr_iter_div, Hrec by (rewrite Hrec; done).
    apply Z.div_lt_upper_bound; [lia|].
    rewrite <- Z.pow_add_r by lia.
    eapply Z.lt_le_trans; [exact Hd|]. apply Z.pow_le_mono_r; lia.
  - rewrite Hrec. eapply Z.lt_le_trans; [exact Hd|].
    apply Z.pow_le_mono_r; lia.
Qed.

(** The mantissa of a rounded result has at most 53 bits. *)
Lemma binary_round_aux_bound s m e l s' m' e' :
  0 <= m ->
  binary_round_aux prec emax s m e l = S754_finite s' m' e' ->
  Zpos m' < 2 ^ 53.
Proof.
  intros Hm. unfold binary_round_aux.
  pose proof (shr_fexp_nonneg m e l Hm) as H1.
  destruct (shr_fexp prec emax m e l) as [mrs1 e1] eqn:E1. cbn [fst] in H1.
  pose proof (shr_fexp_bound
                (round_nearest_even (shr_m mrs1) (loc_of_shr_record mrs1)) e1
                loc_Exact (round_nearest_even_nonneg _ _ H1)) as H2.
  destruct (shr_fexp prec emax _ e1 loc_Exact) as [mrs2 e2] eqn:E2.
  cbn [fst] in H2.
  destruct (shr_m mrs2) as [|p|p]; [done| |done].
  destruct (e2 <=? emax - prec); [|done]. by intros [= _ <- _].
Qed.

Lemma mul_bound x y s m e : mul x y = S754_finite s m e -> Zpos m < 2 ^ 53.
Proof.
  destruct x as [sx|sx| |sx mx ex], y as [sy|sy| |sy my ey]; try done.
  unfold mul, SFmul. apply binary_round_aux_bound. lia.
Qed.

(** Rounding a positive number below 100 whose mantissa has at most 53
    bits. *)
Lemma Math_round_below_100 m e :
  Zpos m < 2 ^ 53 ->
  lt (S754_finite false m e) (ofZ 100) = true ->
  exists n, 0 <= n <= 100 /\ Math_round (S754_finite false m e) = ofZ n.
Proof.
  intros Hm Hlt. rewrite ofZ_100 in Hlt.
  unfold lt, SFltb, SFcompare in Hlt.
  assert (He : e < -46 \/ (e = -46 /\ Zpos m < 7036874417766400)).
  { assert (Hc : forall c, match e ?= -46 with
                             | Eq => Pos.compare_cont Eq m c
                             | Lt => Lt
                             | Gt => Gt
                             end = Lt ->
                   e < -46 \/ (e = -46 /\ Zpos m < Zpos c)).
    { intros c. destruct (Z.compare_spec e (-46)) as [->|?|?]; [|by left|done].
      fold (Pos.compare m c). intros Hc%Pos.compare_lt_iff. right.
      split; [done | exact Hc]. }
    apply Hc. by destruct (match e ?= -46 with Eq => _ | Lt => Lt | Gt => Gt end). }
  unfold Math_round. destruct (Z.leb_spec 0 e); [lia|].
  cbn [cond_Zopp]. set (n := (Zpos m + 2 ^ (- e - 1)) / 2 ^ (- e)).
  assert (Hn : 0 <= n <= 100).
  { unfold n. split.
    - apply Z.div_pos; [|apply Z.pow_pos_nonneg; lia].
      pose proof (Z.pow_pos_nonneg 2 (- e - 1)). lia.
    - destruct He as [He|[-> Hm']].
      + assert (Hp : 2 ^ 53 <= 2 ^ 6 * 2 ^ (- e)).
        { rewrite <- Z.pow_add_r by lia. apply Z.pow_le_mono_r; lia. }
        assert (Hh : 2 ^ (- e) = 2 * 2 ^ (- e - 1)).
        { rewrite <- Z.pow_succ_r by lia. f_equal. lia. }
        pose proof (Z.pow_pos_nonneg 2 (- e - 1) ltac:(lia) ltac:(lia)) as Hpos.
        change (2 ^ 6) with 64 in Hp.
        assert ((Zpos m + 2 ^ (- e - 1)) / 2 ^ (- e) < 65); [|lia].
        apply Z.div_lt_upper_bound; lia.
      + change (- -46 - 1) with 45. change (- -46) with 46.
        change (2 ^ 45) with 35184372088832. change (2 ^ 46) with 70368744177664.
        assert ((Zpos m + 35184372088832) / 70368744177664 < 101); [|lia].
        apply Z.div_lt_upper_bound; lia. }
  destruct (Z.eqb_spec n 0) as [E|E].
  - exists 0. by split.
  - exists n. by split.
Qed.

(** X17. The percentage on the progress card.  For every balance that is a
    number and every goal whose target is not infinite,
    [Math.round(progress)] is one of the whole numbers 0, 1, ..., 100; with
    no goal, or a goal without target, it is 0. *)
Theorem percentShown_whole (B : number) (G : option Goal)
    (HB : isNaN B = false)
    (HG : forall target, targetOf G = Some target -> isInfinite target = false) :
  (exists n, 0 <= n <= 100 /\ percentShown B G = ofZ n)
  /\ (targetOf G = None -> percentShown B G = ofZ 0).
Proof.
  unfold percentShown, progress. split.
  - destruct G as [g|]; [|by exists 0]. cbn [targetOf] in HG.
    destruct (targetAmount g) as [target|]; [|by exists 0].
    specialize (HG target eq_refl).
    destruct (ToBoolean target) eqn:Et; [|by exists 0]. cbn [negb].
    set (x := mul (div B target) (ofZ 100)).
    assert (Hx : isNaN x = false).
    { unfold x. rewrite ofZ_100. apply mul_not_NaN; [|done..].
      apply div_not_NaN; [done|by destruct target..|].
      rewrite HG. apply andb_false_r. }
    fold (clamp x). unfold clamp. rewrite Math_min_100 by done.
    destruct (lt x (ofZ 100)) eqn:Elt.
    + rewrite Math_max_zero by done.
      destruct (gt x zero) eqn:Egt; [|by exists 0].
      destruct x as [[]|[]| |[] m e] eqn:Ex; try done.
      apply Math_round_below_100; [|done].
      by apply (mul_bound (div B target) (ofZ 100) false m e).
    + exists 100. split; [lia|]. rewrite ofZ_100. vm_compute. reflexivity.
  - destruct G as [g|]; [|done]. cbn [targetOf]. by intros ->.
Qed.

(** X17, witness: a balance of 57000 towards 100000 shows 57. *)
Lemma percentShown_whole_witness :
  exists n, 0 <= n <= 100
            /\ percentShown (currentBalance scenario_T) (Some goal_100000) = ofZ n.
Proof.
  assert (HB : isNaN (currentBalance scenario_T) = false) by (vm_compute; reflexivity).
  assert (HG : forall target, targetOf (Some goal_100000) = Some target ->
                 isInfinite target = false) by (by intros target [= <-]).
  exact (proj1 (percentShown_whole _ _ HB HG)).
Defined.

Lemma Math_round_samples :
  Math_round (div (ofZ 5) (ofZ 2)) = ofZ 3
  /\ Math_round (div (ofZ (-5)) (ofZ 2)) = ofZ (-2)
  /\ Math_round (div (ofZ 2) (ofZ 5)) = zero
  /\ Math_round (div (ofZ (-2)) (ofZ 5)) = negzero
  /\ Math_round (div (ofZ (-1)) (ofZ 2)) = negzero
  /\ Math_round (div (ofZ 1) (ofZ 2)) = ofZ 1
  /\ Math_round (ofZ 57) = ofZ 57
  /\ Math_round (ofZ 9007199254740993) = ofZ 9007199254740993
  /\ percentShown (ofZ 57000) (Some goal_100000) = ofZ 57
  /\ percentShown (ofZ 995) (Some {| name := "n"; targetAmount := Some (ofZ 1000) |})
     = ofZ 100.
Proof. vm_compute. repeat split. Qed.

(** ** The rows of the grid *)

(** X18. The grid of a month 0..11 has 28, 35 or 42 cells, that is four,
    five or six full rows, of which [daysInMonth] are days; it has four
    rows only for a February of 28 days that starts on a Sunday, and six
    only when a month of 30 days starts on a Saturday or a month of 31 days
    on a Friday or a Saturday. *)
Theorem calendarDays_rows (tz year month : Z) (T : list Transaction)
    (Hm : 0 <= month <= 11) :
  let cells := length (calendarDays tz year month T) in
  let s := startDay tz year month in
  let n := daysInMonth tz year month in
  (cells = 28 \/ cells = 35 \/ cells = 42)%nat
  /\ (cells = 28 <-> s = 0 /\ n = 28)%nat
  /\ (cells = 42 <-> 36 <= s + n)%nat
  /\ (28 <= n <= 31)%nat.
Proof.
  intros cells s n. unfold cells. rewrite calendarDays_length. fold s n.
  pose proof (startDay_lt_7 tz year month) as Hs. fold s in Hs.
  pose proof (daysInMonth_monthLength tz year month Hm) as Hn. fold n in Hn.
  pose proof (monthLength_bounds (MakeFullYear year) month) as Hb.
  assert (Hn' : (28 <= n <= 31)%nat) by lia.
  clearbody s n. clear Hn Hb.
  repeat split; zify; Z.to_euclidean_division_equations; lia.
Qed.

(** X18, witness: May 2024 takes five rows. *)
Lemma calendarDays_rows_witness :
  length (calendarDays JST 2024 4 scenario_T) = 35%nat.
Proof.
  assert (Hm : 0 <= 4 <= 11) by lia.
  destruct (calendarDays_rows JST 2024 4 scenario_T Hm) as ([H|[H|H]] & _);
    [|exact H|]; exfalso; revert H; vm_compute; discriminate.
Defined.

(** ** The list of a day *)

Lemma StronglySorted_lookup {A} (R : A -> A -> Prop) (l : list A) i j a b :
  StronglySorted R l -> (i < j)%nat ->
  l !! i = Some a -> l !! j = Some b -> R a b.
Proof.
  intros Hs. revert i j. induction Hs as [|x l Hs IH Hall]; intros i j Hij Ha Hb.
  - done.
  - destruct j as [|j]; [lia|]. cbn in Hb. destruct i as [|i]; cbn in Ha.
    + injection Ha as <-. rewrite List.Forall_forall in Hall.
      apply Hall. apply list_elem_of_In. by eapply list_elem_of_lookup_2.
    + apply (IH i j); [lia|done..].
Qed.

(** X19. What the day's modal lists.  [dailyTransactions] holds exactly the
    transactions that have a date whose key, the UTC date of the
    timestamp, is the key of the [Date] given, each as often as the list
    holds it.  Of any two of them the one standing first has the timestamp
    that is not the earlier one; those with the same timestamp stand in
    the order of the list; and the result is empty exactly when no
    transaction has that key. *)
Theorem dailyTransactions_by_key_latest_first (d : Z) (T : list Transaction) :
  let l := dailyTransactions d T in
  let at_second k t :=
    match date t with
    | Some ts => seconds ts =? k
    | None => false
    end in
  Permutation l (List.filter (onDateKey (isoDate d)) T)
  /\ (forall t, In t l <->
        In t T /\ exists ts, date t = Some ts /\ dateKeyOf ts = isoDate d)
  /\ (forall i j a b, (i < j)%nat -> l !! i = Some a -> l !! j = Some b ->
        exists tsa tsb, date a = Some tsa /\ date b = Some tsb
                        /\ seconds tsb <= seconds tsa)
  /\ (forall k, List.filter (at_second k) l
               = List.filter (at_second k)
                   (List.filter (onDateKey (isoDate d)) T))
  /\ (l = [] <-> forall t, In t T -> onDateKey (isoDate d) t = false).
Proof.
  intros l at_second.
  assert (Hp : Permutation l (List.filter (onDateKey (isoDate d)) T))
    by apply sort_desc_perm.
  assert (Hin : forall t, In t l <->
            In t T /\ exists ts, date t = Some ts /\ dateKeyOf ts = isoDate d)
    by apply dailyTransactions_In.
  assert (Hsec : forall t, onDateKey (isoDate d) t = true ->
            forall k, at_second k t = (secondsOf t =? k)).
  { intros t Ht k. unfold at_second, secondsOf.
    apply onDateKey_spec in Ht as (ts & -> & _). done. }
  split; [exact Hp|]. split; [exact Hin|]. split; [|split].
  - intros i j a b Hij Ha Hb.
    pose proof (sort_desc_sorted (List.filter (onDateKey (isoDate d)) T)) as Hs.
    pose proof (StronglySorted_lookup _ _ i j a b Hs Hij Ha Hb) as Hab.
    assert (Ia : In a l) by (apply list_elem_of_In; by eapply list_elem_of_lookup_2).
    assert (Ib : In b l) by (apply list_elem_of_In; by eapply list_elem_of_lookup_2).
    apply Hin in Ia as (_ & tsa & Ea & _). apply Hin in Ib as (_ & tsb & Eb & _).
    exists tsa, tsb. split; [done|]. split; [done|].
    unfold laterFirst, secondsOf in Hab. by rewrite Ea, Eb in Hab.
  - intros k.
    pose proof (sort_desc_stable k (List.filter (onDateKey (isoDate d)) T)) as Hst.
    rewrite (filter_ext_in (at_second k) (fun t => secondsOf t =? k) l).
    + rewrite (filter_ext_in (at_second k) (fun t => secondsOf t =? k)
                 (List.filter (onDateKey (isoDate d)) T)); [exact Hst|].
      intros t [_ Ht]%filter_In. by apply Hsec.
    + intros t Ht. apply Hsec. apply Hin in Ht as (_ & ts & Et & Ek).
      apply onDateKey_spec. by exists ts.
  - split.
    + intros Hnil. apply filter_nil_iff. fold l in Hp. rewrite Hnil in Hp.
      by apply Permutation_nil in Hp.
    + intros Hnone. apply filter_nil_iff in Hnone.
      unfold l, dailyTransactions, filterByKey. by rewrite Hnone.
Qed.
